(** * Knowledge-distillation training script (train.py): a shallow embedding

    The development follows the layout of [train.py]:
    - [knowledge_distillation_loss] over real-valued logits;
    - [greedy_decode], the autoregressive decoding loop;
    - [get_or_build_tokenizer] over a file-system map;
    - [run_validation] and the validation [DataLoader];
    - [train_model]: set-up, training step, epoch loop, checkpoints and
      the final dynamic quantization, over a store of parameter tensors.

    Floating-point tensors are idealised as lists of real numbers: rounding,
    overflow, infinities and nan are outside the model, so statements on the
    value of the loss carry the hypotheses (a temperature other than 0, a
    batch that is not empty) under which torch computes a finite number.  The
    transformer itself ([model.py]), the dataset adapter ([dataset.py]),
    the path helpers ([config.py]) and the libraries (automatic
    differentiation, the Adam update rule, quantization kernels, the
    tokenizers and datasets libraries, torchmetrics, the operating system's
    path resolution) are not part of [train.py]; they enter as section
    variables.  Random choices (initial weights, shuffles, dropout) are
    functions of a draw counter kept in the world.  The scalars sent to the
    TensorBoard writer are kept in a log of their own, next to the files.
    Left out, as they change nothing that is read back: device selection and
    [.to(device)], printing and progress bars. *)

From Stdlib Require Import Reals Lra ZArith Lia List String.
From stdpp Require Import gmap strings list.
Import ListNotations.

Set Default Proof Using "Type".

(** ** Outcomes of running Python code *)

Inductive exn : Type :=
  | AssertionError
  | TypeError
  | ValueError
  | IndexError
  | RuntimeError
  | KeyError
  | FileNotFoundError
  | AttributeError
  | Exception.

(** [Diverge] is the outcome of a loop that used up its fuel. *)
Inductive Result (A : Type) : Type :=
  | Ok (a : A)
  | Raise (e : exn)
  | Diverge.

Arguments Ok {A} a.
Arguments Raise {A} e.
Arguments Diverge {A}.

#[global] Instance Result_ret : MRet Result := fun A a => Ok a.

#[global] Instance Result_bind : MBind Result := fun A B k m =>
  match m with
  | Ok a => k a
  | Raise e => Raise e
  | Diverge => Diverge
  end.

(** ** Data model *)

(** A floating-point tensor: its shape and its entries, idealised as reals. *)
Record Tensor : Type := mkTensor {
  shape : list nat;
  data : list R }.

(** [module.state_dict()]: parameter names and their values, in order. *)
Definition StateDict := list (string * Tensor).

(** Per-parameter state of Adam. *)
Record AdamState : Type := mkAdamState {
  adam_step : nat;
  exp_avg : Tensor;
  exp_avg_sq : Tensor }.

(** [optimizer.state_dict()]: the per-parameter states by position and the
    hyper-parameters of the single parameter group. *)
Record OptimizerStateDict : Type := mkOptimizerStateDict {
  sd_state : list (option AdamState);
  sd_lr : R;
  sd_eps : R }.

(** The dictionary [train_model] passes to [torch.save] after each epoch
    (train.py, lines 256-261): four keys. *)
Record Checkpoint : Type := mkCheckpoint {
  ck_epoch : Z;
  ck_model_state_dict : StateDict;
  ck_optimizer_state_dict : OptimizerStateDict;
  ck_global_step : Z }.

(** The tokenizers library, as far as [train.py] drives it. *)
Inductive PreTokenizer : Type := Whitespace.

Record Tokenizer : Type := mkTokenizer {
  unk_token : option string;
  pre_tokenizer : option PreTokenizer;
  special_tokens : list string;
  vocab : gmap string Z }.

Record WordLevelTrainer : Type := mkWordLevelTrainer {
  trainer_special_tokens : list string;
  min_frequency : Z }.

Definition token_to_id (t : Tokenizer) (token : string) : option Z :=
  vocab t !! token.

(** Files the script reads and writes. *)
Inductive File : Type :=
  | TokenizerFile (t : Tokenizer)
  | CheckpointFile (c : Checkpoint)
  | StateDictFile (sd : StateDict)
  | OtherFile (content : string).

Definition FileSystem := gmap string File.

(** The configuration dictionary of [config.py]; the two keys read with
    [config.get] may be absent. *)
Record Config : Type := mkConfig {
  tokenizer_file : string;
  datasource : string;
  lang_src : string;
  lang_tgt : string;
  seq_len : Z;
  d_model : Z;
  batch_size : Z;
  lr : R;
  preload : option string;
  num_epochs : Z;
  model_folder : string;
  experiment_name : string;
  temperature : option R;
  alpha : option R }.

(** One entry of the raw parallel corpus: [item['translation']]. *)
Definition RawItem := gmap string string.

(** ** The distillation loss (train.py, lines 26-31) *)

Module Loss.

Open Scope R_scope.

(** A 2-D tensor of shape (N, C) is a list of N rows of C reals. *)
Definition Row := list R.
Definition Tensor2 := list Row.

Definition is_matrix (N C : nat) (t : Tensor2) : Prop :=
  length t = N /\ Forall (fun r => length r = C) t.

Definition Rsum (l : list R) : R := fold_right Rplus 0 l.

(** [tensor / temperature]; for a temperature of 0 torch yields infinities
    and nan, which the reals do not have. *)
Definition div_scalar (t : Tensor2) (c : R) : Tensor2 :=
  map (map (fun v => v / c)) t.

(** [torch.softmax(_, dim=-1)] and [torch.log_softmax(_, dim=-1)] on one row. *)
Definition softmax_row (x : Row) : Row :=
  map (fun v => exp v / Rsum (map exp x)) x.

Definition log_softmax_row (x : Row) : Row :=
  map (fun v => v - ln (Rsum (map exp x))) x.

Definition softmax (t : Tensor2) : Tensor2 := map softmax_row t.
Definition log_softmax (t : Tensor2) : Tensor2 := map log_softmax_row t.

(** [nn.KLDivLoss(reduction='batchmean')]: the pointwise term is
    [xlogy(target, target) - target * input], with [xlogy(0, 0) = 0]; the
    terms are summed over all elements and divided by [input.size(0)].
    Operands are taken of equal shape, as at the call site: what torch does
    with two shapes (broadcast them or refuse them) is outside the model, as
    is the nan of an empty batch. *)
Definition xlogy (x y : R) : R :=
  if Req_dec_T x 0 then 0 else x * ln y.

Definition kl_pointwise (inp tgt : R) : R := xlogy tgt tgt - tgt * inp.

Definition kl_row (inp tgt : Row) : R :=
  Rsum (map (fun p => kl_pointwise (fst p) (snd p)) (combine inp tgt)).

Definition KLDivLoss_batchmean (input target : Tensor2) : R :=
  Rsum (map (fun p => kl_row (fst p) (snd p)) (combine input target))
  / INR (length input).

(** [nn.CrossEntropyLoss()] with its defaults: [ignore_index = -100],
    [reduction = 'mean'], no label smoothing.  A row whose label is -100 is
    skipped; any other label must index a class.  The mean is taken over the
    rows that were not skipped (torch's result for none is nan). *)
Definition default_ignore_index : Z := (-100)%Z.

Definition nll_row (ignore_index : Z) (row : Row) (y : Z) : Result (option R) :=
  if (y =? ignore_index)%Z then Ok None
  else if ((0 <=? y) && (y <? Z.of_nat (length row)))%Z
       then Ok (Some (- nth (Z.to_nat y) (log_softmax_row row) 0))
       else Raise IndexError.

Fixpoint nll_rows (ignore_index : Z) (rows : Tensor2) (labels : list Z)
  : Result (list R) :=
  match rows, labels with
  | row :: rows', y :: labels' =>
      match nll_row ignore_index row y with
      | Ok o =>
          match nll_rows ignore_index rows' labels' with
          | Ok l => Ok (match o with Some v => v :: l | None => l end)
          | Raise e => Raise e
          | Diverge => Diverge
          end
      | Raise e => Raise e
      | Diverge => Diverge
      end
  | _, _ => Ok []
  end.

Definition CrossEntropyLoss_with (ignore_index : Z) (input : Tensor2)
  (labels : list Z) : Result R :=
  if negb (length input =? length labels)%nat then Raise ValueError
  else
    match nll_rows ignore_index input labels with
    | Ok l => Ok (Rsum l / INR (length l))
    | Raise e => Raise e
    | Diverge => Diverge
    end.

Definition CrossEntropyLoss : Tensor2 -> list Z -> Result R :=
  CrossEntropyLoss_with default_ignore_index.

(** The function of the source.  The KL term is evaluated first, then the
    cross-entropy, which is where an exception can come from. *)
Definition knowledge_distillation_loss (student_logits teacher_logits : Tensor2)
  (labels : list Z) (temperature alpha : R) : Result R :=
  let distillation_loss :=
    KLDivLoss_batchmean (log_softmax (div_scalar student_logits temperature))
                        (softmax (div_scalar teacher_logits temperature))
    * (temperature ^ 2) in
  match CrossEntropyLoss student_logits labels with
  | Ok ce_loss => Ok (alpha * ce_loss + (1 - alpha) * distillation_loss)
  | Raise e => Raise e
  | Diverge => Diverge
  end.

(** *** The loss as the specification words it

    Written with indexed sums over the [N] rows and [C] classes, apart from
    the list operations of the code.  [prob C x j] is the softmax probability
    of class [j] for the scores [x]; the cross-entropy is the mean over the
    rows of the negative log-probability of the row's label; the KL
    divergence of [q] from [p] is the sum over the classes of
    [q * (ln q - ln p)], averaged over the rows. *)
Fixpoint sum_below (n : nat) (f : nat -> R) : R :=
  match n with
  | O => 0
  | S k => sum_below k f + f k
  end.

Definition entry (t : Tensor2) (i j : nat) : R := nth j (nth i t []) 0.

Definition prob (C : nat) (x : nat -> R) (j : nat) : R :=
  exp (x j) / sum_below C (fun k => exp (x k)).

Definition cross_entropy_spec (N C : nat) (logits : Tensor2) (labels : list Z)
  : R :=
  sum_below N (fun i =>
    - ln (prob C (entry logits i) (Z.to_nat (nth i labels 0%Z))))
  / INR N.

Definition kl_divergence_spec (N C : nat) (p q : nat -> nat -> R) : R :=
  sum_below N (fun i =>
    sum_below C (fun j => q i j * (ln (q i j) - ln (p i j))))
  / INR N.

Definition kd_loss_spec (N C : nat) (student_logits teacher_logits : Tensor2)
  (labels : list Z) (T alpha : R) : R :=
  alpha * cross_entropy_spec N C student_logits labels
  + (1 - alpha)
    * (T ^ 2
       * kl_divergence_spec N C
           (fun i => prob C (fun j => entry student_logits i j / T))
           (fun i => prob C (fun j => entry teacher_logits i j / T))).

Definition labels_in_range (C : nat) (labels : list Z) : Prop :=
  Forall (fun y => (0 <= y < Z.of_nat C)%Z) labels.

(** *** Auxiliary facts on sums, softmax and the two torch losses *)

Lemma Rsum_map_ext {A : Type} (f g : A -> R) (l : list A) :
  (forall a, In a l -> f a = g a) -> Rsum (map f l) = Rsum (map g l).
Proof.
  induction l as [|a l IH]; simpl; intros H; [reflexivity|].
  rewrite (H a) by (left; reflexivity).
  rewrite IH by (intros b Hb; apply H; right; exact Hb).
  reflexivity.
Qed.

Lemma Rsum_exp_pos (x : Row) : x <> [] -> 0 < Rsum (map exp x).
Proof.
  destruct x as [|v x]; [congruence|]. intros _.
  revert v. induction x as [|w x IH]; intros v; simpl.
  - pose proof (exp_pos v). lra.
  - pose proof (exp_pos v). specialize (IH w). simpl in IH. lra.
Qed.

Lemma Rsum_exp_gt (x : Row) (i : nat) :
  (2 <= length x)%nat -> (i < length x)%nat ->
  exp (nth i x 0) < Rsum (map exp x).
Proof.
  revert i. induction x as [|v x IH]; intros i Hlen Hi; simpl in *; [lia|].
  destruct i as [|i].
  - assert (0 < Rsum (map exp x)) by (apply Rsum_exp_pos; destruct x; simpl in *; [lia|congruence]).
    lra.
  - pose proof (exp_pos v).
    destruct x as [|w x]; [simpl in *; lia|].
    destruct x as [|w' x].
    + destruct i; simpl in *; [lra|lia].
    + assert (exp (nth i (w :: w' :: x) 0) < Rsum (map exp (w :: w' :: x)))
        by (apply IH; simpl in *; lia).
      lra.
Qed.

Lemma nth_map_lt {A B : Type} (f : A -> B) (l : list A) (i : nat) (d : B) (d' : A) :
  (i < length l)%nat -> nth i (map f l) d = f (nth i l d').
Proof.
  revert i. induction l as [|a l IH]; intros i Hi; simpl in *; [lia|].
  destruct i; [reflexivity|]. apply IH. lia.
Qed.

Lemma ln_quot (a b : R) : 0 < a -> 0 < b -> ln (a / b) = ln a - ln b.
Proof.
  intros Ha Hb. unfold Rdiv.
  rewrite ln_mult by (try assumption; apply Rinv_0_lt_compat; assumption).
  rewrite ln_Rinv by assumption. lra.
Qed.

(** Below its length, a row of [log_softmax] is the logarithm of the row of
    [softmax]. *)
Lemma log_softmax_row_nth (x : Row) (i : nat) :
  (i < length x)%nat ->
  nth i (log_softmax_row x) 0 = ln (nth i (softmax_row x) 1).
Proof.
  intros Hi. unfold log_softmax_row, softmax_row.
  assert (Hne : x <> []) by (destruct x; simpl in *; [lia|congruence]).
  pose proof (Rsum_exp_pos x Hne) as Hz.
  rewrite !(nth_map_lt _ x i _ 0) by exact Hi.
  rewrite ln_quot by (try assumption; apply exp_pos).
  rewrite ln_exp. reflexivity.
Qed.

Lemma softmax_row_lt_1 (x : Row) (i : nat) :
  (2 <= length x)%nat -> (i < length x)%nat ->
  0 < nth i (softmax_row x) 1 < 1.
Proof.
  intros Hlen Hi. unfold softmax_row.
  assert (Hne : x <> []) by (destruct x; simpl in *; [lia|congruence]).
  pose proof (Rsum_exp_pos x Hne) as Hz.
  pose proof (Rsum_exp_gt x i Hlen Hi) as Hgt.
  rewrite (nth_map_lt _ x i _ 0) by exact Hi.
  pose proof (exp_pos (nth i x 0)) as Hp.
  split.
  - apply Rdiv_lt_0_compat; assumption.
  - apply (Rmult_lt_reg_r (Rsum (map exp x))); [assumption|].
    unfold Rdiv. rewrite Rmult_assoc, Rinv_l by lra. lra.
Qed.

(** The two torch losses in closed form over the lists. *)
Definition mean_nll (logits : Tensor2) (labels : list Z) : R :=
  Rsum (map (fun p => - ln (nth (Z.to_nat (snd p)) (softmax_row (fst p)) 1))
            (combine logits labels))
  / INR (length logits).

Definition mean_kl (logp q : Tensor2) : R :=
  Rsum (map (fun p =>
          Rsum (map (fun e => snd e * (ln (snd e) - fst e))
                    (combine (fst p) (snd p))))
        (combine logp q))
  / INR (length logp).

Lemma kl_pointwise_eq (inp tgt : R) :
  kl_pointwise inp tgt = tgt * (ln tgt - inp).
Proof.
  unfold kl_pointwise, xlogy.
  destruct (Req_dec_T tgt 0) as [->|_]; ring.
Qed.

Lemma KLDivLoss_batchmean_spec (input target : Tensor2) :
  KLDivLoss_batchmean input target = mean_kl input target.
Proof.
  unfold KLDivLoss_batchmean, mean_kl. f_equal.
  apply Rsum_map_ext. intros [inp tgt] _. simpl. unfold kl_row.
  apply Rsum_map_ext. intros [a b] _. simpl. apply kl_pointwise_eq.
Qed.

Lemma nll_row_in_range (row : Row) (y : Z) :
  (0 <= y < Z.of_nat (length row))%Z ->
  nll_row default_ignore_index row y
  = Ok (Some (- ln (nth (Z.to_nat y) (softmax_row row) 1))).
Proof.
  intros Hy. unfold nll_row, default_ignore_index.
  destruct (Z.eqb_spec y (-100)) as [->|_]; [lia|].
  destruct (Z.leb_spec 0 y); [|lia].
  destruct (Z.ltb_spec y (Z.of_nat (length row))); [|lia].
  simpl. rewrite log_softmax_row_nth by lia. reflexivity.
Qed.

Lemma nll_rows_in_range (C : nat) (rows : Tensor2) (labels : list Z) :
  Forall (fun r => length r = C) rows ->
  labels_in_range C labels ->
  nll_rows default_ignore_index rows labels
  = Ok (map (fun p => - ln (nth (Z.to_nat (snd p)) (softmax_row (fst p)) 1))
            (combine rows labels)).
Proof.
  intros Hrows. revert labels.
  induction Hrows as [|row rows Hrow Hrows IH]; intros labels Hl.
  - destruct labels; reflexivity.
  - destruct Hl as [|y labels Hy Hl]; [reflexivity|].
    cbn [nll_rows combine map fst snd].
    rewrite nll_row_in_range by (rewrite Hrow; exact Hy).
    rewrite (IH labels Hl). reflexivity.
Qed.

Lemma CrossEntropyLoss_in_range (N C : nat) (s : Tensor2) (labels : list Z) :
  is_matrix N C s -> length labels = N -> labels_in_range C labels ->
  CrossEntropyLoss s labels = Ok (mean_nll s labels).
Proof.
  intros [HN Hrows] Hlen Hl.
  unfold CrossEntropyLoss, CrossEntropyLoss_with, mean_nll.
  rewrite HN, Hlen, Nat.eqb_refl. simpl.
  rewrite (nll_rows_in_range C) by assumption.
  rewrite length_map, length_combine, HN, Hlen, Nat.min_id.
  reflexivity.
Qed.

(** *** From the lists to the indexed sums *)

Lemma sum_below_ext (n : nat) (f g : nat -> R) :
  (forall i, (i < n)%nat -> f i = g i) -> sum_below n f = sum_below n g.
Proof.
  induction n as [|n IH]; intros H; simpl; [reflexivity|].
  rewrite IH by (intros i Hi; apply H; lia). rewrite H by lia. reflexivity.
Qed.

Lemma sum_below_shift (n : nat) (f : nat -> R) :
  sum_below (S n) f = f 0%nat + sum_below n (fun i => f (S i)).
Proof.
  induction n as [|n IH]; [simpl; lra|].
  change (sum_below (S (S n)) f) with (sum_below (S n) f + f (S n)).
  rewrite IH. simpl. lra.
Qed.

Lemma Rsum_map_sum_below {A : Type} (g : A -> R) (l : list A) (d : A) :
  Rsum (map g l) = sum_below (length l) (fun i => g (nth i l d)).
Proof.
  induction l as [|a l IH]; [reflexivity|].
  cbn [length]. rewrite sum_below_shift. simpl. rewrite IH. reflexivity.
Qed.

Lemma Rsum_combine_sum_below {A B : Type} (h : A * B -> R) (a : list A)
  (b : list B) (da : A) (db : B) (n : nat) :
  length a = n -> length b = n ->
  Rsum (map h (combine a b))
  = sum_below n (fun i => h (nth i a da, nth i b db)).
Proof.
  revert b n. induction a as [|x a IH]; intros [|y b] n Ha Hb;
    simpl in Ha, Hb; subst n; try discriminate; [reflexivity|].
  rewrite sum_below_shift. simpl. rewrite (IH b (length a)) by lia.
  reflexivity.
Qed.

Lemma prob_ext (C : nat) (x y : nat -> R) (j : nat) :
  (forall k, (k < C)%nat -> x k = y k) -> (j < C)%nat ->
  prob C x j = prob C y j.
Proof.
  intros H Hj. unfold prob. rewrite (H j Hj).
  rewrite (sum_below_ext C (fun k => exp (x k)) (fun k => exp (y k)))
    by (intros k Hk; rewrite H by exact Hk; reflexivity).
  reflexivity.
Qed.

Lemma softmax_row_prob (row : Row) (j : nat) :
  (j < length row)%nat ->
  nth j (softmax_row row) 1 = prob (length row) (fun k => nth k row 0) j.
Proof.
  intros Hj. unfold softmax_row, prob.
  rewrite (nth_map_lt _ row j _ 0) by exact Hj.
  rewrite (Rsum_map_sum_below exp row 0). reflexivity.
Qed.

Lemma nth_row (N C : nat) (t : Tensor2) (i : nat) :
  is_matrix N C t -> (i < N)%nat -> length (nth i t []) = C.
Proof.
  intros [HN Hrows] Hi. rewrite Forall_forall in Hrows. apply Hrows.
  apply list_elem_of_In, nth_In. lia.
Qed.

Lemma length_div_scalar (t : Tensor2) (T : R) :
  length (div_scalar t T) = length t.
Proof. unfold div_scalar. apply length_map. Qed.

Lemma div_scalar_row (t : Tensor2) (T : R) (i : nat) :
  (i < length t)%nat ->
  nth i (div_scalar t T) [] = map (fun v => v / T) (nth i t []).
Proof. intros Hi. unfold div_scalar. apply nth_map_lt. exact Hi. Qed.

Lemma mean_nll_spec (N C : nat) (s : Tensor2) (labels : list Z) :
  is_matrix N C s -> length labels = N -> labels_in_range C labels ->
  mean_nll s labels = cross_entropy_spec N C s labels.
Proof.
  intros Hs Hlen Hl. pose proof Hs as [HN Hrows].
  unfold mean_nll, cross_entropy_spec. rewrite HN. f_equal.
  rewrite (Rsum_combine_sum_below _ s labels [] 0%Z N) by assumption.
  apply sum_below_ext. intros i Hi. cbn [fst snd].
  assert (Hy : (0 <= nth i labels 0%Z < Z.of_nat C)%Z).
  { unfold labels_in_range in Hl. rewrite Forall_forall in Hl. apply Hl.
    apply list_elem_of_In, nth_In. lia. }
  pose proof (nth_row N C s i Hs Hi) as Hrow.
  rewrite softmax_row_prob by lia. rewrite Hrow. reflexivity.
Qed.

Lemma mean_kl_spec (N C : nat) (s t : Tensor2) (T : R) :
  is_matrix N C s -> is_matrix N C t ->
  mean_kl (log_softmax (div_scalar s T)) (softmax (div_scalar t T))
  = kl_divergence_spec N C
      (fun i => prob C (fun j => entry s i j / T))
      (fun i => prob C (fun j => entry t i j / T)).
Proof.
  intros Hs Ht. pose proof Hs as [HNs _]. pose proof Ht as [HNt _].
  unfold mean_kl, kl_divergence_spec.
  assert (Hl1 : length (log_softmax (div_scalar s T)) = N)
    by (unfold log_softmax; rewrite length_map, length_div_scalar; exact HNs).
  assert (Hl2 : length (softmax (div_scalar t T)) = N)
    by (unfold softmax; rewrite length_map, length_div_scalar; exact HNt).
  rewrite Hl1. f_equal.
  rewrite (Rsum_combine_sum_below (A:=Row) (B:=Row) _ _ _ [] [] N Hl1 Hl2).
  apply sum_below_ext. intros i Hi. cbn [fst snd].
  assert (Hsi : nth i (log_softmax (div_scalar s T)) []
                = log_softmax_row (map (fun v => v / T) (nth i s []))).
  { unfold log_softmax.
    rewrite (nth_map_lt _ (div_scalar s T) i _ [])
      by (rewrite length_div_scalar, HNs; exact Hi).
    rewrite div_scalar_row by lia. reflexivity. }
  assert (Hti : nth i (softmax (div_scalar t T)) []
                = softmax_row (map (fun v => v / T) (nth i t []))).
  { unfold softmax.
    rewrite (nth_map_lt _ (div_scalar t T) i _ [])
      by (rewrite length_div_scalar, HNt; exact Hi).
    rewrite div_scalar_row by lia. reflexivity. }
  rewrite Hsi, Hti.
  pose proof (nth_row N C s i Hs Hi) as Hrs.
  pose proof (nth_row N C t i Ht Hi) as Hrt.
  set (rs := map (fun v => v / T) (nth i s [])).
  set (rt := map (fun v => v / T) (nth i t [])).
  assert (Hls : length rs = C) by (unfold rs; rewrite length_map; exact Hrs).
  assert (Hlt : length rt = C) by (unfold rt; rewrite length_map; exact Hrt).
  rewrite (Rsum_combine_sum_below _ (log_softmax_row rs) (softmax_row rt) 0 1 C)
    by (unfold log_softmax_row, softmax_row; rewrite length_map; assumption).
  apply sum_below_ext. intros j Hj. cbn [fst snd].
  rewrite log_softmax_row_nth by lia.
  rewrite !softmax_row_prob by lia. rewrite Hls, Hlt.
  assert (Hes : forall k, (k < C)%nat -> nth k rs 0 = entry s i k / T).
  { intros k Hk. unfold rs, entry.
    rewrite (nth_map_lt _ (nth i s []) k _ 0) by lia. reflexivity. }
  assert (Het : forall k, (k < C)%nat -> nth k rt 0 = entry t i k / T).
  { intros k Hk. unfold rt, entry.
    rewrite (nth_map_lt _ (nth i t []) k _ 0) by lia. reflexivity. }
  rewrite (prob_ext C _ _ j Hes Hj), (prob_ext C _ _ j Het Hj). reflexivity.
Qed.

(** The value of the loss on well-shaped operands. *)
Lemma knowledge_distillation_loss_value (N C : nat)
  (student_logits teacher_logits : Tensor2) (labels : list Z) (T alpha : R) :
  is_matrix N C student_logits ->
  is_matrix N C teacher_logits ->
  length labels = N ->
  labels_in_range C labels ->
  knowledge_distillation_loss student_logits teacher_logits labels T alpha
  = Ok (kd_loss_spec N C student_logits teacher_logits labels T alpha).
Proof.
  intros Hs Ht Hlen Hl. unfold knowledge_distillation_loss, kd_loss_spec.
  rewrite (CrossEntropyLoss_in_range N C) by assumption.
  rewrite KLDivLoss_batchmean_spec.
  rewrite (mean_nll_spec N C) by assumption.
  rewrite (mean_kl_spec N C) by assumption.
  f_equal. ring.
Qed.

(** C1.  For a batch of at least one row, student and teacher logits of one
    shape (N, C), N labels that index a class and a temperature other than 0,
    [knowledge_distillation_loss] returns [alpha] times the cross-entropy of
    the student logits against the labels plus [1 - alpha] times the KL
    divergence between the log-softmax of the student logits over [T] and the
    softmax of the teacher logits over [T], the KL term scaled by [T]
    squared. *)
Theorem knowledge_distillation_loss_correct
  (N C : nat) (student_logits teacher_logits : Tensor2) (labels : list Z)
  (T alpha : R) :
  (1 <= N)%nat ->
  T <> 0 ->
  is_matrix N C student_logits ->
  is_matrix N C teacher_logits ->
  length labels = N ->
  labels_in_range C labels ->
  knowledge_distillation_loss student_logits teacher_logits labels T alpha
  = Ok (kd_loss_spec N C student_logits teacher_logits labels T alpha).
Proof.
  intros _ _. apply knowledge_distillation_loss_value.
Qed.

Lemma knowledge_distillation_loss_correct_witness :
  knowledge_distillation_loss [[0; 1]; [1; 0]] [[1; 1]; [0; 2]] [1%Z; 0%Z] 2 (7 / 10)
  = Ok (kd_loss_spec 2 2 [[0; 1]; [1; 0]] [[1; 1]; [0; 2]] [1%Z; 0%Z] 2 (7 / 10)).
Proof.
  apply (knowledge_distillation_loss_correct 2 2).
  - lia.
  - lra.
  - split; [reflexivity|]. repeat constructor.
  - split; [reflexivity|]. repeat constructor.
  - reflexivity.
  - repeat constructor; lia.
Defined.

(** *** The outcomes of the loss *)

(** A label the default criterion accepts for its row: the ignored value
    -100, or a class index. *)
Definition label_ok (p : Row * Z) : Prop :=
  snd p = (-100)%Z \/ (0 <= snd p < Z.of_nat (length (fst p)))%Z.

Lemma nll_rows_outcome (rows : Tensor2) (labels : list Z) :
  match nll_rows default_ignore_index rows labels with
  | Ok _ => Forall label_ok (combine rows labels)
  | Raise e => e = IndexError /\ Exists (fun p => ~ label_ok p) (combine rows labels)
  | Diverge => False
  end.
Proof.
  revert labels. induction rows as [|row rows IH]; intros labels; simpl.
  - constructor.
  - destruct labels as [|y labels]; [constructor|].
    specialize (IH labels). unfold nll_row, default_ignore_index. simpl.
    destruct (Z.eqb_spec y (-100)) as [->|Hne].
    + destruct (nll_rows _ rows labels) as [l|e|]; simpl.
      * constructor; [left; reflexivity|exact IH].
      * destruct IH as [-> IH]. split; [reflexivity|]. right. exact IH.
      * exact IH.
    + destruct (Z.leb_spec 0 y); simpl.
      * destruct (Z.ltb_spec y (Z.of_nat (length row))); simpl.
        -- destruct (nll_rows _ rows labels) as [l|e|]; simpl.
           ++ constructor; [right; simpl; lia|exact IH].
           ++ destruct IH as [-> IH]. split; [reflexivity|]. right. exact IH.
           ++ exact IH.
        -- split; [reflexivity|]. left. unfold label_ok. simpl. lia.
      * split; [reflexivity|]. left. unfold label_ok. simpl. lia.
Qed.

Lemma label_ok_rows (C : nat) (rows : Tensor2) (labels : list Z) :
  Forall (fun r => length r = C) rows ->
  length rows = length labels ->
  (Forall label_ok (combine rows labels)
   -> Forall (fun y => y = (-100)%Z \/ (0 <= y < Z.of_nat C)%Z) labels)
  /\ (Exists (fun p => ~ label_ok p) (combine rows labels)
      -> Exists (fun y => y <> (-100)%Z /\ ~ (0 <= y < Z.of_nat C)%Z) labels).
Proof.
  intros Hrows. revert labels.
  induction Hrows as [|row rows Hrow Hrows IH]; intros [|y labels] Hlen;
    simpl in Hlen; try discriminate.
  - split; intros H; [constructor|inversion H].
  - injection Hlen as Hlen. destruct (IH labels Hlen) as [IH1 IH2].
    unfold label_ok in *. simpl. split; intros H.
    + inversion H as [|? ? Hy Hrest]; subst. simpl in Hy. constructor; auto.
    + inversion H as [? ? Hy|? ? Hrest]; subst.
      * left. simpl in Hy. split; [tauto|]. intros Hr. apply Hy. right. exact Hr.
      * right. auto.
Qed.

(** X3.  The outcomes of the loss on student and teacher logits of one
    shape [N x C]: it raises ValueError exactly when the number of labels is
    not [N], IndexError exactly when it is [N] and some label is neither -100
    nor a class index below [C], and returns a value otherwise. *)
Theorem knowledge_distillation_loss_outcome (N C : nat)
  (student_logits teacher_logits : Tensor2) (labels : list Z) (T alpha : R) :
  is_matrix N C student_logits ->
  is_matrix N C teacher_logits ->
  match knowledge_distillation_loss student_logits teacher_logits labels T alpha
  with
  | Ok _ =>
      length labels = N
      /\ Forall (fun y => y = (-100)%Z \/ (0 <= y < Z.of_nat C)%Z) labels
  | Raise e =>
      (e = ValueError /\ length labels <> N)
      \/ (e = IndexError /\ length labels = N
          /\ Exists (fun y => y <> (-100)%Z /\ ~ (0 <= y < Z.of_nat C)%Z) labels)
  | Diverge => False
  end.
Proof.
  intros [HN HC] _.
  unfold knowledge_distillation_loss, CrossEntropyLoss, CrossEntropyLoss_with.
  destruct (Nat.eqb_spec (length student_logits) (length labels)) as [Heq|Hne];
    simpl; [|left; split; [reflexivity|congruence]].
  pose proof (nll_rows_outcome student_logits labels) as H.
  destruct (label_ok_rows C student_logits labels HC Heq) as [Hok Hbad].
  destruct (nll_rows default_ignore_index student_logits labels) as [l|e|].
  - split; [congruence|auto].
  - destruct H as [-> H]. right. split; [reflexivity|]. split; [congruence|auto].
  - exact H.
Qed.

Lemma knowledge_distillation_loss_outcome_witness :
  match knowledge_distillation_loss [[0; 1]; [1; 0]] [[1; 1]; [0; 2]]
          [1%Z; 5%Z] 2 (7 / 10)
  with
  | Ok _ =>
      length [1%Z; 5%Z] = 2%nat
      /\ Forall (fun y => y = (-100)%Z \/ (0 <= y < Z.of_nat 2)%Z) [1%Z; 5%Z]
  | Raise e =>
      (e = ValueError /\ length [1%Z; 5%Z] <> 2%nat)
      \/ (e = IndexError /\ length [1%Z; 5%Z] = 2%nat
          /\ Exists (fun y => y <> (-100)%Z /\ ~ (0 <= y < Z.of_nat 2)%Z)
               [1%Z; 5%Z])
  | Diverge => False
  end.
Proof.
  apply (knowledge_distillation_loss_outcome 2 2).
  - split; [reflexivity|]. repeat constructor.
  - split; [reflexivity|]. repeat constructor.
Defined.

End Loss.

Lemma bind_Ok_inv {A B : Type} (m : Result A) (k : A -> Result B) (b : B) :
  (m ≫= k) = Ok b -> exists a, m = Ok a /\ k a = Ok b.
Proof. destruct m as [a| |]; simpl; intros H; try discriminate. eauto. Qed.

Lemma bind_no_raise {A B : Type} (e : exn) (m : Result A) (k : A -> Result B) :
  m <> Raise e -> (forall a, k a <> Raise e) -> (m ≫= k) <> Raise e.
Proof. destruct m as [a| |]; simpl; intros Hm Hk; [apply Hk|congruence|discriminate]. Qed.

Lemma bind_no_raise_Ok {A B : Type} (e : exn) (m : Result A) (k : A -> Result B) :
  m <> Raise e -> (forall a, m = Ok a -> k a <> Raise e) -> (m ≫= k) <> Raise e.
Proof.
  destruct m as [a| |]; simpl; intros Hm Hk;
    [apply Hk; reflexivity|congruence|discriminate].
Qed.

Lemma mapM_no_raise {A B : Type} (e : exn) (f : A -> Result B) (l : list A) :
  (forall a, f a <> Raise e) -> mapM f l <> Raise e.
Proof.
  intros Hf. induction l as [|a l IH]; simpl; [discriminate|].
  apply bind_no_raise; [apply Hf|]. intros b.
  apply bind_no_raise; [exact IH|]. discriminate.
Qed.

(** ** The tokenizer builder (train.py, lines 115-129) *)

Module TokenizerBuilder.

Section GetOrBuild.

(** [str.format] with one positional argument. *)
Variable format : string -> string -> string.

(** The vocabulary the tokenizers library counts out of the sentences for a
    given pre-tokenizer and trainer. *)
Variable word_level_vocab :
  option PreTokenizer -> WordLevelTrainer -> list string -> gmap string Z.

(** The operating system: whether a file can be created or replaced at a
    path (its parent directory exists and may be written). *)
Variable writable : FileSystem -> string -> bool.

(** The generator is consumed by the training call, so a missing language
    key surfaces there. *)
Definition get_all_sentences (ds : list RawItem) (lang : string)
  : Result (list string) :=
  mapM (fun item : RawItem =>
          match item !! lang with
          | Some sentence => Ok sentence
          | None => Raise KeyError
          end) ds.

(** [Tokenizer(WordLevel(unk_token=...))] *)
Definition new_word_level (unk : string) : Tokenizer :=
  {| unk_token := Some unk; pre_tokenizer := None;
     special_tokens := []; vocab := ∅ |}.

Definition set_pre_tokenizer (t : Tokenizer) (p : PreTokenizer) : Tokenizer :=
  {| unk_token := unk_token t; pre_tokenizer := Some p;
     special_tokens := special_tokens t; vocab := vocab t |}.

(** [tokenizer.train_from_iterator(sentences, trainer=trainer)]: the trainer's
    special tokens are registered and the vocabulary is rebuilt. *)
Definition train_from_iterator (t : Tokenizer) (sentences : list string)
  (trainer : WordLevelTrainer) : Tokenizer :=
  {| unk_token := unk_token t; pre_tokenizer := pre_tokenizer t;
     special_tokens := trainer_special_tokens trainer;
     vocab := word_level_vocab (pre_tokenizer t) trainer sentences |}.

(** [Tokenizer.from_file(path)]; the library reports every failure, a
    missing file as well as a file it cannot parse, as a plain [Exception]. *)
Definition from_file (fs : FileSystem) (path : string) : Result Tokenizer :=
  match fs !! path with
  | Some (TokenizerFile t) => Ok t
  | Some _ => Raise Exception
  | None => Raise Exception
  end.

(** [tokenizer.save(path)]; a path that cannot be written (no parent
    directory) is reported as a plain [Exception]. *)
Definition save (t : Tokenizer) (path : string) (fs : FileSystem)
  : Result FileSystem :=
  if writable fs path then Ok (<[path := TokenizerFile t]> fs)
  else Raise Exception.

Definition path_exists (fs : FileSystem) (path : string) : bool :=
  match fs !! path with Some _ => true | None => false end.

Definition get_or_build_tokenizer (config : Config) (ds : list RawItem)
  (lang : string) (fs : FileSystem) : Result (Tokenizer * FileSystem) :=
  let tokenizer_path := format (tokenizer_file config) lang in
  if negb (path_exists fs tokenizer_path) then
    let tokenizer := new_word_level "[UNK]" in
    let tokenizer := set_pre_tokenizer tokenizer Whitespace in
    let trainer :=
      {| trainer_special_tokens := ["[UNK]"; "[PAD]"; "[SOS]"; "[EOS]"];
         min_frequency := 2 |} in
    sentences ← get_all_sentences ds lang;
    let tokenizer := train_from_iterator tokenizer sentences trainer in
    fs ← save tokenizer tokenizer_path fs;
    Ok (tokenizer, fs)
  else
    tokenizer ← from_file fs tokenizer_path;
    Ok (tokenizer, fs).

Lemma get_all_sentences_Ok (ds : list RawItem) (lang : string)
  (sentences : list string) :
  map (fun item : RawItem => item !! lang) ds = map Some sentences ->
  get_all_sentences ds lang = Ok sentences.
Proof.
  unfold get_all_sentences. revert sentences.
  induction ds as [|item ds IH]; intros [|s sentences] H; simpl in H;
    try discriminate; [reflexivity|].
  injection H as Hs H. simpl. rewrite Hs. simpl. rewrite (IH _ H). reflexivity.
Qed.

Lemma get_all_sentences_KeyError (ds : list RawItem) (lang : string) :
  Exists (fun item : RawItem => item !! lang = None) ds ->
  get_all_sentences ds lang = Raise KeyError.
Proof.
  unfold get_all_sentences. induction 1 as [item ds Hitem|item ds _ IH]; simpl.
  - rewrite Hitem. reflexivity.
  - destruct (item !! lang); [|reflexivity]. simpl. rewrite IH. reflexivity.
Qed.

(** C8.  When the tokenizer file exists the tokenizer is read from it and
    nothing is written.  Otherwise a word-level tokenizer whose unknown token
    is [UNK], with whitespace pre-tokenization and the special tokens [UNK],
    [PAD], [SOS], [EOS], gets the vocabulary that the library counts, with
    minimum frequency 2, out of the sentences of the corpus in the given
    language; it is written to the tokenizer file and returned, or the call
    ends in the library's exception when the file cannot be written.  A
    corpus entry without the language ends the call in KeyError. *)
Theorem get_or_build_tokenizer_spec (config : Config) (ds : list RawItem)
  (lang : string) (fs : FileSystem) :
  let path := format (tokenizer_file config) lang in
  (forall t, fs !! path = Some (TokenizerFile t) ->
     get_or_build_tokenizer config ds lang fs = Ok (t, fs))
  /\ (forall sentences,
        fs !! path = None ->
        map (fun item : RawItem => item !! lang) ds = map Some sentences ->
        let t :=
          {| unk_token := Some "[UNK]"%string;
             pre_tokenizer := Some Whitespace;
             special_tokens := ["[UNK]"; "[PAD]"; "[SOS]"; "[EOS]"]%string;
             vocab :=
               word_level_vocab (Some Whitespace)
                 {| trainer_special_tokens :=
                      ["[UNK]"; "[PAD]"; "[SOS]"; "[EOS]"]%string;
                    min_frequency := 2 |}
                 sentences |} in
        get_or_build_tokenizer config ds lang fs
        = if writable fs path then Ok (t, <[path := TokenizerFile t]> fs)
          else Raise Exception)
  /\ (fs !! path = None ->
      Exists (fun item : RawItem => item !! lang = None) ds ->
      get_or_build_tokenizer config ds lang fs = Raise KeyError).
Proof.
  intros path. split; [|split].
  - intros t Ht. unfold get_or_build_tokenizer, path_exists, from_file.
    fold path. rewrite Ht. reflexivity.
  - intros sentences Hnone Hds t.
    unfold get_or_build_tokenizer, path_exists. fold path.
    rewrite Hnone, (get_all_sentences_Ok _ _ _ Hds). simpl.
    unfold save. destruct (writable fs path); reflexivity.
  - intros Hnone Hds. unfold get_or_build_tokenizer, path_exists. fold path.
    rewrite Hnone, (get_all_sentences_KeyError _ _ Hds). reflexivity.
Qed.

(** *** Further properties of the builder *)

(** X6.  [get_all_sentences] yields the sentence of each corpus entry in the
    given language, in corpus order, and ends in KeyError exactly when some
    entry has no sentence in that language. *)
Theorem get_all_sentences_outcome (ds : list RawItem) (lang : string) :
  match get_all_sentences ds lang with
  | Ok sentences =>
      map (fun item : RawItem => item !! lang) ds = map Some sentences
  | Raise e =>
      e = KeyError /\ Exists (fun item : RawItem => item !! lang = None) ds
  | Diverge => False
  end.
Proof.
  unfold get_all_sentences. induction ds as [|item ds IH]; simpl; [reflexivity|].
  destruct (item !! lang) as [sentence|] eqn:Hitem; simpl.
  - destruct (mapM _ ds) as [sentences|e|]; simpl.
    + rewrite IH. reflexivity.
    + destruct IH as [-> IH]. split; [reflexivity|]. right. exact IH.
    + exact IH.
  - split; [reflexivity|]. left. exact Hitem.
Qed.

Lemma get_or_build_tokenizer_inv (config : Config) (ds : list RawItem)
  (lang : string) (fs fs' : FileSystem) (t : Tokenizer) :
  get_or_build_tokenizer config ds lang fs = Ok (t, fs') ->
  let path := format (tokenizer_file config) lang in
  (fs !! path = Some (TokenizerFile t) /\ fs' = fs)
  \/ (fs !! path = None /\ fs' = <[path := TokenizerFile t]> fs).
Proof.
  intros H path.
  unfold get_or_build_tokenizer, path_exists, from_file, save in H.
  fold path in H. destruct (fs !! path) as [f|] eqn:Hf; simpl in H.
  - left. destruct f; simpl in H; try discriminate.
    injection H as <- <-. auto.
  - right. destruct (get_all_sentences ds lang); simpl in H; try discriminate.
    destruct (writable fs path); simpl in H; try discriminate.
    injection H as <- <-. auto.
Qed.

(** X7.  Once a call has returned a tokenizer, the tokenizer is cached in
    its file: any later call for the same language, on any corpus, returns
    that same tokenizer and leaves the files as they are. *)
Theorem get_or_build_tokenizer_cached (config : Config) (ds ds' : list RawItem)
  (lang : string) (fs fs' : FileSystem) (t : Tokenizer) :
  get_or_build_tokenizer config ds lang fs = Ok (t, fs') ->
  get_or_build_tokenizer config ds' lang fs' = Ok (t, fs').
Proof.
  intros H. apply get_or_build_tokenizer_inv in H.
  assert (Hfile : fs' !! format (tokenizer_file config) lang
                  = Some (TokenizerFile t)).
  { destruct H as [[Hf ->]|[_ ->]]; [exact Hf|apply lookup_insert_eq]. }
  unfold get_or_build_tokenizer, path_exists, from_file.
  rewrite Hfile. reflexivity.
Qed.

(** X8.  A successful call leaves every file other than the tokenizer file
    as it was, the tokenizer file then holds the returned tokenizer, and a
    file that was already at that path is not written over. *)
Theorem get_or_build_tokenizer_writes_one_file (config : Config)
  (ds : list RawItem) (lang : string) (fs fs' : FileSystem) (t : Tokenizer) :
  get_or_build_tokenizer config ds lang fs = Ok (t, fs') ->
  let path := format (tokenizer_file config) lang in
  fs' !! path = Some (TokenizerFile t)
  /\ (forall p, p <> path -> fs' !! p = fs !! p)
  /\ (is_Some (fs !! path) -> fs' = fs).
Proof.
  intros H path. apply get_or_build_tokenizer_inv in H. fold path in H.
  destruct H as [[Hf ->]|[Hnone ->]].
  - auto.
  - split; [apply lookup_insert_eq|]. split.
    + intros p Hp. apply lookup_insert_ne. congruence.
    + rewrite Hnone. intros [f Hf]. discriminate.
Qed.

End GetOrBuild.

End TokenizerBuilder.

(** ** Greedy decoding (train.py, lines 33-54) *)

Module Decode.

(** Integer tensors of shape (batch, length) and hidden vectors. *)
Definition Tokens := list (list Z).
Definition Hidden := list R.

(** [torch.max(prob, dim=1)] on one row: the index of the first maximal
    entry; an empty row has no maximum. *)
Fixpoint argmax_from (best_i : nat) (best : R) (i : nat) (l : list R) : nat :=
  match l with
  | [] => best_i
  | x :: l' =>
      if Rlt_dec best x then argmax_from i x (S i) l'
      else argmax_from best_i best (S i) l'
  end.

Definition argmax (l : list R) : option nat :=
  match l with
  | [] => None
  | x :: l' => Some (argmax_from 0 x 1 l')
  end.

Definition torch_max_dim1 (prob : list (list R)) : Result (list Z) :=
  mapM (fun row => match argmax row with
                   | Some i => Ok (Z.of_nat i)
                   | None => Raise IndexError
                   end) prob.

(** [out[:, -1]] *)
Definition select_last {A : Type} (out : list (list A)) : Result (list A) :=
  mapM (fun positions => match last positions with
                         | Some h => Ok h
                         | None => Raise IndexError
                         end) out.

(** [tensor.item()] *)
Definition item (t : list Z) : Result Z :=
  match t with
  | [x] => Ok x
  | _ => Raise RuntimeError
  end.

(** [next_word == eos_idx], where [token_to_id] may have returned [None]. *)
Definition eq_idx (next_word : Z) (idx : option Z) : bool :=
  match idx with
  | Some e => (next_word =? e)%Z
  | None => false
  end.

(** The three methods of the transformer that the loop calls (model.py), for
    the weights and mode the model has at the call; [project] acts on the
    last dimension. *)
Record Transformer (Mask EncOut : Type) : Type := mkTransformer {
  encode : Tokens -> Mask -> EncOut;
  decode : EncOut -> Mask -> Tokens -> Mask -> list (list Hidden);
  project : Hidden -> list R }.

Arguments mkTransformer {Mask EncOut} encode decode project.
Arguments encode {Mask EncOut} t _ _.
Arguments decode {Mask EncOut} t _ _ _ _.
Arguments project {Mask EncOut} t _.

Section GreedyDecode.

Context {Mask EncOut : Type}.

(** [causal_mask] of dataset.py *)
Variable causal_mask : nat -> Mask.

(** Lines 43-46 and the [.item()] of line 48: the next token for the
    decoder input built so far. *)
Definition next_word (model : Transformer Mask EncOut) (encoder_output : EncOut)
  (source_mask : Mask) (decoder_input : list Z) : Result Z :=
  let decoder_mask := causal_mask (length decoder_input) in
  let out := decode model encoder_output source_mask [decoder_input] decoder_mask in
  last_out ← select_last out;
  let prob := map (project model) last_out in
  next ← torch_max_dim1 prob;
  item next.

(** The [while True] loop; [decoder_input] is the single row of the
    (1, length) tensor. *)
Fixpoint greedy_loop (model : Transformer Mask EncOut) (encoder_output : EncOut)
  (source_mask : Mask) (eos_idx : option Z) (max_len : Z)
  (fuel : nat) (decoder_input : list Z) : Result (list Z) :=
  match fuel with
  | O => Diverge
  | S fuel' =>
      if (Z.of_nat (length decoder_input) =? max_len)%Z then Ok decoder_input
      else
        w ← next_word model encoder_output source_mask decoder_input;
        let decoder_input := decoder_input ++ [w] in
        if eq_idx w eos_idx then Ok decoder_input
        else greedy_loop model encoder_output source_mask eos_idx max_len
               fuel' decoder_input
  end.

Definition greedy_decode (fuel : nat) (model : Transformer Mask EncOut) (source : Tokens)
  (source_mask : Mask) (tokenizer_src tokenizer_tgt : Tokenizer) (max_len : Z)
  : Result (list Z) :=
  let sos_idx := token_to_id tokenizer_tgt "[SOS]" in
  let eos_idx := token_to_id tokenizer_tgt "[EOS]" in
  let encoder_output := encode model source source_mask in
  match sos_idx with
  | None => Raise TypeError
  | Some sos =>
      greedy_loop model encoder_output source_mask eos_idx max_len fuel [sos]
  end.

(** [w] indexes the first maximal entry of [scores]. *)
Definition is_argmax (scores : list R) (w : Z) : Prop :=
  (0 <= w < Z.of_nat (length scores))%Z
  /\ (forall j, (j < length scores)%nat ->
        (nth j scores 0 <= nth (Z.to_nat w) scores 0)%R)
  /\ (forall j, (j < Z.to_nat w)%nat ->
        (nth j scores 0 < nth (Z.to_nat w) scores 0)%R).

(** The model, run on the prefix, puts its maximal projected score over the
    last decoder position at token [w]. *)
Definition emits (model : Transformer Mask EncOut) (encoder_output : EncOut)
  (source_mask : Mask) (prefix : list Z) (w : Z) : Prop :=
  exists positions h,
    decode model encoder_output source_mask [prefix]
      (causal_mask (length prefix)) = [positions]
    /\ last positions = Some h
    /\ is_argmax (project model h) w.

(** *** Facts on the tensor helpers *)

Lemma argmax_from_spec (l pre : list R) (best_i : nat) (best : R) :
  (best_i < length pre)%nat ->
  nth best_i (pre ++ l) 0%R = best ->
  (forall j, (j < length pre)%nat -> (nth j (pre ++ l) 0 <= best)%R) ->
  (forall j, (j < best_i)%nat -> (nth j (pre ++ l) 0 < best)%R) ->
  let r := argmax_from best_i best (length pre) l in
  (r < length (pre ++ l))%nat
  /\ (forall j, (j < length (pre ++ l))%nat ->
        (nth j (pre ++ l) 0 <= nth r (pre ++ l) 0)%R)
  /\ (forall j, (j < r)%nat -> (nth j (pre ++ l) 0 < nth r (pre ++ l) 0)%R).
Proof.
  revert pre best_i best.
  induction l as [|x l IH]; intros pre best_i best Hbi Hbest Hle Hlt; simpl.
  - rewrite app_nil_r in *. rewrite Hbest. repeat split; auto.
  - assert (Hx : nth (length pre) (pre ++ x :: l) 0%R = x).
    { rewrite app_nth2 by lia. rewrite Nat.sub_diag. reflexivity. }
    assert (Hsplit : pre ++ x :: l = (pre ++ [x]) ++ l)
      by (rewrite <- app_assoc; reflexivity).
    assert (Hlen : length (pre ++ [x]) = S (length pre))
      by (rewrite length_app; simpl; lia).
    destruct (Rlt_dec best x) as [Hlt_x|Hge_x].
    + rewrite Hsplit, <- Hlen.
      apply IH.
      * lia.
      * rewrite <- Hsplit. exact Hx.
      * intros j Hj. rewrite <- Hsplit.
        destruct (decide (j = length pre)) as [->|Hne].
        -- rewrite Hx. lra.
        -- specialize (Hle j ltac:(lia)). lra.
      * intros j Hj. rewrite <- Hsplit.
        specialize (Hle j ltac:(lia)). lra.
    + rewrite Hsplit, <- Hlen.
      apply IH.
      * lia.
      * rewrite <- Hsplit. exact Hbest.
      * intros j Hj. rewrite <- Hsplit.
        destruct (decide (j = length pre)) as [->|Hne].
        -- rewrite Hx. lra.
        -- apply Hle. lia.
      * intros j Hj. rewrite <- Hsplit. apply Hlt. exact Hj.
Qed.

Lemma argmax_is_argmax (scores : list R) (i : nat) :
  argmax scores = Some i -> is_argmax scores (Z.of_nat i).
Proof.
  destruct scores as [|x l]; [discriminate|].
  intros [= <-]. unfold is_argmax. rewrite Nat2Z.id.
  pose proof (argmax_from_spec l [x] 0 x) as H. simpl in H.
  destruct H as (Hr & Hmax & Hfirst); auto.
  - intros j Hj. assert (j = 0)%nat as -> by lia. simpl. lra.
  - intros j Hj. lia.
  - simpl. split; [lia|]. split; assumption.
Qed.

Lemma mapM_singleton_inv {A B : Type} (f : A -> Result B) (l : list A) (b : B) :
  mapM f l = Ok [b] -> exists a, l = [a] /\ f a = Ok b.
Proof.
  destruct l as [|a [|a' l]]; simpl.
  - discriminate.
  - destruct (f a) as [b'| |] eqn:Hf; simpl; try discriminate.
    intros [= ->]. eauto.
  - destruct (f a) as [b'| |]; simpl; try discriminate.
    destruct (f a') as [b''| |]; simpl; try discriminate.
    destruct (mapM f l) as [bs| |]; simpl; discriminate.
Qed.

Lemma item_Ok_inv (t : list Z) (w : Z) : item t = Ok w -> t = [w].
Proof. destruct t as [|x [|y t]]; simpl; congruence. Qed.

(** What one step emits is the argmax over the last decoder position. *)
Lemma next_word_emits (model : Transformer Mask EncOut) (encoder_output : EncOut)
  (source_mask : Mask) (prefix : list Z) (w : Z) :
  next_word model encoder_output source_mask prefix = Ok w ->
  emits model encoder_output source_mask prefix w.
Proof.
  unfold next_word, emits. intros H.
  apply bind_Ok_inv in H as (last_out & Hlast & H).
  apply bind_Ok_inv in H as (next & Hmax & Hitem).
  apply item_Ok_inv in Hitem as ->.
  unfold torch_max_dim1 in Hmax.
  apply mapM_singleton_inv in Hmax as (scores & Hscores & Harg).
  destruct last_out as [|h [|h' hs]]; simpl in Hscores; try discriminate.
  injection Hscores as <-.
  unfold select_last in Hlast.
  apply mapM_singleton_inv in Hlast as (positions & Hout & Hpos).
  exists positions, h. split; [exact Hout|].
  destruct (last positions) as [h0|] eqn:Hl; [|discriminate].
  injection Hpos as ->. split; [reflexivity|].
  destruct (argmax (project model h)) as [i|] eqn:Hi; [|discriminate].
  injection Harg as <-. apply argmax_is_argmax. exact Hi.
Qed.

(** *** The loop *)

Lemma greedy_loop_fuel_mono (model : Transformer Mask EncOut) (encoder_output : EncOut)
  (source_mask : Mask) (eos_idx : option Z) (max_len : Z)
  (fuel fuel' : nat) (decoder_input out : list Z) :
  (fuel <= fuel')%nat ->
  greedy_loop model encoder_output source_mask eos_idx max_len fuel decoder_input
  = Ok out ->
  greedy_loop model encoder_output source_mask eos_idx max_len fuel' decoder_input
  = Ok out.
Proof.
  revert fuel' decoder_input.
  induction fuel as [|fuel IH]; intros fuel' dec Hle H; [discriminate|].
  destruct fuel' as [|fuel']; [lia|]. simpl in *.
  destruct (Z.of_nat (length dec) =? max_len)%Z; [exact H|].
  destruct (next_word model encoder_output source_mask dec) as [w| |];
    simpl in *; try discriminate.
  destruct (eq_idx w eos_idx); [exact H|].
  apply IH; [lia|exact H].
Qed.

Lemma greedy_loop_spec (model : Transformer Mask EncOut) (encoder_output : EncOut)
  (source_mask : Mask) (eos_idx : option Z) (max_len : Z) :
  (forall prefix, prefix <> [] ->
     exists w, next_word model encoder_output source_mask prefix = Ok w) ->
  forall (fuel : nat) (dec : list Z),
  dec <> [] ->
  (Z.of_nat (length dec) <= max_len)%Z ->
  (Z.to_nat max_len - length dec < fuel)%nat ->
  exists suffix,
    greedy_loop model encoder_output source_mask eos_idx max_len fuel dec
    = Ok (dec ++ suffix)
    /\ (Z.of_nat (length (dec ++ suffix)) <= max_len)%Z
    /\ (forall k w, suffix !! k = Some w ->
          next_word model encoder_output source_mask (dec ++ take k suffix)
          = Ok w)
    /\ (forall k w, (S k < length suffix)%nat -> suffix !! k = Some w ->
          eq_idx w eos_idx = false)
    /\ ((Z.of_nat (length (dec ++ suffix)) < max_len)%Z ->
        exists w, last suffix = Some w /\ eq_idx w eos_idx = true).
Proof.
  intros Hstep. induction fuel as [|fuel IH]; intros dec Hne Hlen Hfuel; [lia|].
  simpl. destruct (Z.eqb_spec (Z.of_nat (length dec)) max_len) as [Heq|Hneq].
  - exists []. rewrite app_nil_r. repeat split; try lia.
    + intros k w Hk. destruct k; discriminate.
    + intros k w Hk. simpl in Hk. lia.
  - destruct (Hstep dec Hne) as [w Hw]. rewrite Hw. simpl.
    destruct (eq_idx w eos_idx) eqn:Heos.
    + exists [w]. repeat split.
      * rewrite length_app. simpl. lia.
      * intros k w' Hk. destruct k as [|k]; [|destruct k; discriminate].
        injection Hk as <-. simpl. rewrite app_nil_r. exact Hw.
      * intros k w' Hk. simpl in Hk. lia.
      * intros _. exists w. split; [reflexivity|exact Heos].
    + destruct (IH (dec ++ [w])) as (suffix & Hrun & Hbound & Hnext & Hno & Hstop).
      * destruct dec; discriminate.
      * rewrite length_app. simpl. lia.
      * rewrite length_app. simpl. lia.
      * exists (w :: suffix).
        replace (dec ++ w :: suffix) with ((dec ++ [w]) ++ suffix)
          by (rewrite <- app_assoc; reflexivity).
        split; [exact Hrun|]. split; [exact Hbound|]. split; [|split].
        -- intros k w' Hk. destruct k as [|k].
           ++ injection Hk as <-. simpl. rewrite app_nil_r. exact Hw.
           ++ simpl in Hk. simpl.
              replace (dec ++ w :: take k suffix)
                with ((dec ++ [w]) ++ take k suffix)
                by (rewrite <- app_assoc; reflexivity).
              apply Hnext. exact Hk.
        -- intros k w' Hk Hlook. destruct k as [|k].
           ++ injection Hlook as <-. exact Heos.
           ++ simpl in Hk, Hlook. apply (Hno k); [lia|exact Hlook].
        -- intros Hlt. destruct (Hstop Hlt) as (w' & Hlast & Heos').
           exists w'. split; [|exact Heos'].
           destruct suffix as [|x suffix]; [discriminate|].
           rewrite last_cons, Hlast. reflexivity.
Qed.

Lemma eq_idx_true (w : Z) (idx : option Z) :
  eq_idx w idx = true <-> idx = Some w.
Proof.
  destruct idx as [e|]; simpl; [|split; discriminate].
  rewrite Z.eqb_eq. split; [intros ->; reflexivity|intros [= ->]; reflexivity].
Qed.

Lemma eq_idx_false (w : Z) (idx : option Z) :
  eq_idx w idx = false <-> idx <> Some w.
Proof.
  rewrite <- eq_idx_true. destruct (eq_idx w idx); split; congruence.
Qed.

(** The decoder inputs that the loop can hold: the SOS id, then tokens each
    of which is the one the model emits for the tokens before it, none of
    them being the EOS id. *)
Definition greedy_prefix (model : Transformer Mask EncOut)
  (encoder_output : EncOut) (source_mask : Mask) (sos : Z) (eos_idx : option Z)
  (prefix : list Z) : Prop :=
  exists rest,
    prefix = sos :: rest
    /\ forall k w, rest !! k = Some w ->
         emits model encoder_output source_mask (sos :: take k rest) w
         /\ eos_idx <> Some w.

Lemma greedy_prefix_snoc (model : Transformer Mask EncOut)
  (encoder_output : EncOut) (source_mask : Mask) (sos : Z) (eos_idx : option Z)
  (prefix : list Z) (w : Z) :
  greedy_prefix model encoder_output source_mask sos eos_idx prefix ->
  emits model encoder_output source_mask prefix w ->
  eos_idx <> Some w ->
  greedy_prefix model encoder_output source_mask sos eos_idx (prefix ++ [w]).
Proof.
  intros (rest & -> & Hrest) Hw Heos. exists (rest ++ [w]).
  split; [reflexivity|]. intros k w' Hk.
  destruct (decide (k < length rest)%nat) as [Hlt|Hge].
  - rewrite lookup_app_l in Hk by exact Hlt.
    rewrite take_app_le by lia. apply Hrest, Hk.
  - assert (k = length rest) as ->.
    { apply lookup_lt_Some in Hk. rewrite length_app in Hk. simpl in Hk. lia. }
    rewrite list_lookup_middle in Hk by reflexivity. injection Hk as <-.
    rewrite take_app_le, firstn_all by lia. auto.
Qed.

Lemma greedy_loop_run (model : Transformer Mask EncOut) (encoder_output : EncOut)
  (source_mask : Mask) (sos : Z) (eos_idx : option Z) (max_len : Z) :
  (forall prefix,
     greedy_prefix model encoder_output source_mask sos eos_idx prefix ->
     (Z.of_nat (length prefix) < max_len)%Z ->
     exists w, next_word model encoder_output source_mask prefix = Ok w) ->
  forall (fuel : nat) (dec : list Z),
  greedy_prefix model encoder_output source_mask sos eos_idx dec ->
  (Z.of_nat (length dec) <= max_len)%Z ->
  (Z.to_nat max_len - length dec < fuel)%nat ->
  exists suffix,
    greedy_loop model encoder_output source_mask eos_idx max_len fuel dec
    = Ok (dec ++ suffix)
    /\ (Z.of_nat (length (dec ++ suffix)) <= max_len)%Z
    /\ (forall k w, suffix !! k = Some w ->
          emits model encoder_output source_mask (dec ++ take k suffix) w)
    /\ (forall k w, (S k < length suffix)%nat -> suffix !! k = Some w ->
          eos_idx <> Some w)
    /\ ((Z.of_nat (length (dec ++ suffix)) < max_len)%Z ->
        exists w, last suffix = Some w /\ eos_idx = Some w).
Proof.
  intros Hstep. induction fuel as [|fuel IH]; intros dec Hpre Hlen Hfuel; [lia|].
  simpl. destruct (Z.eqb_spec (Z.of_nat (length dec)) max_len) as [Heq|Hneq].
  - exists []. rewrite app_nil_r. repeat split; try lia.
    + intros k w Hk. destruct k; discriminate.
    + intros k w Hk. simpl in Hk. lia.
  - destruct (Hstep dec Hpre ltac:(lia)) as [w Hw]. rewrite Hw. simpl.
    pose proof (next_word_emits _ _ _ _ _ Hw) as Hemit.
    destruct (eq_idx w eos_idx) eqn:Heos.
    + apply eq_idx_true in Heos. exists [w]. repeat split.
      * rewrite length_app. simpl. lia.
      * intros k w' Hk. destruct k as [|k]; [|destruct k; discriminate].
        injection Hk as <-. simpl. rewrite app_nil_r. exact Hemit.
      * intros k w' Hk. simpl in Hk. lia.
      * intros _. exists w. split; [reflexivity|exact Heos].
    + apply eq_idx_false in Heos.
      destruct (IH (dec ++ [w])) as (suffix & Hrun & Hbound & Hnext & Hno & Hstop).
      * apply greedy_prefix_snoc; assumption.
      * rewrite length_app. simpl. lia.
      * rewrite length_app. simpl. lia.
      * exists (w :: suffix).
        replace (dec ++ w :: suffix) with ((dec ++ [w]) ++ suffix)
          by (rewrite <- app_assoc; reflexivity).
        split; [exact Hrun|]. split; [exact Hbound|]. split; [|split].
        -- intros k w' Hk. destruct k as [|k].
           ++ injection Hk as <-. simpl. rewrite app_nil_r. exact Hemit.
           ++ simpl in Hk. simpl.
              replace (dec ++ w :: take k suffix)
                with ((dec ++ [w]) ++ take k suffix)
                by (rewrite <- app_assoc; reflexivity).
              apply Hnext. exact Hk.
        -- intros k w' Hk Hlook. destruct k as [|k].
           ++ injection Hlook as <-. exact Heos.
           ++ simpl in Hk, Hlook. apply (Hno k); [lia|exact Hlook].
        -- intros Hlt. destruct (Hstop Hlt) as (w' & Hlast & Heos').
           exists w'. split; [|exact Heos'].
           destruct suffix as [|x suffix]; [discriminate|].
           rewrite last_cons, Hlast. reflexivity.
Qed.

(** C3.  For [max_len >= 1], a target tokenizer that knows [SOS] and a model
    whose decoding step goes through on the decoder inputs that the loop
    builds while they are shorter than [max_len], [greedy_decode] returns
    (with any fuel from [max_len] on) a sequence that starts with the SOS id,
    is no longer than [max_len], carries at each later position the argmax
    token of the projection of the last decoder position for the tokens
    before it, holds the EOS id nowhere between its first and its last token,
    and ends with the EOS id whenever it is shorter than [max_len]. *)
Theorem greedy_decode_spec (model : Transformer Mask EncOut) (source : Tokens)
  (source_mask : Mask) (tokenizer_src tokenizer_tgt : Tokenizer)
  (max_len sos : Z) :
  let encoder_output := encode model source source_mask in
  let eos_idx := token_to_id tokenizer_tgt "[EOS]" in
  (1 <= max_len)%Z ->
  token_to_id tokenizer_tgt "[SOS]" = Some sos ->
  (forall prefix,
     greedy_prefix model encoder_output source_mask sos eos_idx prefix ->
     (Z.of_nat (length prefix) < max_len)%Z ->
     exists w, next_word model encoder_output source_mask prefix = Ok w) ->
  exists out rest,
    (forall fuel, (Z.to_nat max_len <= fuel)%nat ->
       greedy_decode fuel model source source_mask tokenizer_src tokenizer_tgt
         max_len = Ok out)
    /\ out = sos :: rest
    /\ (Z.of_nat (length out) <= max_len)%Z
    /\ (forall k w, out !! S k = Some w ->
          emits model encoder_output source_mask (take (S k) out) w)
    /\ (forall k w, (S (S k) < length out)%nat -> out !! S k = Some w ->
          eos_idx <> Some w)
    /\ ((Z.of_nat (length out) < max_len)%Z ->
        exists w, last rest = Some w /\ eos_idx = Some w).
Proof.
  intros encoder_output eos_idx Hmax Hsos Hstep.
  destruct (greedy_loop_run model encoder_output source_mask sos eos_idx max_len
              Hstep (Z.to_nat max_len) [sos])
    as (suffix & Hrun & Hbound & Hnext & Hno & Hstop).
  { exists []. split; [reflexivity|]. intros k w Hk. destruct k; discriminate. }
  { simpl. lia. }
  { simpl. lia. }
  exists ([sos] ++ suffix), suffix. split; [|split; [reflexivity|]].
  - intros fuel Hfuel. unfold greedy_decode. rewrite Hsos.
    eapply greedy_loop_fuel_mono; [exact Hfuel|exact Hrun].
  - split; [exact Hbound|]. split; [|split].
    + intros k w Hk. simpl in Hk. apply (Hnext k w Hk).
    + intros k w Hlen Hk. simpl in Hlen, Hk. apply (Hno k); [lia|exact Hk].
    + exact Hstop.
Qed.

(** With [max_len <= 0] the length test of line 40 never holds: a model that
    never emits EOS keeps the loop running, whatever the fuel. *)
Lemma greedy_loop_runs_on (model : Transformer Mask EncOut) (encoder_output : EncOut)
  (source_mask : Mask) (eos_idx : option Z) (max_len : Z) :
  (max_len <= 0)%Z ->
  (forall prefix, exists w,
      next_word model encoder_output source_mask prefix = Ok w
      /\ eq_idx w eos_idx = false) ->
  forall fuel dec, dec <> [] ->
    greedy_loop model encoder_output source_mask eos_idx max_len fuel dec
    = Diverge.
Proof.
  intros Hmax Hstep. induction fuel as [|fuel IH]; intros dec Hne; [reflexivity|].
  simpl. destruct (Z.eqb_spec (Z.of_nat (length dec)) max_len) as [Heq|_].
  - destruct dec; [congruence|simpl in Heq; lia].
  - destruct (Hstep dec) as (w & -> & Heos). simpl. rewrite Heos.
    apply IH. destruct dec; discriminate.
Qed.

(** *** Further properties of the loop *)

Lemma greedy_loop_keeps_running (model : Transformer Mask EncOut)
  (encoder_output : EncOut) (source_mask : Mask) (eos_idx : option Z)
  (max_len : Z) :
  (max_len <= 0)%Z ->
  (forall prefix, prefix <> [] -> exists w,
      next_word model encoder_output source_mask prefix = Ok w
      /\ eq_idx w eos_idx = false) ->
  forall fuel dec, dec <> [] ->
    greedy_loop model encoder_output source_mask eos_idx max_len fuel dec
    = Diverge.
Proof.
  intros Hmax Hstep. induction fuel as [|fuel IH]; intros dec Hne; [reflexivity|].
  simpl. destruct (Z.eqb_spec (Z.of_nat (length dec)) max_len) as [Heq|_].
  - destruct dec; [congruence|simpl in Heq; lia].
  - destruct (Hstep dec Hne) as (w & -> & Heos). simpl. rewrite Heos.
    apply IH. destruct dec; discriminate.
Qed.

(** X4.  With [max_len <= 0] the length test of line 40 can never hold, so
    with a model that never emits EOS the loop does not end: whatever the
    fuel, it is used up. *)
Theorem greedy_decode_never_returns (model : Transformer Mask EncOut)
  (source : Tokens) (source_mask : Mask) (tokenizer_src tokenizer_tgt : Tokenizer)
  (max_len sos : Z) :
  (max_len <= 0)%Z ->
  token_to_id tokenizer_tgt "[SOS]" = Some sos ->
  (forall prefix, prefix <> [] -> exists w,
      next_word model (encode model source source_mask) source_mask prefix
      = Ok w
      /\ eq_idx w (token_to_id tokenizer_tgt "[EOS]") = false) ->
  forall fuel,
    greedy_decode fuel model source source_mask tokenizer_src tokenizer_tgt
      max_len = Diverge.
Proof.
  intros Hmax Hsos Hstep fuel. unfold greedy_decode. rewrite Hsos.
  apply greedy_loop_keeps_running; [exact Hmax|exact Hstep|discriminate].
Qed.

(** X5.  With [max_len >= 1] and a model that never emits EOS (as when the
    target tokenizer has no [EOS] token, the comparison with [None] being
    false), the decoded sequence has exactly [max_len] tokens. *)
Theorem greedy_decode_full_length_without_eos (model : Transformer Mask EncOut)
  (source : Tokens) (source_mask : Mask) (tokenizer_src tokenizer_tgt : Tokenizer)
  (max_len sos : Z) :
  (1 <= max_len)%Z ->
  token_to_id tokenizer_tgt "[SOS]" = Some sos ->
  (forall prefix, prefix <> [] -> exists w,
      next_word model (encode model source source_mask) source_mask prefix
      = Ok w
      /\ eq_idx w (token_to_id tokenizer_tgt "[EOS]") = false) ->
  exists out,
    (forall fuel, (Z.to_nat max_len <= fuel)%nat ->
       greedy_decode fuel model source source_mask tokenizer_src tokenizer_tgt
         max_len = Ok out)
    /\ Z.of_nat (length out) = max_len.
Proof.
  intros Hmax Hsos Hstep.
  destruct (greedy_loop_spec model (encode model source source_mask) source_mask
              (token_to_id tokenizer_tgt "[EOS]") max_len
              (fun prefix Hne => let (w, Hw) := Hstep prefix Hne in
                                 ex_intro _ w (proj1 Hw))
              (Z.to_nat max_len) [sos])
    as (suffix & Hrun & Hbound & Hnext & _ & Hstop).
  { discriminate. }
  { simpl. lia. }
  { simpl. lia. }
  exists ([sos] ++ suffix). split.
  - intros fuel Hfuel. unfold greedy_decode. rewrite Hsos.
    eapply greedy_loop_fuel_mono; [exact Hfuel|exact Hrun].
  - destruct (Z.eq_dec (Z.of_nat (length ([sos] ++ suffix))) max_len)
      as [Heq|Hne]; [exact Heq|].
    destruct Hstop as (w & Hlast & Heos); [lia|].
    rewrite last_lookup in Hlast.
    apply Hnext in Hlast.
    destruct (Hstep ([sos] ++ take (Nat.pred (length suffix)) suffix))
      as (w' & Hw' & Hnot); [discriminate|].
    rewrite Hlast in Hw'. injection Hw' as <-. congruence.
Qed.

End GreedyDecode.

End Decode.

(** ** Validation and training (train.py, lines 56-113 and 131-284) *)

Module Train.

Import Loss Decode TokenizerBuilder.

(** Module types and data types that [quantize_dynamic] is asked for. *)
Inductive LayerType : Type := Linear.
Inductive Dtype : Type := qint8.

(** The calls to [torch.save] and [quantize_dynamic], in the order they
    happen (kept next to the files themselves, which may be overwritten). *)
Inductive Event : Type :=
  | SaveCheckpoint (path : string) (c : Checkpoint)
  | QuantizeDynamic (layers : list LayerType) (dtype : Dtype)
  | SaveStateDict (path : string) (sd : StateDict).

(** A scalar sent to the TensorBoard writer: tag, value, step. *)
Definition Scalar : Type := string * R * Z.

(** Parameter tensors live in a store and are referred to by location, so
    that a model and an optimizer can hold the same tensors.  [grads] is the
    [.grad] attribute (absent when [None]); [rng] counts the random draws
    made so far (shuffles, dropout masks, initial weights).  [summary] is
    what the [SummaryWriter] of line 191 has been sent and has flushed to its
    event file; [fs] holds the other files. *)
Record World : Type := mkWorld {
  fs : FileSystem;
  params : gmap nat Tensor;
  grads : gmap nat Tensor;
  next_loc : nat;
  rng : nat;
  trace : list Event;
  summary : list Scalar }.

#[global] Instance Tensor_inhabited : Inhabited Tensor :=
  populate (mkTensor [] []).

Definition set_fs (w : World) (f : FileSystem) : World :=
  mkWorld f (params w) (grads w) (next_loc w) (rng w) (trace w) (summary w).
Definition set_params (w : World) (p : gmap nat Tensor) : World :=
  mkWorld (fs w) p (grads w) (next_loc w) (rng w) (trace w) (summary w).
Definition set_grads (w : World) (g : gmap nat Tensor) : World :=
  mkWorld (fs w) (params w) g (next_loc w) (rng w) (trace w) (summary w).
Definition tick_rng (w : World) : World :=
  mkWorld (fs w) (params w) (grads w) (next_loc w) (S (rng w)) (trace w)
    (summary w).
Definition log_event (w : World) (e : Event) : World :=
  mkWorld (fs w) (params w) (grads w) (next_loc w) (rng w) (trace w ++ [e])
    (summary w).

(** [writer.add_scalar(tag, value, step)] followed by [writer.flush()] *)
Definition add_scalar (w : World) (tag : string) (value : R) (step : Z) : World :=
  mkWorld (fs w) (params w) (grads w) (next_loc w) (rng w) (trace w)
    (summary w ++ [(tag, value, step)]).

(** The metrics of torchmetrics that [run_validation] computes. *)
Inductive Metric : Type := CharErrorRate | WordErrorRate | BLEUScore.

Section Training.

Context {Mask EncOut : Type}.

(** *** Batches and data loaders *)

(** One example of [BilingualDataset] (dataset.py). *)
Record Item : Type := mkItem {
  it_encoder_input : list Z;
  it_decoder_input : list Z;
  it_encoder_mask : Mask;
  it_decoder_mask : Mask;
  it_label : list Z;
  it_src_text : string;
  it_tgt_text : string }.

(** A collated batch: tensors stacked along a new first dimension, texts
    gathered in a list. *)
Record Batch : Type := mkBatch {
  encoder_input : Tokens;
  decoder_input : Tokens;
  encoder_mask : Mask;
  decoder_mask : Mask;
  label : Tokens;
  src_text : list string;
  tgt_text : list string }.

Record DataLoaderT : Type := mkDataLoader {
  dl_dataset : list Item;
  dl_batch_size : nat;
  dl_shuffle : bool }.

(** Stacking of mask tensors by the default collate function. *)
Variable stack_masks : list Mask -> Mask.

(** The permutation the loader's random sampler draws at draw number [n]. *)
Variable shuffle : nat -> list Item -> list Item.

Definition collate (items : list Item) : Batch :=
  {| encoder_input := map it_encoder_input items;
     decoder_input := map it_decoder_input items;
     encoder_mask := stack_masks (map it_encoder_mask items);
     decoder_mask := stack_masks (map it_decoder_mask items);
     label := map it_label items;
     src_text := map it_src_text items;
     tgt_text := map it_tgt_text items |}.

(** [DataLoader(ds, batch_size=..., shuffle=...)]: the batch size must be a
    positive integer, and the random sampler made for [shuffle=True] refuses
    an empty dataset. *)
Definition DataLoader (ds : list Item) (batch_size : Z) (shuffle_flag : bool)
  : Result DataLoaderT :=
  if (batch_size <=? 0)%Z then Raise ValueError
  else if shuffle_flag && bool_decide (length ds = 0%nat) then Raise ValueError
  else Ok {| dl_dataset := ds; dl_batch_size := Z.to_nat batch_size;
             dl_shuffle := shuffle_flag |}.

(** Consecutive groups of [n] elements, the last one possibly shorter. *)
Fixpoint chunks_aux {A : Type} (fuel n : nat) (l : list A) : list (list A) :=
  match fuel with
  | O => []
  | S fuel' =>
      match l with
      | [] => []
      | _ => take n l :: chunks_aux fuel' n (drop n l)
      end
  end.

Definition chunks {A : Type} (n : nat) (l : list A) : list (list A) :=
  chunks_aux (length l) n l.

(** The batches of one pass over the loader, for the random draw [seed]. *)
Definition iter_batches (dl : DataLoaderT) (seed : nat) : list Batch :=
  let order := if dl_shuffle dl then shuffle seed (dl_dataset dl)
               else dl_dataset dl in
  map collate (chunks (dl_batch_size dl) order).

(** *** Models over the parameter store *)

(** The computations of a transformer (model.py) as functions of its
    parameter values, its mode (training or not) and, for dropout, a random
    draw. *)
Record Net : Type := mkNet {
  net_encode : list Tensor -> bool -> nat -> Tokens -> Mask -> EncOut;
  net_decode : list Tensor -> bool -> nat -> EncOut -> Mask -> Tokens -> Mask
               -> list (list Hidden);
  net_project : list Tensor -> Hidden -> list R }.

(** An [nn.Module]: its named parameters (locations in the store), its mode
    flag and its computations. *)
Record Model : Type := mkModel {
  named_parameters : list (string * nat);
  training : bool;
  net : Net }.

Definition parameters (m : Model) : list nat := map snd (named_parameters m).

Definition set_training (m : Model) (flag : bool) : Model :=
  {| named_parameters := named_parameters m; training := flag; net := net m |}.

(** [model.train()] and [model.eval()] *)
Definition train_mode (m : Model) : Model := set_training m true.
Definition eval_mode (m : Model) : Model := set_training m false.

Definition weights (m : Model) (P : gmap nat Tensor) : list Tensor :=
  map (fun l => P !!! l) (parameters m).

(** [model.state_dict()] *)
Definition state_dict (m : Model) (P : gmap nat Tensor) : StateDict :=
  map (fun nl => (fst nl, P !!! snd nl)) (named_parameters m).

(** The methods of a model for the weights and mode it has now. *)
Definition bound (m : Model) (P : gmap nat Tensor) (seed : nat)
  : Transformer Mask EncOut :=
  let W := weights m P in
  {| encode := net_encode (net m) W (training m) seed;
     decode := net_decode (net m) W (training m) seed;
     project := net_project (net m) W |}.

(** *** run_validation *)

(** [causal_mask] of dataset.py and the tokenizer's [decode]. *)
Variable causal_mask : nat -> Mask.
Variable tokenizer_decode : Tokenizer -> list Z -> string.

(** torchmetrics: the value of a metric on the predicted and the expected
    texts, two lists of equal length. *)
Variable metric : Metric -> list string -> list string -> R.

(** [texts[0]] *)
Definition first_text (texts : list string) : Result string :=
  match texts with
  | t :: _ => Ok t
  | [] => Raise IndexError
  end.

(** The body of the loop over the validation batches, lines 75-93; the
    result is the triple (source, expected, predicted). *)
Definition validate_batch (fuel : nat) (model : Transformer Mask EncOut)
  (tokenizer_src tokenizer_tgt : Tokenizer) (max_len : Z) (batch : Batch)
  : Result (string * string * string) :=
  if negb (length (encoder_input batch) =? 1)%nat then Raise AssertionError
  else
    model_out ← greedy_decode causal_mask fuel model (encoder_input batch)
                  (encoder_mask batch) tokenizer_src tokenizer_tgt max_len;
    source_text ← first_text (src_text batch);
    target_text ← first_text (tgt_text batch);
    let model_out_text := tokenizer_decode tokenizer_tgt model_out in
    Ok (source_text, target_text, model_out_text).

Fixpoint validation_loop (fuel : nat) (model : Transformer Mask EncOut)
  (tokenizer_src tokenizer_tgt : Tokenizer) (max_len num_examples count : Z)
  (batches : list Batch) (seen : list (string * string * string))
  : Result (list (string * string * string)) :=
  match batches with
  | [] => Ok seen
  | batch :: batches' =>
      let count := (count + 1)%Z in
      r ← validate_batch fuel model tokenizer_src tokenizer_tgt max_len batch;
      let seen := seen ++ [r] in
      if (count =? num_examples)%Z then Ok seen
      else validation_loop fuel model tokenizer_src tokenizer_tgt max_len
             num_examples count batches' seen
  end.

(** Lines 99-113: with a writer, the three metrics of the predicted against
    the expected texts are sent to it, each at the global step. *)
Definition write_metrics (texts : list (string * string * string))
  (global_step : Z) (w : World) : World :=
  let expected := map (fun r => snd (fst r)) texts in
  let predicted := map snd texts in
  let w := add_scalar w "validation cer"
             (metric CharErrorRate predicted expected) global_step in
  let w := add_scalar w "validation wer"
             (metric WordErrorRate predicted expected) global_step in
  add_scalar w "validation BLEU"
    (metric BLEUScore predicted expected) global_step.

(** The model is put in eval mode, then decodes up to [num_examples]
    validation batches; [writer] tells whether a writer was passed.  Returns
    the model (now in eval mode), the texts gathered (source, expected,
    predicted) and the world after the loader's shuffle and the writes to
    the writer. *)
Definition run_validation (fuel : nat) (model : Model)
  (validation_ds : DataLoaderT) (tokenizer_src tokenizer_tgt : Tokenizer)
  (max_len num_examples : Z) (global_step : Z) (writer : bool) (w : World)
  : Result (Model * list (string * string * string) * World) :=
  let model := eval_mode model in
  let batches := iter_batches validation_ds (rng w) in
  let w := tick_rng w in
  texts ← validation_loop fuel (bound model (params w) (rng w)) tokenizer_src
            tokenizer_tgt max_len num_examples 0 batches [];
  let w := if writer then write_metrics texts global_step w else w in
  Ok (model, texts, w).

(** *** get_ds *)

(** The datasets library: the corpus it returns for a name and a language
    pair, and the files it leaves (its cache and lock files); dataset.py and
    the tokenizers library. *)
Variable load_dataset : string -> string -> list RawItem.
Variable dataset_cache : string -> string -> FileSystem -> FileSystem.
Variable random_split :
  nat -> list RawItem -> nat -> nat -> list RawItem * list RawItem.
Variable BilingualDataset :
  list RawItem -> Tokenizer -> Tokenizer -> string -> string -> Z -> list Item.
Variable format : string -> string -> string.
Variable word_level_vocab :
  option PreTokenizer -> WordLevelTrainer -> list string -> gmap string Z.

(** The operating system: whether a file can be created or replaced at a
    path (its parent directory exists, as the weights folder does after the
    [mkdir] of line 182, and may be written). *)
Variable writable : FileSystem -> string -> bool.

Definition get_vocab_size (t : Tokenizer) : Z := Z.of_nat (size (vocab t)).

(** Lines 147-151 only print the longest sentences; what can go wrong there
    is a corpus entry without one of the two languages. *)
Definition check_translations (config : Config) (ds_raw : list RawItem)
  : Result (list unit) :=
  mapM (fun item : RawItem =>
          match item !! lang_src config, item !! lang_tgt config with
          | Some _, Some _ => Ok ()
          | _, _ => Raise KeyError
          end) ds_raw.

Definition get_ds (config : Config) (w : World)
  : Result (DataLoaderT * DataLoaderT * Tokenizer * Tokenizer * World) :=
  let pair :=
    String.append (lang_src config) (String.append "-" (lang_tgt config)) in
  let ds_raw := load_dataset (datasource config) pair in
  let fs0 := dataset_cache (datasource config) pair (fs w) in
  '(tokenizer_src, fs1) ←
    get_or_build_tokenizer format word_level_vocab writable config ds_raw
      (lang_src config) fs0;
  '(tokenizer_tgt, fs2) ←
    get_or_build_tokenizer format word_level_vocab writable config ds_raw
      (lang_tgt config) fs1;
  let w := set_fs w fs2 in
  (* int(0.9 * len(ds_raw)) *)
  let train_ds_size := (9 * length ds_raw / 10)%nat in
  let val_ds_size := (length ds_raw - train_ds_size)%nat in
  let '(train_ds_raw, val_ds_raw) :=
    random_split (rng w) ds_raw train_ds_size val_ds_size in
  let w := tick_rng w in
  let train_ds :=
    BilingualDataset train_ds_raw tokenizer_src tokenizer_tgt
      (lang_src config) (lang_tgt config) (seq_len config) in
  let val_ds :=
    BilingualDataset val_ds_raw tokenizer_src tokenizer_tgt
      (lang_src config) (lang_tgt config) (seq_len config) in
  _ ← check_translations config ds_raw;
  train_dataloader ← DataLoader train_ds (batch_size config) true;
  val_dataloader ← DataLoader val_ds 1 true;
  Ok (train_dataloader, val_dataloader, tokenizer_src, tokenizer_tgt, w).

(** *** Building the two models *)

(** model.py: the initial named tensors and the computations of a
    transformer for the given sizes, [d_model] last, and a random draw. *)
Variable build_transformer : Z -> Z -> Z -> Z -> Z -> nat -> StateDict * Net.
Variable build_student_transformer :
  Z -> Z -> Z -> Z -> Z -> nat -> StateDict * Net.

(** A new module registers each of its tensors at a fresh location. *)
Fixpoint alloc (init : StateDict) (P : gmap nat Tensor) (next : nat)
  : list (string * nat) * gmap nat Tensor * nat :=
  match init with
  | [] => ([], P, next)
  | (name, t) :: init' =>
      let '(nps, P', next') := alloc init' (<[next := t]> P) (S next) in
      ((name, next) :: nps, P', next')
  end.

Definition new_model (built : StateDict * Net) (w : World) : Model * World :=
  let '(nps, P, next) := alloc (fst built) (params w) (next_loc w) in
  ({| named_parameters := nps; training := true; net := snd built |},
   mkWorld (fs w) P (grads w) next (S (rng w)) (trace w) (summary w)).

Definition get_model (config : Config) (vocab_src_len vocab_tgt_len : Z)
  (w : World) : Model * World :=
  new_model (build_transformer vocab_src_len vocab_tgt_len (seq_len config)
               (seq_len config) (d_model config) (rng w)) w.

Definition get_model_distillation (config : Config)
  (vocab_src_len vocab_tgt_len : Z) (w : World) : Model * World :=
  new_model (build_student_transformer vocab_src_len vocab_tgt_len
               (seq_len config) (seq_len config) (d_model config / 2)%Z
               (rng w)) w.

(** [module.load_state_dict(sd)], strict: no unexpected key, and every
    parameter of the module present with the shape it has in the module; the
    values are copied into the module's tensors. *)
Fixpoint assoc (name : string) (sd : StateDict) : option Tensor :=
  match sd with
  | [] => None
  | (k, t) :: sd' => if String.eqb k name then Some t else assoc name sd'
  end.

Definition shape_eqb (a b : list nat) : bool := bool_decide (a = b).

Fixpoint copy_params (nps : list (string * nat)) (sd : StateDict)
  (P : gmap nat Tensor) : Result (gmap nat Tensor) :=
  match nps with
  | [] => Ok P
  | (name, l) :: nps' =>
      match assoc name sd with
      | Some t =>
          if shape_eqb (shape t) (shape (P !!! l))
          then copy_params nps' sd (<[l := t]> P)
          else Raise RuntimeError
      | None => Raise RuntimeError
      end
  end.

Definition load_state_dict (m : Model) (sd : StateDict) (P : gmap nat Tensor)
  : Result (gmap nat Tensor) :=
  if forallb (fun kt => existsb (String.eqb (fst kt))
                          (map fst (named_parameters m))) sd
  then copy_params (named_parameters m) sd P
  else Raise RuntimeError.

(** *** The optimizer *)

Record Optimizer : Type := mkOptimizer {
  opt_params : list nat;
  opt_lr : R;
  opt_eps : R;
  opt_state : gmap nat AdamState }.

(** [torch.optim.Adam(params, lr=..., eps=...)] *)
Definition Adam (ps : list nat) (lr eps : R) : Result Optimizer :=
  match ps with
  | [] => Raise ValueError
  | _ => Ok {| opt_params := ps; opt_lr := lr; opt_eps := eps; opt_state := ∅ |}
  end.

Definition optimizer_state_dict (o : Optimizer) : OptimizerStateDict :=
  {| sd_state := map (fun l => opt_state o !! l) (opt_params o);
     sd_lr := opt_lr o; sd_eps := opt_eps o |}.

Fixpoint restore_state (ps : list nat) (states : list (option AdamState))
  : gmap nat AdamState :=
  match ps, states with
  | l :: ps', Some a :: states' => <[l := a]> (restore_state ps' states')
  | _ :: ps', None :: states' => restore_state ps' states'
  | _, _ => ∅
  end.

(** [optimizer.load_state_dict(sd)]: the saved group must have as many
    parameters as the optimizer's. *)
Definition optimizer_load_state_dict (o : Optimizer) (sd : OptimizerStateDict)
  : Result Optimizer :=
  if (length (sd_state sd) =? length (opt_params o))%nat
  then Ok {| opt_params := opt_params o; opt_lr := sd_lr sd;
             opt_eps := sd_eps sd;
             opt_state := restore_state (opt_params o) (sd_state sd) |}
  else Raise ValueError.

(** The torch runtime: the partial derivative of a scalar function of the
    store with respect to the tensor at a location, and Adam's update of one
    parameter from its gradient and state. *)
Variable gradient :
  (gmap nat Tensor -> Result R) -> gmap nat Tensor -> nat -> Tensor.
Variable adam_update :
  R -> R -> Tensor -> Tensor -> option AdamState -> Tensor * AdamState.

Definition tensor_add (a b : Tensor) : Tensor :=
  mkTensor (shape a) (zip_with Rplus (data a) (data b)).

(** [loss.backward()]: each leaf of the graph accumulates its gradient. *)
Definition backward (loss : gmap nat Tensor -> Result R) (leaves : list nat)
  (P G : gmap nat Tensor) : gmap nat Tensor :=
  fold_left (fun G l =>
               let g := gradient loss P l in
               <[l := match G !! l with
                      | Some g0 => tensor_add g0 g
                      | None => g
                      end]> G) leaves G.

(** [optimizer.step()]: every parameter of the optimizer that has a gradient
    is updated in place. *)
Definition step_param (lr eps : R) (G : gmap nat Tensor)
  (acc : gmap nat Tensor * gmap nat AdamState) (l : nat)
  : gmap nat Tensor * gmap nat AdamState :=
  match G !! l with
  | None => acc
  | Some g =>
      let '(p, a) := adam_update lr eps (fst acc !!! l) g (snd acc !! l) in
      (<[l := p]> (fst acc), <[l := a]> (snd acc))
  end.

Definition optimizer_step (o : Optimizer) (P G : gmap nat Tensor)
  : gmap nat Tensor * Optimizer :=
  let '(P', S') :=
    fold_left (step_param (opt_lr o) (opt_eps o) G) (opt_params o)
      (P, opt_state o) in
  (P', {| opt_params := opt_params o; opt_lr := opt_lr o;
          opt_eps := opt_eps o; opt_state := S' |}).

(** [optimizer.zero_grad(set_to_none=True)] *)
Definition zero_grad (o : Optimizer) (G : gmap nat Tensor) : gmap nat Tensor :=
  fold_left (fun G l => delete l G) (opt_params o) G.

(** *** train_model: set-up (lines 170-212) *)

(** config.py *)
Variable get_weights_file_path : Config -> string -> string.
Variable latest_weights_file_path : Config -> FileSystem -> option string.

(** [nn.CrossEntropyLoss(ignore_index=..., label_smoothing=...)] as built on
    line 209. *)
Record CrossEntropyLossModule : Type := mkCrossEntropyLossModule {
  ignore_index : option Z;
  label_smoothing : R }.

(** The local variables of [train_model]. *)
Record TrainState : Type := mkTrainState {
  train_dataloader : DataLoaderT;
  val_dataloader : DataLoaderT;
  tokenizer_src : Tokenizer;
  tokenizer_tgt : Tokenizer;
  teacher_model : Model;
  student_model : Model;
  optimizer : Optimizer;
  initial_epoch : Z;
  global_step : Z;
  model_filename : option string;
  loss_fn : CrossEntropyLossModule;
  st_temperature : R;
  st_alpha : R }.

(** Truth value of a string-or-None. *)
Definition truthy (s : option string) : bool :=
  match s with
  | Some s => negb (String.eqb s "")
  | None => false
  end.

(** [torch.load(path)] followed by the reads of the four keys; [None] is
    taken for a file object and has no [seek]. *)
Definition torch_load (path : option string) (f : FileSystem)
  : Result Checkpoint :=
  match path with
  | None => Raise AttributeError
  | Some p =>
      match f !! p with
      | Some (CheckpointFile c) => Ok c
      | Some (StateDictFile _) => Raise KeyError
      | Some _ => Raise RuntimeError
      | None => Raise FileNotFoundError
      end
  end.

Definition choose_model_filename (config : Config) (f : FileSystem)
  : option string :=
  match preload config with
  | Some p =>
      if String.eqb p "latest" then latest_weights_file_path config f
      else if truthy (Some p) then Some (get_weights_file_path config p)
      else None
  | None => None
  end.

Definition setup (config : Config) (w : World) : Result (TrainState * World) :=
  '(train_dataloader, val_dataloader, tokenizer_src, tokenizer_tgt, w) ←
    get_ds config w;
  let '(teacher_model, w) :=
    get_model config (get_vocab_size tokenizer_src)
      (get_vocab_size tokenizer_tgt) w in
  let '(student_model, w) :=
    get_model_distillation config (get_vocab_size tokenizer_src)
      (get_vocab_size tokenizer_tgt) w in
  optimizer ← Adam (parameters student_model) (lr config) (/ 10 ^ 9)%R;
  let model_filename := choose_model_filename config (fs w) in
  '(w, optimizer, initial_epoch, global_step) ←
    (if truthy model_filename then
       state ← torch_load (latest_weights_file_path config (fs w)) (fs w);
       P ← load_state_dict teacher_model (ck_model_state_dict state) (params w);
       optimizer ← optimizer_load_state_dict optimizer
                     (ck_optimizer_state_dict state);
       Ok (set_params w P, optimizer, (ck_epoch state + 1)%Z,
           ck_global_step state)
     else Ok (w, optimizer, 0%Z, 0%Z));
  let loss_fn :=
    {| ignore_index := token_to_id tokenizer_src "[PAD]";
       label_smoothing := (1 / 10)%R |} in
  let temperature := default 2%R (temperature config) in
  let alpha := default (7 / 10)%R (alpha config) in
  Ok ({| train_dataloader := train_dataloader;
         val_dataloader := val_dataloader;
         tokenizer_src := tokenizer_src;
         tokenizer_tgt := tokenizer_tgt;
         teacher_model := teacher_model;
         student_model := student_model;
         optimizer := optimizer;
         initial_epoch := initial_epoch;
         global_step := global_step;
         model_filename := model_filename;
         loss_fn := loss_fn;
         st_temperature := temperature;
         st_alpha := alpha |}, w).

(** *** train_model: one training step (lines 224-251) *)

(** encode, decode, project: logits of shape (batch, length, vocabulary). *)
Definition forward (m : Model) (P : gmap nat Tensor) (seed : nat)
  (batch : Batch) : list (list (list R)) :=
  let model := bound m P seed in
  let output := encode model (encoder_input batch) (encoder_mask batch) in
  let output := decode model output (encoder_mask batch) (decoder_input batch)
                  (decoder_mask batch) in
  map (map (project model)) output.

(** [logits.view(-1, width)] on the flattened entries. *)
Definition view_rows (width : Z) (flat : list R) : Result Tensor2 :=
  if (width <=? 0)%Z then Raise RuntimeError
  else if (Z.of_nat (length flat) mod width =? 0)%Z
       then Ok (chunks (Z.to_nat width) flat)
       else Raise RuntimeError.

(** Lines 235-241: the loss of the step as a function of the store.  The
    teacher's logits were computed under [torch.no_grad()], so they enter as
    a constant. *)
Definition distillation_objective (st : TrainState) (batch : Batch)
  (seed : nat) (teacher_logits : list (list (list R)))
  : gmap nat Tensor -> Result R :=
  fun P =>
    let student_logits := forward (student_model st) P seed batch in
    let width := get_vocab_size (tokenizer_tgt st) in
    s ← view_rows width (concat (concat student_logits));
    t ← view_rows width (concat (concat teacher_logits));
    knowledge_distillation_loss s t (concat (label batch))
      (st_temperature st) (st_alpha st).

Definition set_step (st : TrainState) (o : Optimizer) (gs : Z) : TrainState :=
  {| train_dataloader := train_dataloader st;
     val_dataloader := val_dataloader st;
     tokenizer_src := tokenizer_src st;
     tokenizer_tgt := tokenizer_tgt st;
     teacher_model := teacher_model st;
     student_model := student_model st;
     optimizer := o;
     initial_epoch := initial_epoch st;
     global_step := gs;
     model_filename := model_filename st;
     loss_fn := loss_fn st;
     st_temperature := st_temperature st;
     st_alpha := st_alpha st |}.

Definition train_step (st : TrainState) (batch : Batch) (w : World)
  : Result (TrainState * World) :=
  let seed := rng w in
  let w := tick_rng w in
  (* with torch.no_grad(): the teacher's outputs record no graph *)
  let teacher_logits := forward (teacher_model st) (params w) seed batch in
  let teacher_leaves : list nat := [] in
  (* the student's outputs reach the student's parameters *)
  let student_leaves := parameters (student_model st) in
  let objective := distillation_objective st batch seed teacher_logits in
  loss ← objective (params w);
  (* writer.add_scalar('train loss', loss.item(), global_step) *)
  let w := add_scalar w "train loss" loss (global_step st) in
  (* loss.backward() *)
  let G := backward objective (student_leaves ++ teacher_leaves)
             (params w) (grads w) in
  (* optimizer.step() *)
  let '(P, o) := optimizer_step (optimizer st) (params w) G in
  (* optimizer.zero_grad(set_to_none=True) *)
  let G := zero_grad o G in
  Ok (set_step st o (global_step st + 1)%Z, set_grads (set_params w P) G).

(** *** train_model: the epoch loop and the end (lines 214-284) *)

Variable format_02d : Z -> string.
Variable quantize_dynamic : StateDict -> list LayerType -> Dtype -> StateDict.

Fixpoint train_batches (st : TrainState) (batches : list Batch) (w : World)
  : Result (TrainState * World) :=
  match batches with
  | [] => Ok (st, w)
  | batch :: batches' =>
      '(st, w) ← train_step st batch w;
      train_batches st batches' w
  end.

Definition set_models (st : TrainState) (teacher student : Model)
  (filename : option string) : TrainState :=
  {| train_dataloader := train_dataloader st;
     val_dataloader := val_dataloader st;
     tokenizer_src := tokenizer_src st;
     tokenizer_tgt := tokenizer_tgt st;
     teacher_model := teacher;
     student_model := student;
     optimizer := optimizer st;
     initial_epoch := initial_epoch st;
     global_step := global_step st;
     model_filename := filename;
     loss_fn := loss_fn st;
     st_temperature := st_temperature st;
     st_alpha := st_alpha st |}.

(** [torch.save] of the checkpoint dictionary and of a state dict; a path
    whose parent directory does not exist is a RuntimeError. *)
Definition save_checkpoint (c : Checkpoint) (path : string) (w : World)
  : Result World :=
  if writable (fs w) path
  then Ok (log_event (set_fs w (<[path := CheckpointFile c]> (fs w)))
             (SaveCheckpoint path c))
  else Raise RuntimeError.

Definition save_state_dict (sd : StateDict) (path : string) (w : World)
  : Result World :=
  if writable (fs w) path
  then Ok (log_event (set_fs w (<[path := StateDictFile sd]> (fs w)))
             (SaveStateDict path sd))
  else Raise RuntimeError.

(** Lines 215-219: the modes are set and the loader is shuffled. *)
Definition begin_epoch (st : TrainState) (w : World)
  : TrainState * list Batch * World :=
  let st := set_models st (eval_mode (teacher_model st))
              (train_mode (student_model st)) (model_filename st) in
  let batches := iter_batches (train_dataloader st) (rng w) in
  (st, batches, tick_rng w).

Definition train_epoch (fuel : nat) (config : Config) (st : TrainState)
  (epoch : Z) (w : World) : Result (TrainState * World) :=
  let '(st, batches, w) := begin_epoch st w in
  '(st, w) ← train_batches st batches w;
  '(student, _, w) ←
    run_validation fuel (student_model st) (val_dataloader st)
      (tokenizer_src st) (tokenizer_tgt st) (seq_len config) 2
      (global_step st) true w;
  let filename := get_weights_file_path config (format_02d epoch) in
  let st := set_models st (teacher_model st) student (Some filename) in
  w ←
    save_checkpoint
      {| ck_epoch := epoch;
         ck_model_state_dict := state_dict (student_model st) (params w);
         ck_optimizer_state_dict := optimizer_state_dict (optimizer st);
         ck_global_step := global_step st |} filename w;
  Ok (st, w).

Fixpoint train_epochs (fuel : nat) (config : Config) (st : TrainState)
  (epochs : list Z) (w : World) : Result (TrainState * World) :=
  match epochs with
  | [] => Ok (st, w)
  | epoch :: epochs' =>
      '(st, w) ← train_epoch fuel config st epoch w;
      train_epochs fuel config st epochs' w
  end.

(** [range(a, b)] *)
Definition range (a b : Z) : list Z :=
  map (fun i => (a + Z.of_nat i)%Z) (seq 0 (Z.to_nat (b - a))).

(** [os.path.getsize(path)]; the size itself is only printed. *)
Definition getsize (path : option string) (f : FileSystem) : Result unit :=
  match path with
  | None => Raise TypeError
  | Some p =>
      match f !! p with
      | Some _ => Ok ()
      | None => Raise FileNotFoundError
      end
  end.

(** Lines 263-284. *)
Definition quantize_and_save (config : Config) (st : TrainState) (w : World)
  : Result World :=
  _ ← getsize (model_filename st) (fs w);
  let quantized :=
    quantize_dynamic (state_dict (student_model st) (params w)) [Linear] qint8 in
  let w := log_event w (QuantizeDynamic [Linear] qint8) in
  let quantized_model_filename := get_weights_file_path config "quantized_model" in
  w ← save_state_dict quantized quantized_model_filename w;
  _ ← getsize (Some quantized_model_filename) (fs w);
  Ok w.

Definition train_model (fuel : nat) (config : Config) (w : World)
  : Result World :=
  '(st, w) ← setup config w;
  '(st, w) ←
    train_epochs fuel config st (range (initial_epoch st) (num_epochs config)) w;
  quantize_and_save config st w.

(** *** The training steps of a run

    The calls of [train_step] that a run makes, each with the local state,
    the batch and the world it is called on, in order; a run that raises
    later still made the calls listed up to there. *)
Fixpoint steps_of_batches (st : TrainState) (batches : list Batch) (w : World)
  : list (TrainState * Batch * World) :=
  match batches with
  | [] => []
  | batch :: batches' =>
      (st, batch, w) ::
      match train_step st batch w with
      | Ok (st', w') => steps_of_batches st' batches' w'
      | _ => []
      end
  end.

Definition steps_of_epoch (st : TrainState) (w : World)
  : list (TrainState * Batch * World) :=
  let '(st, batches, w) := begin_epoch st w in
  steps_of_batches st batches w.

Fixpoint steps_of_epochs (fuel : nat) (config : Config) (st : TrainState)
  (epochs : list Z) (w : World) : list (TrainState * Batch * World) :=
  match epochs with
  | [] => []
  | epoch :: epochs' =>
      steps_of_epoch st w ++
      match train_epoch fuel config st epoch w with
      | Ok (st', w') => steps_of_epochs fuel config st' epochs' w'
      | _ => []
      end
  end.

Definition training_steps (fuel : nat) (config : Config) (w : World)
  : list (TrainState * Batch * World) :=
  match setup config w with
  | Ok (st, w0) =>
      steps_of_epochs fuel config st
        (range (initial_epoch st) (num_epochs config)) w0
  | _ => []
  end.

(** *** Facts on batching *)

Lemma chunks_aux_width {A : Type} (n : nat) (fuel : nat) (l : list A) (k : nat) :
  (0 < n)%nat -> length l = (k * n)%nat ->
  Forall (fun c => length c = n) (chunks_aux fuel n l).
Proof.
  intros Hn. revert l k.
  induction fuel as [|fuel IH]; intros l k Hlen; simpl; [constructor|].
  destruct l as [|a l]; [constructor|].
  destruct k as [|k]; [simpl in Hlen; lia|].
  constructor.
  - rewrite length_take, Hlen. simpl. lia.
  - apply (IH _ k). rewrite length_drop, Hlen. simpl. lia.
Qed.

Lemma chunks_one {A : Type} (l : list A) :
  Forall (fun c => length c = 1%nat) (chunks 1 l).
Proof.
  unfold chunks. apply (chunks_aux_width 1 _ l (length l)); lia.
Qed.

Lemma iter_batches_one (dl : DataLoaderT) (seed : nat) :
  dl_batch_size dl = 1%nat ->
  Forall (fun batch => length (encoder_input batch) = 1%nat)
    (iter_batches dl seed).
Proof.
  intros Hone. unfold iter_batches. rewrite Hone.
  apply Forall_map.
  eapply Forall_impl; [apply chunks_one|].
  intros items Hlen. simpl. rewrite length_map. exact Hlen.
Qed.

Lemma greedy_decode_no_assertion (fuel : nat) (model : Transformer Mask EncOut)
  (source : Tokens) (source_mask : Mask) (tsrc ttgt : Tokenizer) (max_len : Z) :
  greedy_decode causal_mask fuel model source source_mask tsrc ttgt max_len
  <> Raise AssertionError.
Proof.
  unfold greedy_decode.
  destruct (token_to_id ttgt "[SOS]") as [sos|]; [|discriminate].
  generalize [sos]. induction fuel as [|fuel IH]; intros dec; simpl;
    [discriminate|].
  destruct (Z.of_nat (length dec) =? max_len)%Z; [discriminate|].
  apply bind_no_raise.
  - unfold next_word. apply bind_no_raise.
    + apply mapM_no_raise. intros p. destruct (last p); discriminate.
    + intros hs. apply bind_no_raise.
      * apply mapM_no_raise. intros row. destruct (argmax row); discriminate.
      * intros [|x [|y t]]; discriminate.
  - intros w. destruct (eq_idx w _); [discriminate|apply IH].
Qed.

Lemma validation_loop_no_assertion (fuel : nat) (model : Transformer Mask EncOut)
  (tsrc ttgt : Tokenizer) (max_len num_examples : Z) (batches : list Batch) :
  Forall (fun batch => length (encoder_input batch) = 1%nat) batches ->
  forall count seen,
    validation_loop fuel model tsrc ttgt max_len num_examples count batches seen
    <> Raise AssertionError.
Proof.
  induction 1 as [|batch batches Hone _ IH]; intros count seen; simpl;
    [discriminate|].
  apply bind_no_raise.
  - unfold validate_batch. rewrite Hone. simpl.
    apply bind_no_raise; [apply greedy_decode_no_assertion|].
    intros out. apply bind_no_raise.
    { destruct (src_text batch); discriminate. }
    intros a. apply bind_no_raise.
    { destruct (tgt_text batch); discriminate. }
    discriminate.
  - intros r. destruct (count + 1 =? num_examples)%Z; [discriminate|apply IH].
Qed.

Lemma run_validation_no_assertion (fuel : nat) (model : Model)
  (validation_ds : DataLoaderT) (tsrc ttgt : Tokenizer)
  (max_len num_examples global_step : Z) (writer : bool) (w : World) :
  dl_batch_size validation_ds = 1%nat ->
  run_validation fuel model validation_ds tsrc ttgt max_len num_examples
    global_step writer w
  <> Raise AssertionError.
Proof.
  intros Hone. unfold run_validation.
  match goal with |- context [validation_loop ?f ?m ?a ?b ?c ?d ?e ?bs ?s] =>
    pose proof (validation_loop_no_assertion f m a b c d bs
                  (iter_batches_one validation_ds (rng w) Hone) e s) as Hno;
    destruct (validation_loop f m a b c d e bs s) as [texts|e'|]
  end; simpl; congruence.
Qed.

(** *** Facts on the parameter store *)

Lemma alloc_spec (init : StateDict) (P : gmap nat Tensor) (next : nat)
  (nps : list (string * nat)) (P' : gmap nat Tensor) (next' : nat) :
  alloc init P next = (nps, P', next') ->
  map snd nps = seq next (length init)
  /\ next' = (next + length init)%nat
  /\ (forall l, (l < next \/ next' <= l)%nat -> P' !! l = P !! l)
  /\ map (fun nl => (fst nl, P' !!! snd nl)) nps = init.
Proof.
  revert P next nps P' next'.
  induction init as [|[name t] init IH]; intros P next nps P' next' H; simpl in H.
  - injection H as <- <- <-. simpl. repeat split; auto with lia.
  - destruct (alloc init (<[next:=t]> P) (S next)) as [[nps0 P0] next0] eqn:Ha.
    injection H as <- <- <-.
    destruct (IH _ _ _ _ _ Ha) as (Hlocs & Hnext & Hframe & Hsd).
    simpl. repeat split.
    + rewrite Hlocs. reflexivity.
    + lia.
    + intros l Hl. rewrite Hframe by lia. apply lookup_insert_ne. lia.
    + rewrite Hsd. f_equal. f_equal.
      apply lookup_total_correct. rewrite Hframe by lia.
      apply lookup_insert_eq.
Qed.

Lemma new_model_spec (built : StateDict * Net) (w : World) (m : Model) (w' : World) :
  new_model built w = (m, w') ->
  parameters m = seq (next_loc w) (length (fst built))
  /\ next_loc w' = (next_loc w + length (fst built))%nat
  /\ (forall l, (l < next_loc w \/ next_loc w' <= l)%nat ->
        params w' !! l = params w !! l)
  /\ state_dict m (params w') = fst built
  /\ net m = snd built
  /\ fs w' = fs w /\ grads w' = grads w /\ trace w' = trace w.
Proof.
  unfold new_model.
  destruct (alloc (fst built) (params w) (next_loc w)) as [[nps P] next] eqn:Ha.
  intros [= <- <-].
  destruct (alloc_spec _ _ _ _ _ _ Ha) as (Hlocs & Hnext & Hframe & Hsd).
  simpl. repeat split; auto.
Qed.

Lemma backward_frame (loss : gmap nat Tensor -> Result R) (leaves : list nat)
  (P G : gmap nat Tensor) (l : nat) :
  l ∉ leaves -> backward loss leaves P G !! l = G !! l.
Proof.
  unfold backward. revert G.
  induction leaves as [|l0 leaves IH]; intros G Hl; simpl; [reflexivity|].
  apply not_elem_of_cons in Hl as [Hne Hl].
  rewrite IH by exact Hl.
  apply lookup_insert_ne. congruence.
Qed.

Lemma fold_step_param_frame (lr eps : R) (G : gmap nat Tensor) (ps : list nat)
  (acc : gmap nat Tensor * gmap nat AdamState) (l : nat) :
  l ∉ ps -> fst (fold_left (step_param lr eps G) ps acc) !! l = fst acc !! l.
Proof.
  revert acc. induction ps as [|p ps IH]; intros acc Hl; simpl; [reflexivity|].
  apply not_elem_of_cons in Hl as [Hne Hl].
  rewrite IH by exact Hl.
  unfold step_param. destruct (G !! p) as [g|]; [|reflexivity].
  destruct (adam_update lr eps (acc.1 !!! p) g (acc.2 !! p)) as [p' a].
  simpl. apply lookup_insert_ne. congruence.
Qed.

Lemma optimizer_step_spec (o : Optimizer) (P G : gmap nat Tensor) :
  opt_params (snd (optimizer_step o P G)) = opt_params o
  /\ opt_lr (snd (optimizer_step o P G)) = opt_lr o
  /\ forall l, l ∉ opt_params o -> fst (optimizer_step o P G) !! l = P !! l.
Proof.
  unfold optimizer_step.
  pose proof (fold_step_param_frame (opt_lr o) (opt_eps o) G (opt_params o)
                (P, opt_state o)) as Hframe.
  destruct (fold_left _ _ _) as [P' S']. simpl in *. auto.
Qed.

Lemma zero_grad_frame (o : Optimizer) (G : gmap nat Tensor) (l : nat) :
  l ∉ opt_params o -> zero_grad o G !! l = G !! l.
Proof.
  unfold zero_grad. generalize (opt_params o). intros ps. revert G.
  induction ps as [|p ps IH]; intros G Hl; simpl; [reflexivity|].
  apply not_elem_of_cons in Hl as [Hne Hl].
  rewrite IH by exact Hl. apply lookup_delete_ne. congruence.
Qed.

Lemma copy_params_frame (nps : list (string * nat)) (sd : StateDict)
  (P P' : gmap nat Tensor) (l : nat) :
  copy_params nps sd P = Ok P' -> l ∉ map snd nps -> P' !! l = P !! l.
Proof.
  revert P. induction nps as [|[name l0] nps IH]; intros P H Hl; simpl in *.
  - congruence.
  - destruct (assoc name sd) as [t|]; [|discriminate].
    destruct (shape_eqb _ _); [|discriminate].
    apply not_elem_of_cons in Hl as [Hne Hl].
    rewrite (IH _ H Hl).
    apply lookup_insert_ne. congruence.
Qed.

Lemma copy_params_loaded (nps : list (string * nat)) (sd : StateDict)
  (P P' : gmap nat Tensor) :
  copy_params nps sd P = Ok P' -> NoDup (map snd nps) ->
  Forall (fun nl => exists t, assoc (fst nl) sd = Some t /\ P' !! snd nl = Some t)
    nps.
Proof.
  revert P. induction nps as [|[name l0] nps IH]; intros P H Hnd; simpl in *.
  - constructor.
  - destruct (assoc name sd) as [t|] eqn:Ht; [|discriminate].
    destruct (shape_eqb _ _); [|discriminate].
    apply NoDup_cons in Hnd as [Hnotin Hnd].
    constructor; [|apply (IH _ H Hnd)].
    simpl. exists t. split; [exact Ht|].
    rewrite (copy_params_frame _ _ _ _ _ H Hnotin).
    apply lookup_insert_eq.
Qed.

Lemma load_state_dict_frame (m : Model) (sd : StateDict)
  (P P' : gmap nat Tensor) (l : nat) :
  load_state_dict m sd P = Ok P' -> l ∉ parameters m -> P' !! l = P !! l.
Proof.
  unfold load_state_dict. destruct (forallb _ _); [|discriminate].
  apply copy_params_frame.
Qed.

(** *** What a step, an epoch and the set-up leave in place *)

(** The part of the local state that no statement of the loop assigns. *)
Definition static (st : TrainState) :=
  (train_dataloader st, val_dataloader st, tokenizer_src st, tokenizer_tgt st,
   named_parameters (teacher_model st), net (teacher_model st),
   named_parameters (student_model st), net (student_model st),
   opt_params (optimizer st)).

(** The optimizer holds the student's tensors, the teacher shares none of
    them, and validation batches hold one example. *)
Definition wf (st : TrainState) : Prop :=
  opt_params (optimizer st) = parameters (student_model st)
  /\ (forall l, l ∈ parameters (teacher_model st) ->
        l ∉ parameters (student_model st))
  /\ NoDup (parameters (teacher_model st))
  /\ NoDup (parameters (student_model st))
  /\ dl_batch_size (val_dataloader st) = 1%nat.

Lemma wf_static (st st' : TrainState) : static st' = static st -> wf st -> wf st'.
Proof.
  unfold static, wf, parameters.
  intros [= E1 E2 E3 E4 E5 E6 E7 E8 E9].
  rewrite ?E1, ?E2, ?E3, ?E4, ?E5, ?E6, ?E7, ?E8, ?E9. auto.
Qed.

Ltac inv_bind H :=
  let x := fresh "x" in
  let Hx := fresh "Hx" in
  apply bind_Ok_inv in H as (x & Hx & H).

Tactic Notation "inv_bind_as" hyp(H) "as" simple_intropattern(x) ident(Hx) :=
  apply bind_Ok_inv in H as (x & Hx & H).

Lemma train_step_inv (st : TrainState) (batch : Batch) (w : World)
  (st' : TrainState) (w' : World) :
  train_step st batch w = Ok (st', w') ->
  static st' = static st
  /\ teacher_model st' = teacher_model st
  /\ student_model st' = student_model st
  /\ global_step st' = (global_step st + 1)%Z
  /\ model_filename st' = model_filename st
  /\ fs w' = fs w /\ trace w' = trace w
  /\ (forall l, l ∉ opt_params (optimizer st) -> params w' !! l = params w !! l)
  /\ (forall l, l ∉ opt_params (optimizer st) ->
        l ∉ parameters (student_model st) -> grads w' !! l = grads w !! l).
Proof.
  unfold train_step. intros H. inv_bind H.
  destruct (optimizer_step_spec (optimizer st) (params (tick_rng w))
              (backward
                 (distillation_objective st batch (rng w)
                    (forward (teacher_model st) (params (tick_rng w)) (rng w) batch))
                 (parameters (student_model st) ++ []) (params (tick_rng w))
                 (grads (tick_rng w)))) as (Hps & _ & Hframe).
  destruct (optimizer_step _ _ _) as [P o]. simpl in Hps, Hframe.
  injection H as <- <-. simpl.
  unfold static. simpl. rewrite Hps.
  repeat split; auto.
  intros l Hopt Hstu.
  rewrite zero_grad_frame by (rewrite Hps; exact Hopt).
  apply backward_frame. rewrite app_nil_r. exact Hstu.
Qed.

Lemma train_batches_inv (batches : list Batch) (st : TrainState) (w : World)
  (st' : TrainState) (w' : World) :
  train_batches st batches w = Ok (st', w') ->
  static st' = static st
  /\ teacher_model st' = teacher_model st
  /\ training (student_model st') = training (student_model st)
  /\ global_step st' = (global_step st + Z.of_nat (length batches))%Z
  /\ model_filename st' = model_filename st
  /\ fs w' = fs w /\ trace w' = trace w
  /\ (forall l, l ∉ opt_params (optimizer st) -> params w' !! l = params w !! l).
Proof.
  revert st w. induction batches as [|batch batches IH]; intros st w H; simpl in H.
  - injection H as <- <-. repeat split; auto. simpl. lia.
  - inv_bind H. destruct x as [st1 w1].
    apply train_step_inv in Hx
      as (Hs1 & Ht1 & Hm1 & Hg1 & Hf1 & Hfs1 & Htr1 & Hp1 & _).
    apply IH in H as (Hs & Ht & Hm & Hg & Hf & Hfs & Htr & Hp).
    assert (Hopt : opt_params (optimizer st1) = opt_params (optimizer st))
      by (unfold static in Hs1; congruence).
    repeat split; try congruence.
    + rewrite Hg, Hg1. simpl length. lia.
    + intros l Hl. rewrite Hp by (rewrite Hopt; exact Hl). apply Hp1. exact Hl.
Qed.

Lemma run_validation_inv (fuel : nat) (model : Model) (validation_ds : DataLoaderT)
  (tsrc ttgt : Tokenizer) (max_len num_examples global_step : Z) (writer : bool)
  (w : World)
  (model' : Model) (texts : list (string * string * string)) (w' : World) :
  run_validation fuel model validation_ds tsrc ttgt max_len num_examples
    global_step writer w
  = Ok (model', texts, w') ->
  model' = eval_mode model
  /\ fs w' = fs w /\ params w' = params w /\ grads w' = grads w
  /\ trace w' = trace w /\ next_loc w' = next_loc w.
Proof.
  unfold run_validation. intros H. inv_bind H. injection H as <- <- <-.
  destruct writer; auto 10.
Qed.

(** The checkpoint written at the end of an epoch. *)
Definition checkpoint_of (epoch : Z) (st : TrainState) (w : World) : Checkpoint :=
  {| ck_epoch := epoch;
     ck_model_state_dict := state_dict (student_model st) (params w);
     ck_optimizer_state_dict := optimizer_state_dict (optimizer st);
     ck_global_step := global_step st |}.

Lemma state_dict_set_training (m : Model) (flag : bool) (P : gmap nat Tensor) :
  state_dict (set_training m flag) P = state_dict m P.
Proof. reflexivity. Qed.

Lemma train_epoch_inv (fuel : nat) (config : Config) (st : TrainState)
  (epoch : Z) (w : World) (st' : TrainState) (w' : World) :
  train_epoch fuel config st epoch w = Ok (st', w') ->
  static st' = static st
  /\ training (teacher_model st') = false
  /\ model_filename st'
     = Some (get_weights_file_path config (format_02d epoch))
  /\ (forall l, l ∉ opt_params (optimizer st) -> params w' !! l = params w !! l)
  /\ trace w'
     = trace w ++ [SaveCheckpoint (get_weights_file_path config (format_02d epoch))
                     (checkpoint_of epoch st' w')]
  /\ fs w' = <[get_weights_file_path config (format_02d epoch)
               := CheckpointFile (checkpoint_of epoch st' w')]> (fs w).
Proof.
  unfold train_epoch, begin_epoch. intros H.
  inv_bind H. destruct x as [st1 w1].
  apply train_batches_inv in Hx as (Hs1 & Ht1 & Hm1 & Hg1 & Hf1 & Hfs1 & Htr1 & Hp1).
  inv_bind H. destruct x as [[student texts] w2].
  apply run_validation_inv in Hx as (-> & Hfs2 & Hp2 & _ & Htr2 & _).
  inv_bind_as H as w3 Hsave. unfold save_checkpoint in Hsave.
  destruct (writable _ _); [|discriminate].
  injection Hsave as <-. injection H as <- <-.
  unfold static in *. simpl in *.
  injection Hs1 as -> -> -> -> -> -> -> -> ->.
  unfold checkpoint_of. simpl.
  rewrite Hp2, Htr2, Hfs2, Htr1, Hfs1, Ht1.
  repeat split; auto.
Qed.

Lemma DataLoader_inv (ds : list Item) (bs : Z) (flag : bool) (dl : DataLoaderT) :
  DataLoader ds bs flag = Ok dl ->
  dl_dataset dl = ds /\ dl_batch_size dl = Z.to_nat bs /\ (0 < bs)%Z
  /\ dl_shuffle dl = flag.
Proof.
  unfold DataLoader. destruct (Z.leb_spec bs 0); [discriminate|].
  destruct (flag && _); [discriminate|].
  intros [= <-]. auto.
Qed.

Lemma get_ds_inv (config : Config) (w : World) (tdl vdl : DataLoaderT)
  (ts tt : Tokenizer) (w1 : World) :
  get_ds config w = Ok (tdl, vdl, ts, tt, w1) ->
  dl_batch_size vdl = 1%nat
  /\ params w1 = params w /\ grads w1 = grads w /\ trace w1 = trace w
  /\ next_loc w1 = next_loc w.
Proof.
  unfold get_ds. intros H.
  inv_bind_as H as [tsrc fs1] Hsrc.
  inv_bind_as H as [ttgt fs2] Htgt.
  destruct (random_split _ _ _ _) as [train_raw val_raw].
  inv_bind_as H as u Hcheck. inv_bind_as H as dl1 Hdl1. inv_bind_as H as dl2 Hdl2.
  injection H as <- <- <- <- <-.
  apply DataLoader_inv in Hdl2 as (_ & -> & _). auto.
Qed.

Lemma Adam_inv (ps : list nat) (lr eps : R) (o : Optimizer) :
  Adam ps lr eps = Ok o ->
  opt_params o = ps /\ opt_lr o = lr /\ opt_eps o = eps /\ opt_state o = ∅
  /\ ps <> [].
Proof. destruct ps; simpl; [discriminate|]. intros [= <-]. auto. Qed.

Lemma optimizer_load_state_dict_inv (o o' : Optimizer) (sd : OptimizerStateDict) :
  optimizer_load_state_dict o sd = Ok o' ->
  opt_params o' = opt_params o
  /\ opt_lr o' = sd_lr sd /\ opt_eps o' = sd_eps sd
  /\ opt_state o' = restore_state (opt_params o) (sd_state sd)
  /\ length (sd_state sd) = length (opt_params o).
Proof.
  unfold optimizer_load_state_dict.
  destruct (Nat.eqb_spec (length (sd_state sd)) (length (opt_params o)));
    [|discriminate].
  intros [= <-]. auto.
Qed.

(** What [setup] returns, statement by statement. *)
Lemma setup_inv (config : Config) (w : World) (st : TrainState) (w0 : World) :
  setup config w = Ok (st, w0) ->
  exists tdl vdl ts tt w1 teacher w2 student w3 opt0,
    get_ds config w = Ok (tdl, vdl, ts, tt, w1)
    /\ get_model config (get_vocab_size ts) (get_vocab_size tt) w1
       = (teacher, w2)
    /\ get_model_distillation config (get_vocab_size ts) (get_vocab_size tt) w2
       = (student, w3)
    /\ Adam (parameters student) (lr config) (/ 10 ^ 9)%R = Ok opt0
    /\ train_dataloader st = tdl /\ val_dataloader st = vdl
    /\ tokenizer_src st = ts /\ tokenizer_tgt st = tt
    /\ teacher_model st = teacher /\ student_model st = student
    /\ model_filename st = choose_model_filename config (fs w3)
    /\ loss_fn st
       = {| ignore_index := token_to_id ts "[PAD]";
            label_smoothing := (1 / 10)%R |}
    /\ ((truthy (model_filename st) = false /\ w0 = w3 /\ optimizer st = opt0
         /\ initial_epoch st = 0%Z /\ global_step st = 0%Z)
        \/ (truthy (model_filename st) = true
            /\ exists c P,
                torch_load (latest_weights_file_path config (fs w3)) (fs w3)
                = Ok c
                /\ load_state_dict teacher (ck_model_state_dict c) (params w3)
                   = Ok P
                /\ optimizer_load_state_dict opt0 (ck_optimizer_state_dict c)
                   = Ok (optimizer st)
                /\ w0 = set_params w3 P
                /\ initial_epoch st = (ck_epoch c + 1)%Z
                /\ global_step st = ck_global_step c)).
Proof.
  unfold setup. intros H.
  inv_bind_as H as [[[[tdl vdl] ts] tt] w1] Hds.
  destruct (get_model config _ _ w1) as [teacher w2] eqn:Hteacher.
  destruct (get_model_distillation config _ _ w2) as [student w3] eqn:Hstudent.
  inv_bind_as H as opt0 Hopt.
  inv_bind_as H as [[[wl o] ie] gs] Hx1.
  injection H as <- <-. simpl.
  exists tdl, vdl, ts, tt, w1, teacher, w2, student, w3, opt0.
  repeat (split; [solve [auto]|]).
  destruct (truthy (choose_model_filename config (fs w3))).
  - right. split; [reflexivity|].
    inv_bind_as Hx1 as c Hc. inv_bind_as Hx1 as P HP.
    inv_bind_as Hx1 as o' Ho'. injection Hx1 as <- <- <- <-.
    exists c, P. repeat split; auto.
  - left. injection Hx1 as <- <- <- <-. repeat split; auto.
Qed.

Lemma NoDup_seq' (a n : nat) : NoDup (seq a n).
Proof. apply NoDup_ListNoDup, List.seq_NoDup. Qed.

Lemma setup_models (config : Config) (w : World) (st : TrainState) (w0 : World) :
  setup config w = Ok (st, w0) ->
  exists vs vt seed_t seed_s n k m w3,
    let teacher_built :=
      build_transformer vs vt (seq_len config) (seq_len config)
        (d_model config) seed_t in
    let student_built :=
      build_student_transformer vs vt (seq_len config) (seq_len config)
        (d_model config / 2)%Z seed_s in
    vs = get_vocab_size (tokenizer_src st)
    /\ vt = get_vocab_size (tokenizer_tgt st)
    /\ parameters (teacher_model st) = seq n k
    /\ parameters (student_model st) = seq (n + k) m
    /\ net (teacher_model st) = snd teacher_built
    /\ net (student_model st) = snd student_built
    /\ state_dict (student_model st) (params w3) = fst student_built
    /\ trace w3 = trace w
    /\ fs w0 = fs w3 /\ trace w0 = trace w3 /\ grads w0 = grads w3
    /\ (forall l, l ∉ parameters (teacher_model st) ->
          params w0 !! l = params w3 !! l).
Proof.
  intros H. apply setup_inv in H
    as (tdl & vdl & ts & tt & w1 & teacher & w2 & student & w3 & opt0
        & Hds & Hteacher & Hstudent & Hopt & _ & _ & Hts & Htt & Htm & Hsm & _
        & _ & Hbranch).
  apply get_ds_inv in Hds as (_ & _ & _ & Htr1 & _).
  unfold get_model in Hteacher. unfold get_model_distillation in Hstudent.
  apply new_model_spec in Hteacher
    as (Hpt & Hnext & _ & _ & Hnett & _ & _ & Htr2).
  apply new_model_spec in Hstudent
    as (Hps & _ & _ & Hsds & Hnets & _ & _ & Htr3).
  exists (get_vocab_size ts), (get_vocab_size tt), (rng w1), (rng w2),
    (next_loc w1), (length (fst (build_transformer (get_vocab_size ts)
       (get_vocab_size tt) (seq_len config) (seq_len config) (d_model config)
       (rng w1)))),
    (length (fst (build_student_transformer (get_vocab_size ts)
       (get_vocab_size tt) (seq_len config) (seq_len config)
       (d_model config / 2)%Z (rng w2)))), w3.
  simpl. rewrite Hts, Htt, Htm, Hsm, Hpt, Hps, Hnext.
  repeat (split; [solve [auto | congruence]|]).
  destruct Hbranch as [(_ & -> & _)|(_ & c & P & _ & Hload & _ & -> & _)].
  - auto.
  - simpl. repeat split; auto.
    intros l Hl. apply (load_state_dict_frame _ _ _ _ _ Hload).
    rewrite Hpt. exact Hl.
Qed.

Lemma setup_wf (config : Config) (w : World) (st : TrainState) (w0 : World) :
  setup config w = Ok (st, w0) -> wf st.
Proof.
  intros H. pose proof (setup_models _ _ _ _ H)
    as (vs & vt & seed_t & seed_s & n & k & m & w3 & _ & _ & Hpt & Hps & _).
  apply setup_inv in H
    as (tdl & vdl & ts & tt & w1 & teacher & w2 & student & w3' & opt0
        & Hds & _ & _ & Hopt & _ & Hvdl & _ & _ & _ & Hsm & _ & _ & Hbranch).
  apply get_ds_inv in Hds as (Hone & _).
  apply Adam_inv in Hopt as (Hop & _).
  unfold wf. rewrite Hpt, Hps, Hvdl.
  assert (Ho : opt_params (optimizer st) = seq (n + k) m).
  { rewrite <- Hps, Hsm.
    destruct Hbranch as [(_ & _ & -> & _)|(_ & c & P & _ & _ & Hload & _)].
    - exact Hop.
    - apply optimizer_load_state_dict_inv in Hload as (-> & _). exact Hop. }
  repeat split; auto using NoDup_seq'.
  intros l Hl1 Hl2.
  apply elem_of_seq in Hl1. apply elem_of_seq in Hl2. lia.
Qed.

(** *** The steps of a run *)

Lemma state_dict_agree (m : Model) (P P' : gmap nat Tensor) :
  (forall l, l ∈ parameters m -> P' !! l = P !! l) ->
  state_dict m P' = state_dict m P.
Proof.
  unfold state_dict, parameters. intros H.
  induction (named_parameters m) as [|[name l] nps IH]; simpl in *; [reflexivity|].
  rewrite IH by (intros l' Hl'; apply H; right; exact Hl').
  rewrite !lookup_total_alt, H by left. reflexivity.
Qed.

Lemma steps_of_batches_inv (batches : list Batch) (st : TrainState) (w : World)
  (st' : TrainState) (batch : Batch) (w' : World) :
  (st', batch, w') ∈ steps_of_batches st batches w ->
  static st' = static st
  /\ teacher_model st' = teacher_model st
  /\ (forall l, l ∉ opt_params (optimizer st) -> params w' !! l = params w !! l).
Proof.
  revert st w. induction batches as [|b batches IH]; intros st w H; simpl in H.
  - apply elem_of_nil in H. destruct H.
  - apply elem_of_cons in H as [[= -> -> ->]|H]; [auto|].
    destruct (train_step st b w) as [[st1 w1]| |] eqn:Hstep;
      try (apply elem_of_nil in H; destruct H).
    apply train_step_inv in Hstep as (Hs1 & Ht1 & _ & _ & _ & _ & _ & Hp1 & _).
    apply IH in H as (Hs & Ht & Hp).
    assert (Hopt : opt_params (optimizer st1) = opt_params (optimizer st))
      by (unfold static in Hs1; congruence).
    repeat split; try congruence.
    intros l Hl. rewrite Hp by (rewrite Hopt; exact Hl). apply Hp1. exact Hl.
Qed.

Lemma steps_of_epochs_inv (fuel : nat) (config : Config) (epochs : list Z)
  (st : TrainState) (w : World) (st' : TrainState) (batch : Batch) (w' : World) :
  (st', batch, w') ∈ steps_of_epochs fuel config st epochs w ->
  static st' = static st
  /\ training (teacher_model st') = false
  /\ (forall l, l ∉ opt_params (optimizer st) -> params w' !! l = params w !! l).
Proof.
  revert st w. induction epochs as [|epoch epochs IH]; intros st w H; simpl in H.
  - apply elem_of_nil in H. destruct H.
  - apply elem_of_app in H as [H|H].
    + unfold steps_of_epoch, begin_epoch in H.
      apply steps_of_batches_inv in H as (Hs & Ht & Hp).
      repeat split.
      * rewrite Hs. reflexivity.
      * rewrite Ht. reflexivity.
      * exact Hp.
    + destruct (train_epoch fuel config st epoch w) as [[st1 w1]| |] eqn:He;
        try (apply elem_of_nil in H; destruct H).
      apply train_epoch_inv in He as (Hs1 & _ & _ & Hp1 & _).
      apply IH in H as (Hs & Ht & Hp).
      assert (Hopt : opt_params (optimizer st1) = opt_params (optimizer st))
        by (unfold static in Hs1; congruence).
      repeat split; try congruence.
      intros l Hl. rewrite Hp by (rewrite Hopt; exact Hl). apply Hp1. exact Hl.
Qed.

(** Every step of a run is made from a well-formed state, with the teacher
    in eval mode and holding the weights it had after the set-up. *)
Lemma training_steps_inv (fuel : nat) (config : Config) (w : World)
  (st : TrainState) (batch : Batch) (w1 : World) :
  (st, batch, w1) ∈ training_steps fuel config w ->
  exists st0 w0,
    setup config w = Ok (st0, w0)
    /\ static st = static st0
    /\ wf st
    /\ training (teacher_model st) = false
    /\ state_dict (teacher_model st) (params w1)
       = state_dict (teacher_model st0) (params w0).
Proof.
  unfold training_steps. intros H.
  destruct (setup config w) as [[st0 w0]| |] eqn:Hsetup;
    try (apply elem_of_nil in H; destruct H).
  pose proof (setup_wf _ _ _ _ Hsetup) as Hwf.
  apply steps_of_epochs_inv in H as (Hs & Ht & Hp).
  exists st0, w0. split; [reflexivity|]. split; [exact Hs|].
  split; [exact (wf_static _ _ Hs Hwf)|]. split; [exact Ht|].
  destruct Hwf as (Hopt & Hdisj & _).
  assert (Hnp : named_parameters (teacher_model st)
                = named_parameters (teacher_model st0))
    by (unfold static in Hs; congruence).
  unfold state_dict at 1. rewrite Hnp. fold (state_dict (teacher_model st0) (params w1)).
  apply state_dict_agree. intros l Hl. apply Hp. rewrite Hopt. apply Hdisj, Hl.
Qed.

(** C2.  At every training step of a run the teacher is in eval mode, and
    the step leaves the teacher model, its weight tensors and their [.grad]
    as they were: the only tensors of the store the step may change are the
    student's parameters. *)
Theorem teacher_frozen_in_every_step (fuel : nat) (config : Config) (w : World)
  (st : TrainState) (batch : Batch) (w1 : World) :
  (st, batch, w1) ∈ training_steps fuel config w ->
  training (teacher_model st) = false
  /\ forall st' w',
       train_step st batch w1 = Ok (st', w') ->
       teacher_model st' = teacher_model st
       /\ state_dict (teacher_model st') (params w')
          = state_dict (teacher_model st) (params w1)
       /\ (forall l, l ∈ parameters (teacher_model st) ->
             grads w' !! l = grads w1 !! l)
       /\ (forall l, l ∉ parameters (student_model st) ->
             params w' !! l = params w1 !! l).
Proof.
  intros H. apply training_steps_inv in H
    as (st0 & w0 & _ & _ & (Hopt & Hdisj & _) & Heval & _).
  split; [exact Heval|].
  intros st' w' Hstep.
  apply train_step_inv in Hstep as (_ & Ht & _ & _ & _ & _ & _ & Hp & Hg).
  rewrite Hopt in Hp, Hg.
  split; [exact Ht|]. split; [|split].
  - rewrite Ht. apply state_dict_agree. intros l Hl. apply Hp, Hdisj, Hl.
  - intros l Hl. apply Hg; apply Hdisj, Hl.
  - exact Hp.
Qed.

(** *** Checkpoints and quantization *)

Definition checkpoint_event (config : Config) (epoch : Z) (c : Checkpoint) : Event :=
  SaveCheckpoint (get_weights_file_path config (format_02d epoch)) c.

(** The epochs of a run as far as their training went: the epoch number
    with the local state and the world right after the last training step of
    that epoch, before its validation and its save. *)
Fixpoint trained_epochs (fuel : nat) (config : Config) (st : TrainState)
  (epochs : list Z) (w : World) : list (Z * TrainState * World) :=
  match epochs with
  | [] => []
  | epoch :: epochs' =>
      let '(st1, batches, w1) := begin_epoch st w in
      match train_batches st1 batches w1 with
      | Ok (stb, wb) =>
          (epoch, stb, wb) ::
          match train_epoch fuel config st epoch w with
          | Ok (st', w') => trained_epochs fuel config st' epochs' w'
          | _ => []
          end
      | _ => []
      end
  end.

(** The student's state dict after the last of these epochs, or the given
    one when there was none. *)
Definition last_student (ends : list (Z * TrainState * World))
  (sd0 : StateDict) : StateDict :=
  match last ends with
  | Some (_, stb, wb) => state_dict (student_model stb) (params wb)
  | None => sd0
  end.

Lemma train_epoch_trained (fuel : nat) (config : Config) (st : TrainState)
  (epoch : Z) (w : World) (st' : TrainState) (w' : World) :
  train_epoch fuel config st epoch w = Ok (st', w') ->
  exists stb wb,
    (let '(st1, batches, w1) := begin_epoch st w in
     train_batches st1 batches w1) = Ok (stb, wb)
    /\ checkpoint_of epoch st' w' = checkpoint_of epoch stb wb
    /\ state_dict (student_model st') (params w')
       = state_dict (student_model stb) (params wb)
    /\ st' = set_models stb (teacher_model stb) (eval_mode (student_model stb))
               (Some (get_weights_file_path config (format_02d epoch))).
Proof.
  unfold train_epoch, begin_epoch. intros H.
  inv_bind_as H as [stb wb] Hb.
  inv_bind_as H as [[student texts] w2] Hval.
  apply run_validation_inv in Hval as (-> & _ & Hp2 & _).
  inv_bind_as H as w3 Hsave. unfold save_checkpoint in Hsave.
  destruct (writable _ _); [|discriminate].
  injection Hsave as <-. injection H as <- <-.
  exists stb, wb. split; [exact Hb|].
  unfold checkpoint_of. simpl. rewrite Hp2. auto.
Qed.

Lemma train_epochs_trace (fuel : nat) (config : Config) (epochs : list Z)
  (st : TrainState) (w : World) (st' : TrainState) (w' : World) :
  train_epochs fuel config st epochs w = Ok (st', w') ->
  let ends := trained_epochs fuel config st epochs w in
  map (fun e => fst (fst e)) ends = epochs
  /\ trace w'
     = trace w
       ++ map (fun e => checkpoint_event config (fst (fst e))
                          (checkpoint_of (fst (fst e)) (snd (fst e)) (snd e)))
            ends
  /\ state_dict (student_model st') (params w')
     = last_student ends (state_dict (student_model st) (params w)).
Proof.
  revert st w. induction epochs as [|epoch epochs IH]; intros st w H; simpl in H.
  - injection H as <- <-. simpl. rewrite app_nil_r. auto.
  - inv_bind_as H as [st1 w1] Hepoch.
    destruct (train_epoch_trained _ _ _ _ _ _ _ Hepoch)
      as (stb & wb & Hb & Hck & Hsd & _).
    pose proof (train_epoch_inv _ _ _ _ _ _ _ Hepoch) as (_ & _ & _ & _ & Htr1 & _).
    destruct (IH _ _ H) as (Hepochs & Htr & Hlast).
    cbn [trained_epochs]. destruct (begin_epoch st w) as [[st0 batches] w0].
    rewrite Hb, Hepoch. cbn [map fst snd].
    split; [rewrite Hepochs; reflexivity|]. split.
    + rewrite Htr, Htr1, Hck, <- app_assoc. reflexivity.
    + rewrite Hlast. unfold last_student. rewrite last_cons.
      destruct (last (trained_epochs fuel config st1 epochs w1))
        as [[[e stl] wl]|]; [reflexivity|exact Hsd].
Qed.

Lemma quantize_and_save_inv (config : Config) (st : TrainState) (w w' : World) :
  quantize_and_save config st w = Ok w' ->
  let sd := quantize_dynamic (state_dict (student_model st) (params w))
              [Linear] qint8 in
  let path := get_weights_file_path config "quantized_model" in
  trace w' = trace w ++ [QuantizeDynamic [Linear] qint8; SaveStateDict path sd]
  /\ fs w' = <[path := StateDictFile sd]> (fs w).
Proof.
  unfold quantize_and_save. intros H.
  inv_bind_as H as u Hsize. inv_bind_as H as w1 Hsave.
  unfold save_state_dict in Hsave.
  destruct (writable _ _); [|discriminate]. injection Hsave as <-.
  inv_bind_as H as u' Hsize'.
  injection H as <-. simpl. rewrite <- app_assoc. auto.
Qed.

(** C6.  A run that completes has written, in this order: one checkpoint per
    epoch of [range(initial_epoch, num_epochs)], each holding the epoch
    number, the state dict of the (unquantized) student as it is right after
    the last training step of that epoch, and the optimizer state and global
    step of that moment; then one [quantize_dynamic] call for the Linear
    layers with dtype qint8 on the student's state dict after the last epoch;
    then one save of the quantized state dict, which is what the quantized
    model's file holds at the end. *)
Theorem checkpoint_per_epoch_then_quantize_once (fuel : nat) (config : Config)
  (w w' : World) :
  train_model fuel config w = Ok w' ->
  exists st0 w0,
    setup config w = Ok (st0, w0)
    /\ let epochs := range (initial_epoch st0) (num_epochs config) in
       let ends := trained_epochs fuel config st0 epochs w0 in
       let quantized :=
         quantize_dynamic
           (last_student ends (state_dict (student_model st0) (params w0)))
           [Linear] qint8 in
       let quantized_path := get_weights_file_path config "quantized_model" in
       map (fun e => fst (fst e)) ends = epochs
       /\ trace w'
          = trace w
            ++ map (fun e =>
                      SaveCheckpoint
                        (get_weights_file_path config (format_02d (fst (fst e))))
                        {| ck_epoch := fst (fst e);
                           ck_model_state_dict :=
                             state_dict (student_model (snd (fst e)))
                               (params (snd e));
                           ck_optimizer_state_dict :=
                             optimizer_state_dict (optimizer (snd (fst e)));
                           ck_global_step := global_step (snd (fst e)) |})
                 ends
            ++ [QuantizeDynamic [Linear] qint8;
                SaveStateDict quantized_path quantized]
       /\ fs w' !! quantized_path = Some (StateDictFile quantized).
Proof.
  unfold train_model. intros H.
  inv_bind_as H as [st0 w0] Hsetup.
  inv_bind_as H as [st1 w1] Hepochs.
  pose proof (setup_models _ _ _ _ Hsetup)
    as (vs & vt & seed_t & seed_s & n & k & m & w3 & _ & _ & _ & _ & _ & _ & _
        & Htr3 & _ & Htr0 & _).
  apply train_epochs_trace in Hepochs as (Hep & Htr & Hlast).
  apply quantize_and_save_inv in H as (Htrq & Hfsq).
  exists st0, w0. split; [exact Hsetup|]. cbv zeta.
  split; [exact Hep|]. rewrite <- Hlast. split.
  - rewrite Htrq, Htr, Htr0, Htr3, <- app_assoc. reflexivity.
  - rewrite Hfsq. apply lookup_insert_eq.
Qed.

(** *** What the set-up loads, and what it does not *)

Lemma restore_state_notin (ps : list nat) (states : list (option AdamState))
  (l : nat) : l ∉ ps -> restore_state ps states !! l = None.
Proof.
  revert states. induction ps as [|p ps IH]; intros states Hl; simpl.
  - destruct states; apply lookup_empty.
  - apply not_elem_of_cons in Hl as [Hne Hl].
    destruct states as [|[a|] states]; [apply lookup_empty| |apply IH, Hl].
    rewrite lookup_insert_ne by congruence. apply IH, Hl.
Qed.

Lemma restore_state_lookup (ps : list nat) (states : list (option AdamState)) :
  NoDup ps -> length states = length ps ->
  map (fun l => restore_state ps states !! l) ps = states.
Proof.
  revert states. induction ps as [|p ps IH]; intros states Hnd Hlen.
  - destruct states; [reflexivity|discriminate].
  - destruct states as [|s states]; [discriminate|].
    apply NoDup_cons in Hnd as [Hnotin Hnd]. injection Hlen as Hlen.
    cbn [map]. f_equal.
    + destruct s as [a|]; simpl.
      * apply lookup_insert_eq.
      * apply restore_state_notin, Hnotin.
    + transitivity (map (fun l => restore_state ps states !! l) ps);
        [|exact (IH states Hnd Hlen)].
      apply map_ext_in. intros l Hl.
      destruct s as [a|]; simpl; [|reflexivity].
      apply lookup_insert_ne. intros ->.
      apply Hnotin, list_elem_of_In, Hl.
Qed.

(** The student's tensors after the set-up are the ones its builder made,
    whether or not a checkpoint was loaded. *)
Lemma setup_student_fresh (config : Config) (w : World) (st : TrainState)
  (w0 : World) :
  setup config w = Ok (st, w0) ->
  exists seed_t seed_s,
    let vs := get_vocab_size (tokenizer_src st) in
    let vt := get_vocab_size (tokenizer_tgt st) in
    net (teacher_model st)
    = snd (build_transformer vs vt (seq_len config) (seq_len config)
             (d_model config) seed_t)
    /\ net (student_model st)
       = snd (build_student_transformer vs vt (seq_len config) (seq_len config)
                (d_model config / 2)%Z seed_s)
    /\ state_dict (student_model st) (params w0)
       = fst (build_student_transformer vs vt (seq_len config) (seq_len config)
                (d_model config / 2)%Z seed_s).
Proof.
  intros H. pose proof (setup_wf _ _ _ _ H) as (_ & Hdisj & _).
  apply setup_models in H
    as (vs & vt & seed_t & seed_s & n & k & m & w3 & -> & -> & _ & _ & Hnt & Hns
        & Hsd & _ & _ & _ & _ & Hframe).
  exists seed_t, seed_s. simpl. split; [exact Hnt|]. split; [exact Hns|].
  rewrite <- Hsd. apply state_dict_agree.
  intros l Hl. apply Hframe. intros Ht. exact (Hdisj l Ht Hl).
Qed.

(** With a model file name chosen for preloading, a successful set-up has
    read the latest checkpoint, copied its weights into the teacher and its
    optimizer state, epoch and step count into the run. *)
Lemma setup_preload (config : Config) (w : World) (st : TrainState) (w0 : World) :
  setup config w = Ok (st, w0) ->
  truthy (model_filename st) = true ->
  exists c,
    torch_load (latest_weights_file_path config (fs w0)) (fs w0) = Ok c
    /\ Forall (fun nl => exists t,
                 assoc (fst nl) (ck_model_state_dict c) = Some t
                 /\ params w0 !! snd nl = Some t)
         (named_parameters (teacher_model st))
    /\ optimizer_state_dict (optimizer st) = ck_optimizer_state_dict c
    /\ initial_epoch st = (ck_epoch c + 1)%Z
    /\ global_step st = ck_global_step c.
Proof.
  intros H Htruthy.
  pose proof (setup_wf _ _ _ _ H) as (Hopt & _ & Hndt & Hnds & _).
  apply setup_inv in H
    as (tdl & vdl & ts & tt & w1 & teacher & w2 & student & w3 & opt0
        & _ & _ & _ & HAdam & _ & _ & _ & _ & Htm & Hsm & _ & _ & Hbranch).
  destruct Hbranch as [(Hfalse & _)|(_ & c & P & Hload & Hcopy & Hoload & -> & Hie & Hgs)];
    [congruence|].
  exists c. simpl. split; [exact Hload|]. split; [|split; [|auto]].
  - rewrite Htm. unfold load_state_dict in Hcopy.
    destruct (forallb _ _); [|discriminate].
    apply (copy_params_loaded _ _ _ _ Hcopy).
    rewrite <- Htm. exact Hndt.
  - apply optimizer_load_state_dict_inv in Hoload as (Hps & Hlr & Heps & Hst & Hlen).
    apply Adam_inv in HAdam as (Hps0 & _).
    unfold optimizer_state_dict. rewrite Hlr, Heps, Hst, Hps.
    destruct (ck_optimizer_state_dict c) as [states lr' eps']. simpl in *.
    f_equal. apply restore_state_lookup; [|exact Hlen].
    rewrite Hps0, <- Hsm. exact Hnds.
Qed.

(** C7.  The student is built by [build_student_transformer] with the
    configured [d_model] halved (integer division) where the teacher is built
    with the configured [d_model], and after the set-up, preloading or not,
    its tensors are the initial ones of its builder. *)
Theorem student_half_width_from_scratch (config : Config) (w : World)
  (st : TrainState) (w0 : World) :
  setup config w = Ok (st, w0) ->
  exists seed_t seed_s student_d_model,
    let vs := get_vocab_size (tokenizer_src st) in
    let vt := get_vocab_size (tokenizer_tgt st) in
    (2 * student_d_model <= d_model config < 2 * student_d_model + 2)%Z
    /\ net (teacher_model st)
       = snd (build_transformer vs vt (seq_len config) (seq_len config)
                (d_model config) seed_t)
    /\ net (student_model st)
       = snd (build_student_transformer vs vt (seq_len config) (seq_len config)
                student_d_model seed_s)
    /\ state_dict (student_model st) (params w0)
       = fst (build_student_transformer vs vt (seq_len config) (seq_len config)
                student_d_model seed_s).
Proof.
  intros H. apply setup_student_fresh in H as (seed_t & seed_s & Ht & Hs & Hsd).
  exists seed_t, seed_s, (d_model config / 2)%Z. simpl.
  split; [|auto].
  pose proof (Z.div_mod (d_model config) 2 ltac:(lia)).
  pose proof (Z.mod_pos_bound (d_model config) 2 ltac:(lia)). lia.
Qed.

(** *** The assertion of run_validation *)

Lemma get_or_build_tokenizer_no_assertion (config : Config) (ds : list RawItem)
  (lang : string) (f : FileSystem) :
  get_or_build_tokenizer format word_level_vocab writable config ds lang f
  <> Raise AssertionError.
Proof.
  unfold get_or_build_tokenizer.
  destruct (negb _).
  - apply bind_no_raise.
    { apply mapM_no_raise. intros item. destruct (item !! lang); discriminate. }
    intros sentences. apply bind_no_raise; [|discriminate].
    unfold save. destruct (writable _ _); discriminate.
  - apply bind_no_raise; [|discriminate].
    unfold from_file. destruct (f !! _) as [[]|]; discriminate.
Qed.

Lemma get_ds_no_assertion (config : Config) (w : World) :
  get_ds config w <> Raise AssertionError.
Proof.
  unfold get_ds.
  apply bind_no_raise; [apply get_or_build_tokenizer_no_assertion|].
  intros [tsrc fs1].
  apply bind_no_raise; [apply get_or_build_tokenizer_no_assertion|].
  intros [ttgt fs2].
  destruct (random_split _ _ _ _) as [train_raw val_raw].
  apply bind_no_raise.
  { apply mapM_no_raise. intros item.
    destruct (item !! lang_src config), (item !! lang_tgt config); discriminate. }
  intros _.
  apply bind_no_raise.
  { unfold DataLoader. destruct (_ <=? _)%Z; [discriminate|].
    destruct (_ && _); discriminate. }
  intros tdl. apply bind_no_raise; [|discriminate].
  unfold DataLoader. destruct (_ <=? _)%Z; [discriminate|].
  destruct (_ && _); discriminate.
Qed.

Lemma copy_params_no_assertion (nps : list (string * nat)) (sd : StateDict)
  (P : gmap nat Tensor) : copy_params nps sd P <> Raise AssertionError.
Proof.
  revert P. induction nps as [|[name l] nps IH]; intros P; simpl; [discriminate|].
  destruct (assoc name sd); [|discriminate].
  destruct (shape_eqb _ _); [apply IH|discriminate].
Qed.

Lemma setup_no_assertion (config : Config) (w : World) :
  setup config w <> Raise AssertionError.
Proof.
  unfold setup.
  apply bind_no_raise; [apply get_ds_no_assertion|].
  intros [[[[tdl vdl] ts] tt] w1].
  destruct (get_model config _ _ w1) as [teacher w2].
  destruct (get_model_distillation config _ _ w2) as [student w3].
  apply bind_no_raise.
  { unfold Adam. destruct (parameters student); discriminate. }
  intros opt0. apply bind_no_raise.
  - destruct (truthy _); [|discriminate].
    apply bind_no_raise.
    { unfold torch_load. destruct (latest_weights_file_path _ _); [|discriminate].
      destruct (fs w3 !! _) as [[]|]; discriminate. }
    intros c. apply bind_no_raise.
    { unfold load_state_dict. destruct (forallb _ _); [|discriminate].
      apply copy_params_no_assertion. }
    intros P. apply bind_no_raise; [|discriminate].
    unfold optimizer_load_state_dict. destruct (_ =? _)%nat; discriminate.
  - intros [[[wl o] ie] gs]. discriminate.
Qed.

Lemma nll_rows_no_assertion (ignore : Z) (rows : Tensor2) (labels : list Z) :
  nll_rows ignore rows labels <> Raise AssertionError.
Proof.
  revert labels. induction rows as [|row rows IH]; intros labels; simpl;
    [discriminate|].
  destruct labels as [|y labels]; [discriminate|].
  unfold nll_row.
  destruct (y =? ignore)%Z.
  - specialize (IH labels). destruct (nll_rows ignore rows labels); congruence.
  - destruct (_ && _); [|discriminate].
    specialize (IH labels). destruct (nll_rows ignore rows labels); congruence.
Qed.

Lemma knowledge_distillation_loss_no_assertion (s t : Tensor2) (labels : list Z)
  (T a : R) : knowledge_distillation_loss s t labels T a <> Raise AssertionError.
Proof.
  unfold knowledge_distillation_loss, CrossEntropyLoss, CrossEntropyLoss_with.
  destruct (negb _); [discriminate|].
  pose proof (nll_rows_no_assertion default_ignore_index s labels).
  destruct (nll_rows default_ignore_index s labels); congruence.
Qed.

Lemma view_rows_no_assertion (width : Z) (flat : list R) :
  view_rows width flat <> Raise AssertionError.
Proof.
  unfold view_rows. destruct (_ <=? _)%Z; [discriminate|].
  destruct (_ =? _)%Z; discriminate.
Qed.

Lemma train_step_no_assertion (st : TrainState) (batch : Batch) (w : World) :
  train_step st batch w <> Raise AssertionError.
Proof.
  unfold train_step. apply bind_no_raise.
  - unfold distillation_objective.
    apply bind_no_raise; [apply view_rows_no_assertion|]. intros s.
    apply bind_no_raise; [apply view_rows_no_assertion|]. intros t.
    apply knowledge_distillation_loss_no_assertion.
  - intros loss. destruct (optimizer_step _ _ _). discriminate.
Qed.

Lemma train_batches_no_assertion (batches : list Batch) (st : TrainState)
  (w : World) : train_batches st batches w <> Raise AssertionError.
Proof.
  revert st w. induction batches as [|b batches IH]; intros st w; simpl;
    [discriminate|].
  apply bind_no_raise; [apply train_step_no_assertion|].
  intros [st1 w1]. apply IH.
Qed.

Lemma train_epoch_no_assertion (fuel : nat) (config : Config) (st : TrainState)
  (epoch : Z) (w : World) :
  dl_batch_size (val_dataloader st) = 1%nat ->
  train_epoch fuel config st epoch w <> Raise AssertionError.
Proof.
  intros Hone. unfold train_epoch, begin_epoch.
  apply bind_no_raise_Ok; [apply train_batches_no_assertion|].
  intros [st1 w1] Hb.
  apply train_batches_inv in Hb as (Hs & _).
  apply bind_no_raise.
  - apply run_validation_no_assertion.
    unfold static in Hs. simpl in Hs. injection Hs as _ -> _. exact Hone.
  - intros [[student texts] w3]. apply bind_no_raise; [|discriminate].
    unfold save_checkpoint. destruct (writable _ _); discriminate.
Qed.

Lemma train_epochs_no_assertion (fuel : nat) (config : Config) (epochs : list Z)
  (st : TrainState) (w : World) :
  dl_batch_size (val_dataloader st) = 1%nat ->
  train_epochs fuel config st epochs w <> Raise AssertionError.
Proof.
  revert st w. induction epochs as [|epoch epochs IH]; intros st w Hone; simpl;
    [discriminate|].
  apply bind_no_raise_Ok; [apply train_epoch_no_assertion, Hone|].
  intros [st1 w1] He. apply IH.
  apply train_epoch_inv in He as (Hs & _).
  unfold static in Hs. injection Hs as _ -> _. exact Hone.
Qed.

Lemma train_model_no_assertion (fuel : nat) (config : Config) (w : World) :
  train_model fuel config w <> Raise AssertionError.
Proof.
  unfold train_model.
  apply bind_no_raise_Ok; [apply setup_no_assertion|].
  intros [st0 w0] Hsetup.
  apply bind_no_raise.
  - apply train_epochs_no_assertion.
    apply setup_wf in Hsetup as (_ & _ & _ & _ & Hone). exact Hone.
  - intros [st1 w1]. unfold quantize_and_save.
    apply bind_no_raise.
    { unfold getsize. destruct (model_filename st1); [|discriminate].
      destruct (fs w1 !! _); discriminate. }
    intros _. apply bind_no_raise.
    { unfold save_state_dict. destruct (writable _ _); discriminate. }
    intros w2. apply bind_no_raise; [|discriminate].
    unfold getsize. destruct (_ !! _); discriminate.
Qed.

(** C9.  The loader of the validation set that [get_ds] returns has batch
    size 1, so each of its batches holds exactly one example, the assertion
    of [run_validation] holds on it for whatever model it is run on, and no
    run of [train_model] ends in that AssertionError. *)
Theorem validation_assertion_never_fails (fuel : nat) (config : Config)
  (w : World) :
  (forall tdl vdl ts tt w1,
      get_ds config w = Ok (tdl, vdl, ts, tt, w1) ->
      dl_batch_size vdl = 1%nat
      /\ (forall seed,
            Forall (fun batch => length (encoder_input batch) = 1%nat)
              (iter_batches vdl seed))
      /\ (forall model tsrc ttgt max_len num_examples global_step writer w2,
            run_validation fuel model vdl tsrc ttgt max_len num_examples
              global_step writer w2
            <> Raise AssertionError))
  /\ train_model fuel config w <> Raise AssertionError.
Proof.
  split; [|apply train_model_no_assertion].
  intros tdl vdl ts tt w1 Hds.
  apply get_ds_inv in Hds as (Hone & _).
  split; [exact Hone|]. split.
  - intros seed. apply iter_batches_one, Hone.
  - intros. apply run_validation_no_assertion, Hone.
Qed.

(** *** The loss that is optimized *)

Definition with_loss_fn (st : TrainState) (lf : CrossEntropyLossModule)
  : TrainState :=
  {| train_dataloader := train_dataloader st;
     val_dataloader := val_dataloader st;
     tokenizer_src := tokenizer_src st;
     tokenizer_tgt := tokenizer_tgt st;
     teacher_model := teacher_model st;
     student_model := student_model st;
     optimizer := optimizer st;
     initial_epoch := initial_epoch st;
     global_step := global_step st;
     model_filename := model_filename st;
     loss_fn := lf;
     st_temperature := st_temperature st;
     st_alpha := st_alpha st |}.

Lemma view_rows_matrix (width : Z) (flat : list R) (s : Tensor2) :
  view_rows width flat = Ok s -> is_matrix (length s) (Z.to_nat width) s.
Proof.
  unfold view_rows.
  destruct (Z.leb_spec width 0) as [|Hpos]; [discriminate|].
  destruct (Z.eqb_spec (Z.of_nat (length flat) mod width) 0) as [Hmod|];
    [|discriminate].
  intros [= <-]. split; [reflexivity|].
  apply Z.mod_divide in Hmod as [k Hk]; [|lia].
  apply (chunks_aux_width _ _ _ (Z.to_nat k)); [lia|]. nia.
Qed.

Lemma nll_term_pos (row : Row) (y : Z) :
  (2 <= length row)%nat -> (0 <= y < Z.of_nat (length row))%Z ->
  (0 < - ln (nth (Z.to_nat y) (softmax_row row) 1))%R.
Proof.
  intros Hlen Hy.
  destruct (softmax_row_lt_1 row (Z.to_nat y) Hlen ltac:(lia)) as [Hp0 Hp1].
  pose proof (ln_increasing _ _ Hp0 Hp1) as Hln. rewrite ln_1 in Hln. lra.
Qed.

Lemma nll_term_prob_pos (N C : nat) (s : Tensor2) (labels : list Z) (i : nat) :
  is_matrix N C s -> length labels = N -> labels_in_range C labels ->
  (2 <= C)%nat -> (i < N)%nat ->
  (0 < - ln (prob C (entry s i) (Z.to_nat (nth i labels 0%Z))))%R.
Proof.
  intros Hs Hlen Hl HC Hi.
  pose proof (nth_row N C s i Hs Hi) as Hrow.
  assert (Hy : (0 <= nth i labels 0%Z < Z.of_nat C)%Z).
  { unfold labels_in_range in Hl. rewrite Forall_forall in Hl. apply Hl.
    apply list_elem_of_In, nth_In. lia. }
  pose proof (nll_term_pos (nth i s []) (nth i labels 0%Z)) as Hpos.
  rewrite softmax_row_prob, Hrow in Hpos by lia.
  apply Hpos; lia.
Qed.

(** C10.  A training step that goes through back-propagates, and sends to
    the writer as its train loss, the distillation objective of the batch:
    the parameters after the step are those of the optimizer step on the
    gradients of that objective.  The objective is the same whatever
    criterion is held in [loss_fn], which no step reads.  On student and
    teacher logits of one shape, of vocabulary width at least 2, with labels
    that index a token, it is [alpha] times the mean over all label positions
    of the negative log-likelihood plus the distillation term: every
    position, whatever its label, the [PAD] id included, adds a positive
    term. *)
Theorem training_loss_counts_padding (st : TrainState) (batch : Batch)
  (w : World) (st' : TrainState) (w' : World) :
  let seed := rng w in
  let teacher_logits := forward (teacher_model st) (params w) seed batch in
  let objective := distillation_objective st batch seed teacher_logits in
  let width := get_vocab_size (tokenizer_tgt st) in
  let labels := concat (label batch) in
  train_step st batch w = Ok (st', w') ->
  (exists loss,
      objective (params w) = Ok loss
      /\ summary w' = summary w ++ [("train loss"%string, loss, global_step st)])
  /\ params w'
     = fst (optimizer_step (optimizer st) (params w)
              (backward objective (parameters (student_model st))
                 (params w) (grads w)))
  /\ (forall lf,
        distillation_objective (with_loss_fn st lf) batch seed teacher_logits
        = objective
        /\ train_step (with_loss_fn st lf) batch w
           = Ok (with_loss_fn st' lf, w'))
  /\ (forall P s t,
        view_rows width
          (concat (concat (forward (student_model st) P seed batch))) = Ok s ->
        view_rows width (concat (concat teacher_logits)) = Ok t ->
        length t = length s ->
        length labels = length s ->
        labels_in_range (Z.to_nat width) labels ->
        (1 <= length s)%nat ->
        st_temperature st <> 0%R ->
        (2 <= width)%Z ->
        objective P
        = Ok (kd_loss_spec (length s) (Z.to_nat width) s t labels
                (st_temperature st) (st_alpha st))
        /\ forall i, (i < length s)%nat ->
             (0 < - ln (prob (Z.to_nat width) (entry s i)
                          (Z.to_nat (nth i labels 0%Z))))%R).
Proof.
  intros seed teacher_logits objective width labels H.
  assert (Hlf : forall lf,
            distillation_objective (with_loss_fn st lf) batch seed teacher_logits
            = objective) by reflexivity.
  unfold train_step in H. fold seed in H.
  change (params (tick_rng w)) with (params w) in H.
  fold teacher_logits in H. fold objective in H.
  rewrite app_nil_r in H.
  destruct (objective (params w)) as [loss| |] eqn:Hloss; simpl in H;
    try discriminate.
  destruct (optimizer_step (optimizer st) (params w)
              (backward objective (parameters (student_model st)) (params w)
                 (grads w))) as [P' o'] eqn:Hopt.
  injection H as <- <-.
  split; [exists loss; split; reflexivity|].
  split; [reflexivity|]. split.
  - intros lf. split; [apply Hlf|].
    unfold train_step. fold seed.
    change (params (tick_rng w)) with (params w).
    change (teacher_model (with_loss_fn st lf)) with (teacher_model st).
    fold teacher_logits. rewrite Hlf, Hloss. simpl. rewrite app_nil_r.
    change (optimizer (with_loss_fn st lf)) with (optimizer st).
    change (student_model (with_loss_fn st lf)) with (student_model st).
    rewrite Hopt. reflexivity.
  - intros P s t Hs Ht Hlent Hlen Hrange HN HT Hwidth.
    pose proof (view_rows_matrix _ _ _ Hs) as Hms.
    pose proof (view_rows_matrix _ _ _ Ht) as Hmt. rewrite Hlent in Hmt.
    split.
    + unfold objective, distillation_objective. fold width. rewrite Hs, Ht.
      simpl. fold labels.
      apply (knowledge_distillation_loss_value (length s) (Z.to_nat width));
        assumption.
    + intros i Hi.
      apply (nll_term_prob_pos (length s) (Z.to_nat width)); try assumption.
      lia.
Qed.

(** *** Checkpoints and preloading *)

(** What is saved and what a preload does with it.  The checkpoint written
    at the end of an epoch holds exactly the epoch number, the student's
    state dict, the optimizer's state dict and the global step.  A set-up
    that preloads and goes through has read the latest checkpoint and copied
    its model weights, the student's of the run that wrote it, into the
    teacher, whose tensors must have the saved shapes for that; the student
    keeps the initial tensors of its builder.  The optimizer's state dict is
    the saved one, and the run goes on from the saved epoch plus one with the
    saved global step. *)
Lemma checkpoint_fields_and_preload (fuel : nat) (config : Config) :
  (forall st epoch w st' w',
      train_epoch fuel config st epoch w = Ok (st', w') ->
      let path := get_weights_file_path config (format_02d epoch) in
      let c := {| ck_epoch := epoch;
                  ck_model_state_dict :=
                    state_dict (student_model st') (params w');
                  ck_optimizer_state_dict := optimizer_state_dict (optimizer st');
                  ck_global_step := global_step st' |} in
      fs w' !! path = Some (CheckpointFile c)
      /\ trace w' = trace w ++ [SaveCheckpoint path c])
  /\ (forall w st w0,
        setup config w = Ok (st, w0) ->
        truthy (model_filename st) = true ->
        exists c seed,
          torch_load (latest_weights_file_path config (fs w0)) (fs w0) = Ok c
          /\ Forall (fun nl => exists t,
                       assoc (fst nl) (ck_model_state_dict c) = Some t
                       /\ params w0 !! snd nl = Some t)
               (named_parameters (teacher_model st))
          /\ state_dict (student_model st) (params w0)
             = fst (build_student_transformer
                      (get_vocab_size (tokenizer_src st))
                      (get_vocab_size (tokenizer_tgt st))
                      (seq_len config) (seq_len config)
                      (d_model config / 2)%Z seed)
          /\ optimizer_state_dict (optimizer st) = ck_optimizer_state_dict c
          /\ global_step st = ck_global_step c
          /\ initial_epoch st = (ck_epoch c + 1)%Z
          /\ forall w',
               train_model fuel config w = Ok w' ->
               exists st1 w1,
                 train_epochs fuel config st
                   (range (ck_epoch c + 1) (num_epochs config)) w0
                 = Ok (st1, w1)).
Proof.
  split.
  - intros st epoch w st' w' H path c.
    apply train_epoch_inv in H as (_ & _ & _ & _ & Htr & Hfs).
    split; [|exact Htr]. rewrite Hfs. apply lookup_insert_eq.
  - intros w st w0 Hsetup Htruthy.
    destruct (setup_preload _ _ _ _ Hsetup Htruthy)
      as (c & Hload & Hteacher & Hopt & Hie & Hgs).
    destruct (setup_student_fresh _ _ _ _ Hsetup)
      as (seed_t & seed_s & _ & _ & Hfresh).
    exists c, seed_s. repeat (split; [assumption|]).
    intros w' Hrun. unfold train_model in Hrun. rewrite Hsetup in Hrun.
    simpl in Hrun. rewrite Hie in Hrun.
    destruct (train_epochs _ _ _ _ _) as [[st1 w1]| |]; [eauto|discriminate..].
Qed.

Lemma teacher_and_student_models (config : Config)
  (vocab_src_len vocab_tgt_len : Z) (w1 w2 w3 : World) (teacher student : Model) :
  get_model config vocab_src_len vocab_tgt_len w1 = (teacher, w2) ->
  get_model_distillation config vocab_src_len vocab_tgt_len w2 = (student, w3) ->
  state_dict teacher (params w3)
  = fst (build_transformer vocab_src_len vocab_tgt_len (seq_len config)
           (seq_len config) (d_model config) (rng w1))
  /\ state_dict student (params w3)
     = fst (build_student_transformer vocab_src_len vocab_tgt_len
              (seq_len config) (seq_len config) (d_model config / 2)%Z (rng w2)).
Proof.
  unfold get_model, get_model_distillation. intros Ht Hs.
  apply new_model_spec in Ht as (Hpt & Hnext & _ & Hsdt & _).
  apply new_model_spec in Hs as (Hps & _ & Hframe & Hsds & _).
  split; [|exact Hsds].
  rewrite <- Hsdt. apply state_dict_agree. intros l Hl.
  apply Hframe. left. rewrite Hpt in Hl. apply elem_of_seq in Hl. lia.
Qed.

(** C5, as the code has it.  When a model file is chosen for preloading,
    a set-up that goes through has loaded the teacher's tensors from a
    checkpoint; otherwise the teacher holds the initial tensors of its
    builder.  No training step precedes the set-up, and at every training
    step of the run, preloaded or not, the teacher is in eval mode and has
    the weights it had after the set-up. *)
Theorem teacher_preloaded_and_inference_only (fuel : nat) (config : Config)
  (w : World) (st0 : TrainState) (w0 : World) :
  setup config w = Ok (st0, w0) ->
  (truthy (model_filename st0) = true ->
   exists c,
     torch_load (latest_weights_file_path config (fs w0)) (fs w0) = Ok c
     /\ Forall (fun nl => exists t,
                  assoc (fst nl) (ck_model_state_dict c) = Some t
                  /\ params w0 !! snd nl = Some t)
          (named_parameters (teacher_model st0)))
  /\ (truthy (model_filename st0) = false ->
      exists seed,
        state_dict (teacher_model st0) (params w0)
        = fst (build_transformer (get_vocab_size (tokenizer_src st0))
                 (get_vocab_size (tokenizer_tgt st0)) (seq_len config)
                 (seq_len config) (d_model config) seed))
  /\ (forall st batch w1,
        (st, batch, w1) ∈ training_steps fuel config w ->
        training (teacher_model st) = false
        /\ state_dict (teacher_model st) (params w1)
           = state_dict (teacher_model st0) (params w0)).
Proof.
  intros Hsetup. split; [|split].
  - intros Htruthy.
    destruct (setup_preload _ _ _ _ Hsetup Htruthy) as (c & Hload & Hteacher & _).
    eauto.
  - intros Hfalse.
    pose proof (setup_inv _ _ _ _ Hsetup)
      as (tdl & vdl & ts & tt & w1 & teacher & w2 & student & w3 & opt0
          & _ & Hteacher & Hstudent & _ & _ & _ & Hts & Htt & Htm & _ & _ & _
          & Hbranch).
    destruct Hbranch as [(_ & -> & _)|(Htrue & _)]; [|congruence].
    destruct (teacher_and_student_models _ _ _ _ _ _ _ _ Hteacher Hstudent)
      as (Hsdt & _).
    exists (rng w1). rewrite Hts, Htt, Htm. exact Hsdt.
  - intros st batch w1 Hin.
    apply training_steps_inv in Hin as (st0' & w0' & Hsetup' & _ & _ & Heval & Hsd).
    rewrite Hsetup in Hsetup'. injection Hsetup' as <- <-. auto.
Qed.

(** *** Further properties: batching and validation *)

Lemma chunks_aux_concat {A : Type} (n fuel : nat) (l : list A) :
  (0 < n)%nat -> (length l <= fuel)%nat -> concat (chunks_aux fuel n l) = l.
Proof.
  intros Hn. revert l. induction fuel as [|fuel IH]; intros l Hlen; simpl.
  - destruct l; [reflexivity|simpl in Hlen; lia].
  - destruct l as [|a l]; [reflexivity|].
    cbn [concat]. rewrite IH.
    + apply take_drop.
    + rewrite length_drop. simpl in *. lia.
Qed.

Lemma chunks_aux_length {A : Type} (n fuel : nat) (l : list A) :
  (0 < n)%nat -> (length l <= fuel)%nat ->
  length (chunks_aux fuel n l) = ((length l + n - 1) / n)%nat.
Proof.
  intros Hn. revert l. induction fuel as [|fuel IH]; intros l Hlen.
  - destruct l; [|simpl in Hlen; lia]. simpl.
    symmetry. apply Nat.div_small. lia.
  - destruct l as [|a l].
    + simpl. symmetry. apply Nat.div_small. lia.
    + change (chunks_aux (S fuel) n (a :: l))
        with (take n (a :: l) :: chunks_aux fuel n (drop n (a :: l))).
      cbn [length].
      rewrite IH by (rewrite length_drop; simpl in *; lia).
      rewrite length_drop. cbn [length].
      destruct (Nat.le_gt_cases (S (length l)) n) as [Hle|Hgt].
      * replace (S (length l) - n)%nat with 0%nat by lia.
        rewrite (Nat.div_small (0 + n - 1) n) by lia.
        simpl. apply Nat.div_unique with (r := length l); lia.
      * replace (S (length l) + n - 1)%nat
          with ((S (length l) - n + n - 1) + 1 * n)%nat by lia.
        rewrite Nat.div_add by lia. lia.
Qed.

Lemma chunks_aux_bounds {A : Type} (n fuel : nat) (l : list A) :
  (0 < n)%nat ->
  Forall (fun c => (1 <= length c <= n)%nat) (chunks_aux fuel n l).
Proof.
  intros Hn. revert l. induction fuel as [|fuel IH]; intros l; simpl;
    [constructor|].
  destruct l as [|a l]; [constructor|].
  constructor; [|apply IH].
  rewrite length_take. simpl. lia.
Qed.

Lemma concat_map_collate {B : Type} (f : Item -> B) (g : Batch -> list B) :
  (forall items, g (collate items) = map f items) ->
  forall groups, concat (map g (map collate groups)) = map f (concat groups).
Proof.
  intros Hg. induction groups as [|items groups IH]; simpl; [reflexivity|].
  rewrite IH, Hg, map_app. reflexivity.
Qed.

(** X9.  One pass over a loader with a positive batch size puts every
    example of the (shuffled) dataset in exactly one batch, in order: the
    batches hold between 1 and [batch_size] examples, there are
    ceil(N / batch_size) of them, and their inputs and labels, put end to
    end, are those of the examples. *)
Theorem iter_batches_cover (dl : DataLoaderT) (seed : nat) :
  (1 <= dl_batch_size dl)%nat ->
  let order := if dl_shuffle dl then shuffle seed (dl_dataset dl)
               else dl_dataset dl in
  let batches := iter_batches dl seed in
  concat (map encoder_input batches) = map it_encoder_input order
  /\ concat (map decoder_input batches) = map it_decoder_input order
  /\ concat (map label batches) = map it_label order
  /\ Forall (fun batch =>
               (1 <= length (encoder_input batch) <= dl_batch_size dl)%nat)
       batches
  /\ length batches
     = ((length order + dl_batch_size dl - 1) / dl_batch_size dl)%nat.
Proof.
  intros Hbs order batches. unfold batches, iter_batches. fold order.
  assert (Hcat : concat (chunks (dl_batch_size dl) order) = order)
    by (apply chunks_aux_concat; lia).
  repeat split.
  - rewrite (concat_map_collate it_encoder_input) by reflexivity.
    rewrite Hcat. reflexivity.
  - rewrite (concat_map_collate it_decoder_input) by reflexivity.
    rewrite Hcat. reflexivity.
  - rewrite (concat_map_collate it_label) by reflexivity.
    rewrite Hcat. reflexivity.
  - apply Forall_map.
    eapply Forall_impl; [apply chunks_aux_bounds; lia|].
    intros items Hitems. simpl. rewrite length_map. exact Hitems.
  - rewrite length_map. apply chunks_aux_length; lia.
Qed.

(** What the loop body gathers for one batch: the batch holds one example,
    whose source is decoded greedily; the triple is the first source text,
    the first target text and the decoded text. *)
Definition decoded (fuel : nat) (model : Transformer Mask EncOut)
  (tsrc ttgt : Tokenizer) (max_len : Z) (batch : Batch)
  (text : string * string * string) : Prop :=
  exists out source_text target_text,
    length (encoder_input batch) = 1%nat
    /\ greedy_decode causal_mask fuel model (encoder_input batch)
         (encoder_mask batch) tsrc ttgt max_len = Ok out
    /\ head (src_text batch) = Some source_text
    /\ head (tgt_text batch) = Some target_text
    /\ text = (source_text, target_text, tokenizer_decode ttgt out).

Lemma validate_batch_decoded (fuel : nat) (model : Transformer Mask EncOut)
  (tsrc ttgt : Tokenizer) (max_len : Z) (batch : Batch)
  (r : string * string * string) :
  validate_batch fuel model tsrc ttgt max_len batch = Ok r ->
  decoded fuel model tsrc ttgt max_len batch r.
Proof.
  unfold validate_batch, decoded. intros H.
  destruct (Nat.eqb_spec (length (encoder_input batch)) 1) as [Hone|];
    [|discriminate]. simpl in H.
  inv_bind_as H as out Hout.
  inv_bind_as H as source_text Hsrc. inv_bind_as H as target_text Htgt.
  injection H as <-. exists out, source_text, target_text.
  split; [exact Hone|]. split; [exact Hout|].
  destruct (src_text batch); [discriminate|]. injection Hsrc as ->.
  destruct (tgt_text batch); [discriminate|]. injection Htgt as ->.
  auto.
Qed.

Lemma validation_loop_texts (fuel : nat) (model : Transformer Mask EncOut)
  (tsrc ttgt : Tokenizer) (max_len num_examples : Z) (batches : list Batch) :
  forall count seen texts,
    validation_loop fuel model tsrc ttgt max_len num_examples count batches seen
    = Ok texts ->
    exists new,
      texts = seen ++ new
      /\ Forall2 (decoded fuel model tsrc ttgt max_len)
           (take (if (1 <=? num_examples - count)%Z
                  then Nat.min (Z.to_nat (num_examples - count)) (length batches)
                  else length batches) batches)
           new.
Proof.
  induction batches as [|batch batches IH]; intros count seen texts H; simpl in H.
  - injection H as <-. exists []. rewrite app_nil_r. split; [reflexivity|].
    rewrite take_nil. constructor.
  - destruct (validate_batch _ _ _ _ _ _) as [r| |] eqn:Hr; simpl in H;
      try discriminate.
    apply validate_batch_decoded in Hr.
    destruct (Z.eqb_spec (count + 1) num_examples) as [Heq|Hne].
    + injection H as <-. exists [r]. split; [reflexivity|].
      destruct (Z.leb_spec 1 (num_examples - count)); [|lia].
      replace (Z.to_nat (num_examples - count)) with 1%nat by lia.
      simpl. rewrite take_0. repeat constructor. exact Hr.
    + apply IH in H as (new & -> & Hnew).
      exists (r :: new). split; [rewrite <- app_assoc; reflexivity|].
      match goal with |- Forall2 _ (take ?k _) _ =>
        match type of Hnew with Forall2 _ (take ?k' _) _ =>
          replace k with (S k')
        end
      end.
      * simpl. constructor; assumption.
      * simpl length.
        destruct (Z.leb_spec 1 (num_examples - (count + 1)));
          destruct (Z.leb_spec 1 (num_examples - count)); lia.
Qed.

(** X10.  A validation that completes has decoded, one by one and in order,
    the first [num_examples] batches of the pass, or all of them when there
    are fewer (or when [num_examples] is not positive, the counter never
    meeting it).  It returns the model in eval mode and leaves the parameter
    store and the saves as they were; with a writer, the character error
    rate, the word error rate and the BLEU score of the predicted against
    the expected texts are sent to it at the global step, and nothing is sent
    without one. *)
Theorem run_validation_decodes_and_logs (fuel : nat) (model : Model)
  (validation_ds : DataLoaderT) (tsrc ttgt : Tokenizer)
  (max_len num_examples global_step : Z) (writer : bool) (w : World)
  (model' : Model) (texts : list (string * string * string)) (w' : World) :
  run_validation fuel model validation_ds tsrc ttgt max_len num_examples
    global_step writer w
  = Ok (model', texts, w') ->
  let batches := iter_batches validation_ds (rng w) in
  let k := if (1 <=? num_examples)%Z
           then Nat.min (Z.to_nat num_examples) (length batches)
           else length batches in
  let expected := map (fun r => snd (fst r)) texts in
  let predicted := map snd texts in
  Forall2 (decoded fuel (bound (eval_mode model) (params w) (S (rng w)))
             tsrc ttgt max_len)
    (take k batches) texts
  /\ training model' = false
  /\ named_parameters model' = named_parameters model
  /\ params w' = params w /\ trace w' = trace w
  /\ summary w'
     = summary w
       ++ (if writer
           then [("validation cer"%string,
                  metric CharErrorRate predicted expected, global_step);
                 ("validation wer"%string,
                  metric WordErrorRate predicted expected, global_step);
                 ("validation BLEU"%string,
                  metric BLEUScore predicted expected, global_step)]
           else []).
Proof.
  unfold run_validation. intros H.
  destruct (validation_loop _ _ _ _ _ _ _ _ _) as [texts0| |] eqn:Hloop;
    simpl in H; try discriminate.
  injection H as <- <- <-.
  apply validation_loop_texts in Hloop as (new & -> & Hnew).
  simpl in Hnew. rewrite Z.sub_0_r in Hnew. simpl.
  split; [exact Hnew|].
  destruct writer; simpl.
  - rewrite <- !app_assoc. repeat split; reflexivity.
  - rewrite app_nil_r. repeat split; reflexivity.
Qed.

(** X11.  On a loader with a batch size of at least 2 over at least 2
    examples (the shuffle keeping their number), [run_validation] raises
    AssertionError at the first batch. *)
Theorem run_validation_rejects_larger_batches (fuel : nat) (model : Model)
  (validation_ds : DataLoaderT) (tsrc ttgt : Tokenizer)
  (max_len num_examples global_step : Z) (writer : bool) (w : World) :
  (forall n l, length (shuffle n l) = length l) ->
  (2 <= dl_batch_size validation_ds)%nat ->
  (2 <= length (dl_dataset validation_ds))%nat ->
  run_validation fuel model validation_ds tsrc ttgt max_len num_examples
    global_step writer w
  = Raise AssertionError.
Proof.
  intros Hshuffle Hbs Hlen. unfold run_validation, iter_batches.
  set (order := if dl_shuffle validation_ds
                then shuffle (rng w) (dl_dataset validation_ds)
                else dl_dataset validation_ds).
  assert (Horder : (2 <= length order)%nat).
  { unfold order. destruct (dl_shuffle validation_ds);
      [rewrite Hshuffle|]; exact Hlen. }
  destruct order as [|a [|a' order]]; simpl in Horder; try lia.
  destruct (dl_batch_size validation_ds) as [|[|n]]; try lia.
  reflexivity.
Qed.

(** *** Further properties: get_ds and the two models *)

Lemma get_ds_calls (config : Config) (w : World) (tdl vdl : DataLoaderT)
  (ts tt : Tokenizer) (w1 : World) :
  get_ds config w = Ok (tdl, vdl, ts, tt, w1) ->
  exists fs1 train_raw val_raw,
    let ds_raw :=
      load_dataset (datasource config)
        (String.append (lang_src config) (String.append "-" (lang_tgt config))) in
    let train_ds_size := (9 * length ds_raw / 10)%nat in
    get_or_build_tokenizer format word_level_vocab writable config ds_raw
      (lang_src config)
      (dataset_cache (datasource config)
         (String.append (lang_src config) (String.append "-" (lang_tgt config)))
         (fs w)) = Ok (ts, fs1)
    /\ get_or_build_tokenizer format word_level_vocab writable config ds_raw
         (lang_tgt config) fs1 = Ok (tt, fs w1)
    /\ random_split (rng w) ds_raw train_ds_size (length ds_raw - train_ds_size)
       = (train_raw, val_raw)
    /\ DataLoader
         (BilingualDataset train_raw ts tt (lang_src config) (lang_tgt config)
            (seq_len config)) (batch_size config) true = Ok tdl
    /\ DataLoader
         (BilingualDataset val_raw ts tt (lang_src config) (lang_tgt config)
            (seq_len config)) 1 true = Ok vdl.
Proof.
  unfold get_ds. intros H.
  inv_bind_as H as [tsrc fs1] Hsrc.
  inv_bind_as H as [ttgt fs2] Htgt.
  destruct (random_split _ _ _ _) as [train_raw val_raw] eqn:Hsplit.
  inv_bind_as H as u Hcheck. inv_bind_as H as dl1 Hdl1. inv_bind_as H as dl2 Hdl2.
  injection H as <- <- <- <- <-.
  exists fs1, train_raw, val_raw. simpl. auto.
Qed.

(** X12.  [get_ds] changes files only through the datasets library and the
    two tokenizer files: after a successful call the two tokenizer files hold
    the two tokenizers returned, every other file is as the datasets library
    left it when it loaded the corpus, and the parameter store, the gradients
    and the saves are untouched. *)
Theorem get_ds_writes_only_tokenizer_files (config : Config) (w : World)
  (tdl vdl : DataLoaderT) (ts tt : Tokenizer) (w1 : World) :
  get_ds config w = Ok (tdl, vdl, ts, tt, w1) ->
  let path_src := format (tokenizer_file config) (lang_src config) in
  let path_tgt := format (tokenizer_file config) (lang_tgt config) in
  let fs0 :=
    dataset_cache (datasource config)
      (String.append (lang_src config) (String.append "-" (lang_tgt config)))
      (fs w) in
  fs w1 !! path_src = Some (TokenizerFile ts)
  /\ fs w1 !! path_tgt = Some (TokenizerFile tt)
  /\ (forall p, p <> path_src -> p <> path_tgt -> fs w1 !! p = fs0 !! p)
  /\ params w1 = params w /\ grads w1 = grads w /\ trace w1 = trace w.
Proof.
  intros H path_src path_tgt fs0.
  pose proof (get_ds_inv _ _ _ _ _ _ _ H) as (_ & Hp & Hg & Htr & _).
  apply get_ds_calls in H as (fs1 & train_raw & val_raw & Hsrc & Htgt & _).
  apply get_or_build_tokenizer_inv in Hsrc. apply get_or_build_tokenizer_inv in Htgt.
  fold path_src fs0 in Hsrc. fold path_tgt in Htgt.
  assert (H1 : fs1 !! path_src = Some (TokenizerFile ts)
               /\ forall p, p <> path_src -> fs1 !! p = fs0 !! p).
  { destruct Hsrc as [[Hf ->]|[_ ->]]; [auto|].
    split; [apply lookup_insert_eq|].
    intros p Hne. apply lookup_insert_ne. congruence. }
  destruct H1 as [Hs1 Hframe1].
  assert (H2 : fs w1 !! path_tgt = Some (TokenizerFile tt)
               /\ forall p, p <> path_tgt -> fs w1 !! p = fs1 !! p).
  { destruct Htgt as [[Hf ->]|[_ ->]]; [auto|].
    split; [apply lookup_insert_eq|].
    intros p Hne. apply lookup_insert_ne. congruence. }
  destruct H2 as [Ht2 Hframe2].
  split; [|split; [exact Ht2|split; [|auto]]].
  - destruct (decide (path_src = path_tgt)) as [Heq|Hne].
    + destruct Htgt as [[Hf ->]|[Hnone _]]; [exact Hs1|].
      rewrite <- Heq in Hnone. congruence.
    + rewrite Hframe2 by exact Hne. exact Hs1.
  - intros p Hps Hpt. rewrite Hframe2 by exact Hpt. apply Hframe1, Hps.
Qed.

(** X13.  When the tokenizer file name is the same for the two languages
    (a template without the language in it), the second call reads the file
    the first one left: the target tokenizer is the source tokenizer. *)
Theorem get_ds_same_file_same_tokenizer (config : Config) (w : World)
  (tdl vdl : DataLoaderT) (ts tt : Tokenizer) (w1 : World) :
  format (tokenizer_file config) (lang_src config)
  = format (tokenizer_file config) (lang_tgt config) ->
  get_ds config w = Ok (tdl, vdl, ts, tt, w1) ->
  tt = ts.
Proof.
  intros Hpath H.
  apply get_ds_calls in H as (fs1 & train_raw & val_raw & Hsrc & Htgt & _).
  apply get_or_build_tokenizer_inv in Hsrc. apply get_or_build_tokenizer_inv in Htgt.
  rewrite <- Hpath in Htgt.
  assert (Hs1 : fs1 !! format (tokenizer_file config) (lang_src config)
                = Some (TokenizerFile ts)).
  { destruct Hsrc as [[Hf ->]|[_ ->]]; [exact Hf|apply lookup_insert_eq]. }
  destruct Htgt as [[Hf _]|[Hnone _]]; congruence.
Qed.

(** X14.  The split that [get_ds] asks for: the training part takes
    floor(9 N / 10) of the N corpus entries and the validation part the
    rest, which is at least one entry when the corpus is not empty.  A
    successful call needs a positive batch size, which the training loader
    then has; both loaders shuffle. *)
Theorem get_ds_split_and_loaders (config : Config) (w : World)
  (tdl vdl : DataLoaderT) (ts tt : Tokenizer) (w1 : World) :
  get_ds config w = Ok (tdl, vdl, ts, tt, w1) ->
  exists ds_raw n_train n_val train_raw val_raw,
    ds_raw = load_dataset (datasource config)
               (String.append (lang_src config)
                  (String.append "-" (lang_tgt config)))
    /\ random_split (rng w) ds_raw n_train n_val = (train_raw, val_raw)
    /\ (n_train + n_val = length ds_raw)%nat
    /\ (10 * n_train <= 9 * length ds_raw < 10 * n_train + 10)%nat
    /\ (1 <= length ds_raw -> 1 <= n_val)%nat
    /\ dl_dataset tdl
       = BilingualDataset train_raw ts tt (lang_src config) (lang_tgt config)
           (seq_len config)
    /\ dl_dataset vdl
       = BilingualDataset val_raw ts tt (lang_src config) (lang_tgt config)
           (seq_len config)
    /\ (0 < batch_size config)%Z
    /\ dl_batch_size tdl = Z.to_nat (batch_size config)
    /\ dl_shuffle tdl = true /\ dl_shuffle vdl = true.
Proof.
  intros H.
  apply get_ds_calls in H
    as (fs1 & train_raw & val_raw & _ & _ & Hsplit & Hdl1 & Hdl2).
  cbv zeta in Hsplit.
  set (ds_raw := load_dataset _ _) in *.
  pose proof (Nat.div_mod (9 * length ds_raw) 10 ltac:(lia)) as Hdm.
  pose proof (Nat.mod_upper_bound (9 * length ds_raw) 10 ltac:(lia)) as Hmod.
  set (n_train := (9 * length ds_raw / 10)%nat) in *.
  exists ds_raw, n_train, (length ds_raw - n_train)%nat, train_raw, val_raw.
  apply DataLoader_inv in Hdl1 as (Hd1 & Hb1 & Hpos & Hsh1).
  apply DataLoader_inv in Hdl2 as (Hd2 & _ & _ & Hsh2).
  repeat split; auto; lia.
Qed.

Lemma new_model_training (built : StateDict * Net) (w : World) (m : Model)
  (w' : World) : new_model built w = (m, w') -> training m = true.
Proof.
  unfold new_model. destruct (alloc _ _ _) as [[nps P] next].
  intros [= <- <-]. reflexivity.
Qed.

(** X15.  The teacher and the student built one after the other share no
    parameter tensor; both start in training mode holding the initial tensors
    of their builders, and building the student changes no tensor that was
    in the store before. *)
Theorem teacher_and_student_share_no_tensor (config : Config)
  (vocab_src_len vocab_tgt_len : Z) (w1 w2 w3 : World) (teacher student : Model) :
  get_model config vocab_src_len vocab_tgt_len w1 = (teacher, w2) ->
  get_model_distillation config vocab_src_len vocab_tgt_len w2 = (student, w3) ->
  (forall l, l ∈ parameters teacher -> l ∉ parameters student)
  /\ NoDup (parameters teacher ++ parameters student)
  /\ training teacher = true /\ training student = true
  /\ state_dict teacher (params w3)
     = fst (build_transformer vocab_src_len vocab_tgt_len (seq_len config)
              (seq_len config) (d_model config) (rng w1))
  /\ state_dict student (params w3)
     = fst (build_student_transformer vocab_src_len vocab_tgt_len
              (seq_len config) (seq_len config) (d_model config / 2)%Z (rng w2))
  /\ (forall l, (l < next_loc w2)%nat -> params w3 !! l = params w2 !! l).
Proof.
  unfold get_model, get_model_distillation. intros Ht Hs.
  pose proof (new_model_training _ _ _ _ Ht) as Htrain_t.
  pose proof (new_model_training _ _ _ _ Hs) as Htrain_s.
  apply new_model_spec in Ht as (Hpt & Hnext & _ & Hsdt & _).
  apply new_model_spec in Hs as (Hps & _ & Hframe & Hsds & _).
  split; [|split; [|split; [exact Htrain_t|split; [exact Htrain_s|]]]].
  - intros l Hl1 Hl2. rewrite Hpt in Hl1. rewrite Hps in Hl2.
    apply elem_of_seq in Hl1. apply elem_of_seq in Hl2. lia.
  - rewrite Hpt, Hps, Hnext, <- seq_app. apply NoDup_seq'.
  - split; [|split; [exact Hsds|]].
    + rewrite <- Hsdt. apply state_dict_agree. intros l Hl.
      apply Hframe. left. rewrite Hpt in Hl. apply elem_of_seq in Hl. lia.
    + intros l Hl. apply Hframe. left. exact Hl.
Qed.

(** *** Further properties: the training loop *)

Lemma steps_of_batches_student (batches : list Batch) (st : TrainState)
  (w : World) (st' : TrainState) (batch : Batch) (w' : World) :
  (st', batch, w') ∈ steps_of_batches st batches w ->
  student_model st' = student_model st.
Proof.
  revert st w. induction batches as [|b batches IH]; intros st w H; simpl in H.
  - apply elem_of_nil in H. destruct H.
  - apply elem_of_cons in H as [[= -> -> ->]|H]; [reflexivity|].
    destruct (train_step st b w) as [[st1 w1]| |] eqn:Hstep;
      try (apply elem_of_nil in H; destruct H).
    apply train_step_inv in Hstep as (_ & _ & Hm1 & _).
    apply IH in H. congruence.
Qed.

Lemma steps_of_epochs_student (fuel : nat) (config : Config) (epochs : list Z)
  (st : TrainState) (w : World) (st' : TrainState) (batch : Batch) (w' : World) :
  (st', batch, w') ∈ steps_of_epochs fuel config st epochs w ->
  training (student_model st') = true.
Proof.
  revert st w. induction epochs as [|epoch epochs IH]; intros st w H; simpl in H.
  - apply elem_of_nil in H. destruct H.
  - apply elem_of_app in H as [H|H].
    + unfold steps_of_epoch, begin_epoch in H.
      apply steps_of_batches_student in H. rewrite H. reflexivity.
    + destruct (train_epoch fuel config st epoch w) as [[st1 w1]| |];
        try (apply elem_of_nil in H; destruct H).
      exact (IH _ _ H).
Qed.

(** X16.  At every training step of a run the student is in training mode,
    although every epoch ends with the student in eval mode, where
    [run_validation] leaves it. *)
Theorem student_trains_in_training_mode (fuel : nat) (config : Config) :
  (forall w st batch w1,
      (st, batch, w1) ∈ training_steps fuel config w ->
      training (student_model st) = true)
  /\ (forall st epoch w st' w',
        train_epoch fuel config st epoch w = Ok (st', w') ->
        training (student_model st') = false).
Proof.
  split.
  - intros w st batch w1 H. unfold training_steps in H.
    destruct (setup config w) as [[st0 w0]| |];
      try (apply elem_of_nil in H; destruct H).
    exact (steps_of_epochs_student _ _ _ _ _ _ _ _ H).
  - intros st epoch w st' w' H.
    apply train_epoch_trained in H as (stb & wb & _ & _ & _ & ->).
    reflexivity.
Qed.

Lemma zero_grad_clears (o : Optimizer) (G : gmap nat Tensor) (l : nat) :
  l ∈ opt_params o -> zero_grad o G !! l = None.
Proof.
  unfold zero_grad. generalize (opt_params o). intros ps. revert G.
  induction ps as [|p ps IH]; intros G Hl; simpl.
  - apply elem_of_nil in Hl. destruct Hl.
  - destruct (decide (l ∈ ps)) as [Hin|Hnin].
    + apply IH. exact Hin.
    + apply elem_of_cons in Hl as [->|Hl]; [|contradiction].
      pose proof (zero_grad_frame (mkOptimizer ps 0 0 ∅) (delete p G) p Hnin)
        as Hframe.
      unfold zero_grad in Hframe. simpl in Hframe.
      rewrite Hframe. apply lookup_delete_eq.
Qed.

(** X17.  A training step of a run that goes through leaves the [.grad] of
    every student parameter at [None], so gradients never add up from one
    step to the next, and advances the global step by one. *)
Theorem training_step_clears_gradients (fuel : nat) (config : Config)
  (w : World) (st : TrainState) (batch : Batch) (w1 : World)
  (st' : TrainState) (w' : World) :
  (st, batch, w1) ∈ training_steps fuel config w ->
  train_step st batch w1 = Ok (st', w') ->
  (forall l, l ∈ parameters (student_model st) -> grads w' !! l = None)
  /\ global_step st' = (global_step st + 1)%Z.
Proof.
  intros Hin Hstep.
  apply training_steps_inv in Hin as (st0 & w0 & _ & _ & (Hopt & _) & _).
  pose proof (train_step_inv _ _ _ _ _ Hstep) as (_ & _ & _ & Hgs & _).
  split; [|exact Hgs].
  intros l Hl. unfold train_step in Hstep.
  inv_bind_as Hstep as loss Hloss.
  match type of Hstep with
  | context [optimizer_step ?o ?P ?G] =>
      pose proof (optimizer_step_spec o P G) as (Hps & _);
      destruct (optimizer_step o P G) as [P' o']
  end.
  simpl in Hps. injection Hstep as <- <-. simpl.
  apply zero_grad_clears. rewrite Hps, Hopt. exact Hl.
Qed.

(** X18.  An epoch that completes advances the global step by the number of
    training batches of its pass, and that advanced count is the one its
    checkpoint records. *)
Theorem epoch_counts_its_batches (fuel : nat) (config : Config)
  (st : TrainState) (epoch : Z) (w : World) (st' : TrainState) (w' : World) :
  train_epoch fuel config st epoch w = Ok (st', w') ->
  let n := length (iter_batches (train_dataloader st) (rng w)) in
  global_step st' = (global_step st + Z.of_nat n)%Z
  /\ exists c,
       fs w' !! get_weights_file_path config (format_02d epoch)
       = Some (CheckpointFile c)
       /\ ck_global_step c = (global_step st + Z.of_nat n)%Z.
Proof.
  intros H n.
  pose proof (train_epoch_inv _ _ _ _ _ _ _ H) as (_ & _ & _ & _ & _ & Hfs).
  assert (Hgs : global_step st' = (global_step st + Z.of_nat n)%Z).
  { apply train_epoch_trained in H as (stb & wb & Hsteps & _ & _ & ->).
    unfold begin_epoch in Hsteps.
    apply train_batches_inv in Hsteps as (_ & _ & _ & Hgs & _).
    exact Hgs. }
  split; [exact Hgs|].
  exists (checkpoint_of epoch st' w'). split.
  - rewrite Hfs. apply lookup_insert_eq.
  - rewrite <- Hgs. reflexivity.
Qed.

Lemma range_empty (a b : Z) : (b <= a)%Z -> range a b = [].
Proof.
  intros H. unfold range. replace (Z.to_nat (b - a)) with 0%nat by lia.
  reflexivity.
Qed.

(** X19.  With no preload configured and [num_epochs <= 0], a run whose
    set-up goes through trains nothing and then raises TypeError: the file
    name given to [os.path.getsize] on line 266 is still [None]. *)
Theorem no_epoch_and_no_preload_raises (fuel : nat) (config : Config)
  (w : World) (st : TrainState) (w0 : World) :
  preload config = None ->
  (num_epochs config <= 0)%Z ->
  setup config w = Ok (st, w0) ->
  train_model fuel config w = Raise TypeError
  /\ training_steps fuel config w = [].
Proof.
  intros Hpre Hn Hsetup.
  pose proof (setup_inv _ _ _ _ Hsetup)
    as (tdl & vdl & ts & tt & w1 & teacher & w2 & student & w3 & opt0
        & _ & _ & _ & _ & _ & _ & _ & _ & _ & _ & Hmf & _ & Hbranch).
  unfold choose_model_filename in Hmf. rewrite Hpre in Hmf.
  destruct Hbranch as [(_ & _ & _ & Hie & _)|(Htruthy & _)];
    [|rewrite Hmf in Htruthy; discriminate].
  unfold train_model, training_steps. rewrite Hsetup. simpl.
  rewrite Hie, range_empty by lia. simpl.
  unfold quantize_and_save. rewrite Hmf. simpl. auto.
Qed.

Lemma choose_model_filename_none (config : Config) (f : FileSystem) :
  preload config = None \/ preload config = Some ""
  \/ (preload config = Some "latest" /\ latest_weights_file_path config f = None) ->
  choose_model_filename config f = None.
Proof.
  unfold choose_model_filename.
  intros [->|[->|[-> Hlatest]]]; [reflexivity|reflexivity|exact Hlatest].
Qed.

(** X20.  With nothing to preload (no [preload], an empty one, or
    ['latest'] when there is no weights file), a set-up that goes through
    starts from scratch instead of raising: epoch 0, global step 0, an
    optimizer without state, and both models holding the initial tensors of
    their builders. *)
Theorem setup_starts_from_scratch (config : Config) (w : World)
  (st : TrainState) (w0 : World) :
  preload config = None \/ preload config = Some ""
  \/ (preload config = Some "latest"
      /\ latest_weights_file_path config (fs w0) = None) ->
  setup config w = Ok (st, w0) ->
  exists seed_t seed_s,
    initial_epoch st = 0%Z /\ global_step st = 0%Z
    /\ opt_state (optimizer st) = ∅
    /\ opt_lr (optimizer st) = lr config
    /\ model_filename st = None
    /\ state_dict (teacher_model st) (params w0)
       = fst (build_transformer (get_vocab_size (tokenizer_src st))
                (get_vocab_size (tokenizer_tgt st)) (seq_len config)
                (seq_len config) (d_model config) seed_t)
    /\ state_dict (student_model st) (params w0)
       = fst (build_student_transformer (get_vocab_size (tokenizer_src st))
                (get_vocab_size (tokenizer_tgt st)) (seq_len config)
                (seq_len config) (d_model config / 2)%Z seed_s).
Proof.
  intros Hpre Hsetup.
  pose proof (setup_inv _ _ _ _ Hsetup)
    as (tdl & vdl & ts & tt & w1 & teacher & w2 & student & w3 & opt0
        & _ & Hteacher & Hstudent & HAdam & _ & _ & Hts & Htt & Htm & Hsm & Hmf
        & _ & Hbranch).
  pose proof (setup_models _ _ _ _ Hsetup)
    as (_ & _ & _ & _ & _ & _ & _ & w3' & _ & _ & _ & _ & _ & _ & _ & _
        & Hfs & _).
  destruct Hbranch as [(_ & -> & Hopt & Hie & Hgs)|(Htruthy & c & P & _ & _ & _ & -> & _)].
  - assert (Hnone : model_filename st = None).
    { rewrite Hmf. apply choose_model_filename_none. exact Hpre. }
    apply Adam_inv in HAdam as (_ & Hlr & _ & Hstate & _).
    destruct (teacher_and_student_models _ _ _ _ _ _ _ _ Hteacher Hstudent)
      as (Hsdt & Hsds).
    exists (rng w1), (rng w2).
    rewrite Hie, Hgs, Hopt, Hlr, Hstate, Hnone, Hts, Htt, Htm, Hsm.
    repeat split; assumption.
  - exfalso. simpl in Hpre.
    rewrite Hmf, (choose_model_filename_none config (fs w3)) in Htruthy;
      [discriminate|exact Hpre].
Qed.

End Training.

End Train.

(** ** A small instance

    A one-parameter "transformer" over a one-token vocabulary, a corpus of
    two sentence pairs and an optimizer that adds one to every weight: enough
    to run every function above on concrete values. *)

Module Example.

Import Loss Decode TokenizerBuilder Train.

Open Scope string_scope.

Definition toy_format (template lang : string) : string :=
  String.append template lang.

Definition toy_vocab (_ : option PreTokenizer) (_ : WordLevelTrainer)
  (_ : list string) : gmap string Z :=
  {[ "[SOS]" := 0%Z ]}.

Definition toy_raw : RawItem := {[ "en" := "a"; "it" := "b" ]}.

Definition toy_load_dataset (_ _ : string) : list RawItem := [toy_raw; toy_raw].

(** The datasets library leaves no file, and every path can be written. *)
Definition toy_cache (_ _ : string) (f : FileSystem) : FileSystem := f.

Definition toy_writable (_ : FileSystem) (_ : string) : bool := true.

Definition toy_metric (_ : Metric) (_ _ : list string) : R := 0%R.

Definition toy_config : Config :=
  {| tokenizer_file := "tokenizer_"; datasource := "corpus";
     lang_src := "en"; lang_tgt := "it"; seq_len := 3; d_model := 4;
     batch_size := 1; lr := 1%R; preload := None; num_epochs := 2;
     model_folder := "weights"; experiment_name := "runs";
     temperature := None; alpha := None |}.

Definition toy_config_resume : Config :=
  {| tokenizer_file := "tokenizer_"; datasource := "corpus";
     lang_src := "en"; lang_tgt := "it"; seq_len := 3; d_model := 4;
     batch_size := 1; lr := 1%R; preload := Some "latest"; num_epochs := 3;
     model_folder := "weights"; experiment_name := "runs";
     temperature := None; alpha := None |}.

Definition toy_world : World :=
  {| fs := ∅; params := ∅; grads := ∅; next_loc := 0; rng := 0; trace := []; summary := [] |}.

(** The decoder returns one (empty) hidden vector per token; the projection
    scores the single token of the vocabulary. *)
Definition toy_net : @Net unit unit :=
  {| net_encode := fun _ _ _ _ _ => tt;
     net_decode := fun _ _ _ _ _ tokens _ => map (map (fun _ => [])) tokens;
     net_project := fun _ _ => [0%R] |}.

(** One tensor, of the same shape whatever the width ... *)
Definition toy_build (vs vt s1 s2 d : Z) (seed : nat)
  : StateDict * @Net unit unit :=
  ([("projection.weight", mkTensor [1%nat] [0%R])], toy_net).

(** ... and one whose shape follows [d_model]. *)
Definition toy_build_wide (vs vt s1 s2 d : Z) (seed : nat)
  : StateDict * @Net unit unit :=
  ([("projection.weight", mkTensor [Z.to_nat d] [0%R])], toy_net).

Definition toy_item : @Item unit :=
  {| it_encoder_input := [0; 0]%Z; it_decoder_input := [0; 0]%Z;
     it_encoder_mask := tt; it_decoder_mask := tt; it_label := [0; 0]%Z;
     it_src_text := "a"; it_tgt_text := "b" |}.

Definition toy_dataset (raw : list RawItem) (_ _ : Tokenizer) (_ _ : string)
  (_ : Z) : list (@Item unit) :=
  map (fun _ => toy_item) raw.

Definition toy_split (_ : nat) (l : list RawItem) (n m : nat)
  : list RawItem * list RawItem :=
  (take n l, drop n l).

Definition toy_shuffle (_ : nat) (l : list (@Item unit)) : list (@Item unit) := l.

Definition toy_stack (_ : list unit) : unit := tt.

Definition toy_causal_mask (_ : nat) : unit := tt.

Definition toy_decode_text (_ : Tokenizer) (_ : list Z) : string := "".

Definition toy_gradient (_ : gmap nat Tensor -> Result R) (P : gmap nat Tensor)
  (l : nat) : Tensor :=
  P !!! l.

Definition toy_adam (_ _ : R) (p g : Tensor) (_ : option AdamState)
  : Tensor * AdamState :=
  (mkTensor (shape p) (map (fun x => (x + 1)%R) (data p)), mkAdamState 1 g g).

Definition toy_weights_file_path (config : Config) (epoch : string) : string :=
  String.append (model_folder config) (String.append "/" epoch).

Definition toy_latest (config : Config) (f : FileSystem) : option string :=
  if path_exists f (toy_weights_file_path config "01")
  then Some (toy_weights_file_path config "01")
  else if path_exists f (toy_weights_file_path config "00")
       then Some (toy_weights_file_path config "00")
       else None.

Definition toy_02d (epoch : Z) : string :=
  if (epoch =? 0)%Z then "00" else if (epoch =? 1)%Z then "01" else "02".

Definition toy_quantize (sd : StateDict) (_ : list LayerType) (_ : Dtype)
  : StateDict := sd.

Definition toy_get_ds
  : Config -> World
    -> Result (@DataLoaderT unit * @DataLoaderT unit * Tokenizer * Tokenizer
               * World) :=
  get_ds toy_load_dataset toy_cache toy_split toy_dataset toy_format toy_vocab toy_writable.

Definition toy_setup
  : Config -> World -> Result (@TrainState unit unit * World) :=
  setup toy_load_dataset toy_cache toy_split toy_dataset toy_format toy_vocab toy_writable
    toy_build toy_build toy_weights_file_path toy_latest.

Definition toy_train_epoch
  : nat -> Config -> @TrainState unit unit -> Z -> World
    -> Result (@TrainState unit unit * World) :=
  train_epoch toy_stack toy_shuffle toy_causal_mask toy_decode_text toy_metric
    toy_writable toy_gradient toy_adam toy_weights_file_path toy_02d.

Definition toy_train_model : nat -> Config -> World -> Result World :=
  train_model toy_stack toy_shuffle toy_causal_mask toy_decode_text toy_metric
    toy_load_dataset toy_cache toy_split toy_dataset toy_format toy_vocab toy_writable
    toy_build toy_build toy_gradient toy_adam toy_weights_file_path toy_latest
    toy_02d toy_quantize.

Definition toy_training_steps
  : nat -> Config -> World
    -> list (@TrainState unit unit * @Batch unit * World) :=
  training_steps toy_stack toy_shuffle toy_causal_mask toy_decode_text toy_metric
    toy_load_dataset toy_cache toy_split toy_dataset toy_format toy_vocab toy_writable
    toy_build toy_build toy_gradient toy_adam toy_weights_file_path toy_latest
    toy_02d.

(** The same run and set-up with tensors whose shape follows [d_model]. *)
Definition toy_train_model_wide : nat -> Config -> World -> Result World :=
  train_model toy_stack toy_shuffle toy_causal_mask toy_decode_text toy_metric
    toy_load_dataset toy_cache toy_split toy_dataset toy_format toy_vocab toy_writable
    toy_build_wide toy_build_wide toy_gradient toy_adam toy_weights_file_path
    toy_latest toy_02d toy_quantize.

Definition toy_setup_wide
  : Config -> World -> Result (@TrainState unit unit * World) :=
  setup toy_load_dataset toy_cache toy_split toy_dataset toy_format toy_vocab toy_writable
    toy_build_wide toy_build_wide toy_weights_file_path toy_latest.

Definition get_ok {A : Type} (d : A) (r : Result A) : A :=
  match r with
  | Ok a => a
  | _ => d
  end.

(** A second process: the files stay, the store starts empty. *)
Definition restart (w : World) : World :=
  {| fs := fs w; params := ∅; grads := ∅; next_loc := 0; rng := 0; trace := []; summary := [] |}.

Definition toy_world_after : World :=
  get_ok toy_world (toy_train_model 3 toy_config toy_world).

Definition toy_world_resumed : World := restart toy_world_after.

Definition event_kind (e : Event) : string :=
  match e with
  | SaveCheckpoint path _ => String.append "checkpoint " path
  | QuantizeDynamic _ _ => "quantize"
  | SaveStateDict path _ => String.append "state dict " path
  end.

Definition no_checkpoint_file (f : FileSystem) : bool :=
  forallb (fun kv => match snd kv with CheckpointFile _ => false | _ => true end)
    (map_to_list f).

(** A decoder for [greedy_decode] alone; token 0 is emitted at every step.
    One target tokenizer has EOS at 3, the other at 0. *)
Definition toy_transformer : Transformer unit unit :=
  {| encode := fun _ _ => tt;
     decode := fun _ _ tokens _ => map (map (fun _ => [])) tokens;
     project := fun _ => [0%R] |}.

Definition toy_tokenizer : Tokenizer :=
  {| unk_token := Some "[UNK]"; pre_tokenizer := Some Whitespace;
     special_tokens := ["[UNK]"; "[PAD]"; "[SOS]"; "[EOS]"];
     vocab := {[ "[UNK]" := 0%Z; "[PAD]" := 1%Z; "[SOS]" := 2%Z;
                 "[EOS]" := 3%Z ]} |}.

Definition toy_tokenizer_eos0 : Tokenizer :=
  {| unk_token := Some "[UNK]"; pre_tokenizer := Some Whitespace;
     special_tokens := ["[UNK]"; "[PAD]"; "[SOS]"; "[EOS]"];
     vocab := {[ "[EOS]" := 0%Z; "[PAD]" := 1%Z; "[SOS]" := 2%Z;
                 "[UNK]" := 3%Z ]} |}.

Definition toy_tokenizer_no_sos : Tokenizer :=
  {| unk_token := Some "[UNK]"; pre_tokenizer := Some Whitespace;
     special_tokens := []; vocab := {[ "[EOS]" := 0%Z ]} |}.

(** A state whose target vocabulary has four tokens, [PAD] being token 1,
    and a batch with a [PAD] label. *)
Definition toy_net4 : @Net unit unit :=
  {| net_encode := fun _ _ _ _ _ => tt;
     net_decode := fun _ _ _ _ _ tokens _ => map (map (fun _ => [])) tokens;
     net_project := fun _ _ => [0; 0; 0; 0]%R |}.

Definition toy_model4 : @Model unit unit :=
  {| named_parameters := []; training := true; net := toy_net4 |}.

Definition toy_loader : @DataLoaderT unit :=
  {| dl_dataset := []; dl_batch_size := 1; dl_shuffle := true |}.

Definition toy_state4 : @TrainState unit unit :=
  {| train_dataloader := toy_loader; val_dataloader := toy_loader;
     tokenizer_src := toy_tokenizer; tokenizer_tgt := toy_tokenizer;
     teacher_model := toy_model4; student_model := toy_model4;
     optimizer := {| opt_params := []; opt_lr := 1%R; opt_eps := 1%R;
                     opt_state := ∅ |};
     initial_epoch := 0; global_step := 0; model_filename := None;
     loss_fn := {| ignore_index := Some 1%Z; label_smoothing := (1 / 10)%R |};
     st_temperature := 2%R; st_alpha := (7 / 10)%R |}.

Definition toy_batch4 : @Batch unit :=
  {| encoder_input := [[2; 5; 3]%Z]; decoder_input := [[2; 0]%Z];
     encoder_mask := tt; decoder_mask := tt; label := [[0; 1]%Z];
     src_text := ["a"]; tgt_text := ["b"] |}.

Definition toy_rows4 : Tensor2 := [[0; 0; 0; 0]; [0; 0; 0; 0]]%R.

(** A model over [toy_net], a validation loader with one example per batch
    and a loader with two. *)
Definition toy_model1 : @Model unit unit :=
  {| named_parameters := []; training := true; net := toy_net |}.

Definition toy_loader1 : @DataLoaderT unit :=
  {| dl_dataset := [toy_item; toy_item; toy_item]; dl_batch_size := 1;
     dl_shuffle := true |}.

Definition toy_loader2 : @DataLoaderT unit :=
  {| dl_dataset := [toy_item; toy_item; toy_item]; dl_batch_size := 2;
     dl_shuffle := true |}.

(** A tokenizer file name without the language in it, and a vocabulary that
    depends on the sentences it is built from. *)
Definition toy_format_fixed (template _ : string) : string := template.

Definition toy_vocab_first (_ : option PreTokenizer) (_ : WordLevelTrainer)
  (sentences : list string) : gmap string Z :=
  {[ default "[UNK]" (head sentences) := 0%Z ]}.

Definition toy_config_no_epoch : Config :=
  {| tokenizer_file := "tokenizer_"; datasource := "corpus";
     lang_src := "en"; lang_tgt := "it"; seq_len := 3; d_model := 4;
     batch_size := 1; lr := 1%R; preload := None; num_epochs := 0;
     model_folder := "weights"; experiment_name := "runs";
     temperature := None; alpha := None |}.

Definition toy_trained_epochs
  : nat -> Config -> @TrainState unit unit -> list Z -> World
    -> list (Z * @TrainState unit unit * World) :=
  trained_epochs toy_stack toy_shuffle toy_causal_mask toy_decode_text
    toy_metric toy_writable toy_gradient toy_adam toy_weights_file_path toy_02d.

Definition toy_world_after_wide : World :=
  get_ok toy_world (toy_train_model_wide 3 toy_config toy_world).

(** *** Runs of the instance *)

Example greedy_decode_to_max_len :
  greedy_decode toy_causal_mask 3 toy_transformer [[5%Z]] tt toy_tokenizer
    toy_tokenizer 3 = Ok [2; 0; 0]%Z.
Proof. vm_compute. reflexivity. Qed.

Example greedy_decode_stops_at_eos :
  greedy_decode toy_causal_mask 3 toy_transformer [[5%Z]] tt toy_tokenizer
    toy_tokenizer_eos0 3 = Ok [2; 0]%Z.
Proof. vm_compute. reflexivity. Qed.

Example greedy_decode_without_sos :
  greedy_decode toy_causal_mask 3 toy_transformer [[5%Z]] tt toy_tokenizer
    toy_tokenizer_no_sos 3 = Raise TypeError.
Proof. vm_compute. reflexivity. Qed.

Example greedy_decode_max_len_0_out_of_fuel :
  greedy_decode toy_causal_mask 50 toy_transformer [[5%Z]] tt toy_tokenizer
    toy_tokenizer 0 = Diverge.
Proof. vm_compute. reflexivity. Qed.

Lemma toy_run : toy_train_model 3 toy_config toy_world = Ok toy_world_after.
Proof. vm_compute. reflexivity. Qed.

Example toy_run_events :
  map event_kind (trace toy_world_after)
  = ["checkpoint weights/00"; "checkpoint weights/01"; "quantize";
     "state dict weights/quantized_model"].
Proof. vm_compute. reflexivity. Qed.

Lemma toy_setup_ok :
  exists st w0, toy_setup toy_config toy_world = Ok (st, w0).
Proof. do 2 eexists. vm_compute. reflexivity. Qed.

Lemma toy_first_step :
  exists st batch w1 rest,
    toy_training_steps 3 toy_config toy_world = (st, batch, w1) :: rest.
Proof. do 4 eexists. vm_compute. reflexivity. Qed.

Lemma toy_setup_scratch :
  exists st w0,
    toy_setup toy_config toy_world = Ok (st, w0)
    /\ truthy (model_filename st) = false.
Proof. do 2 eexists. split; vm_compute; reflexivity. Qed.

Lemma toy_step4_ok :
  exists st' w',
    train_step toy_gradient toy_adam toy_state4 toy_batch4 toy_world
    = Ok (st', w').
Proof. do 2 eexists. vm_compute. reflexivity. Qed.

Lemma toy_resume_ok :
  exists st w0,
    toy_setup toy_config_resume toy_world_resumed = Ok (st, w0)
    /\ truthy (model_filename st) = true.
Proof. do 2 eexists. split; vm_compute; reflexivity. Qed.

Lemma toy_last (prefix : list Z) (a : Z) :
  last (map (fun _ : Z => ([] : Hidden)) (a :: prefix)) = Some [].
Proof.
  revert a. induction prefix as [|b prefix IH]; intros a; [reflexivity|].
  exact (IH b).
Qed.

Lemma toy_next_word (prefix : list Z) :
  prefix <> [] ->
  next_word toy_causal_mask toy_transformer tt tt prefix = Ok 0%Z.
Proof.
  destruct prefix as [|a prefix]; [congruence|]. intros _.
  unfold next_word.
  change (decode toy_transformer tt tt [a :: prefix] (toy_causal_mask _))
    with [map (fun _ : Z => ([] : Hidden)) (a :: prefix)].
  unfold select_last. cbn [mapM]. rewrite (toy_last prefix a). reflexivity.
Qed.

Lemma no_checkpoint_file_lookup (f : FileSystem) (path : string) (c : Checkpoint) :
  no_checkpoint_file f = true -> f !! path <> Some (CheckpointFile c).
Proof.
  unfold no_checkpoint_file. rewrite forallb_forall. intros Hall Hlook.
  apply elem_of_map_to_list, list_elem_of_In in Hlook.
  specialize (Hall _ Hlook). discriminate.
Qed.

(** *** The theorems above at the instance *)

Lemma greedy_decode_spec_witness :
  exists out rest,
    (forall fuel, (Z.to_nat 3 <= fuel)%nat ->
       greedy_decode toy_causal_mask fuel toy_transformer [[5%Z]] tt
         toy_tokenizer toy_tokenizer_eos0 3 = Ok out)
    /\ out = 2%Z :: rest
    /\ (Z.of_nat (length out) <= 3)%Z
    /\ (forall k w, out !! S k = Some w ->
          emits toy_causal_mask toy_transformer tt tt (take (S k) out) w)
    /\ (forall k w, (S (S k) < length out)%nat -> out !! S k = Some w ->
          token_to_id toy_tokenizer_eos0 "[EOS]" <> Some w)
    /\ ((Z.of_nat (length out) < 3)%Z ->
        exists w, last rest = Some w
                  /\ token_to_id toy_tokenizer_eos0 "[EOS]" = Some w).
Proof.
  apply (greedy_decode_spec toy_causal_mask toy_transformer [[5%Z]] tt
           toy_tokenizer toy_tokenizer_eos0 3 2).
  - lia.
  - reflexivity.
  - intros prefix (rest & -> & _) _. exists 0%Z. apply toy_next_word.
    discriminate.
Defined.

Lemma get_or_build_tokenizer_spec_witness :
  let t :=
    {| unk_token := Some "[UNK]"; pre_tokenizer := Some Whitespace;
       special_tokens := ["[UNK]"; "[PAD]"; "[SOS]"; "[EOS]"];
       vocab :=
         toy_vocab_first (Some Whitespace)
           {| trainer_special_tokens := ["[UNK]"; "[PAD]"; "[SOS]"; "[EOS]"];
              min_frequency := 2 |}
           ["a"] |} in
  get_or_build_tokenizer toy_format toy_vocab_first toy_writable toy_config
    [toy_raw] "en" ∅
  = Ok (t, <[toy_format (tokenizer_file toy_config) "en" := TokenizerFile t]> ∅).
Proof.
  apply (proj1 (proj2 (get_or_build_tokenizer_spec toy_format toy_vocab_first
                         toy_writable toy_config [toy_raw] "en" ∅)) ["a"]).
  - reflexivity.
  - reflexivity.
Defined.

Lemma teacher_frozen_in_every_step_witness :
  exists st batch w1,
    head (toy_training_steps 3 toy_config toy_world) = Some (st, batch, w1)
    /\ training (teacher_model st) = false
    /\ forall st' w',
         train_step toy_gradient toy_adam st batch w1 = Ok (st', w') ->
         teacher_model st' = teacher_model st
         /\ state_dict (teacher_model st') (params w')
            = state_dict (teacher_model st) (params w1)
         /\ (forall l, l ∈ parameters (teacher_model st) ->
               grads w' !! l = grads w1 !! l)
         /\ (forall l, l ∉ parameters (student_model st) ->
               params w' !! l = params w1 !! l).
Proof.
  destruct toy_first_step as (st & batch & w1 & rest & E).
  exists st, batch, w1. split; [rewrite E; reflexivity|].
  eapply teacher_frozen_in_every_step.
  unfold toy_training_steps in E. rewrite E. left.
Defined.

Lemma checkpoint_per_epoch_then_quantize_once_witness :
  exists st0 w0,
    toy_setup toy_config toy_world = Ok (st0, w0)
    /\ let epochs := range (initial_epoch st0) (num_epochs toy_config) in
       let ends := toy_trained_epochs 3 toy_config st0 epochs w0 in
       let quantized :=
         toy_quantize
           (last_student ends (state_dict (student_model st0) (params w0)))
           [Linear] qint8 in
       let quantized_path := toy_weights_file_path toy_config "quantized_model" in
       map (fun e => fst (fst e)) ends = epochs
       /\ trace toy_world_after
          = (trace toy_world
             ++ map (fun e =>
                       SaveCheckpoint
                         (toy_weights_file_path toy_config (toy_02d (fst (fst e))))
                         {| ck_epoch := fst (fst e);
                            ck_model_state_dict :=
                              state_dict (student_model (snd (fst e)))
                                (params (snd e));
                            ck_optimizer_state_dict :=
                              optimizer_state_dict (optimizer (snd (fst e)));
                            ck_global_step := global_step (snd (fst e)) |})
                  ends
             ++ [QuantizeDynamic [Linear] qint8;
                 SaveStateDict quantized_path quantized])%list
       /\ fs toy_world_after !! quantized_path = Some (StateDictFile quantized).
Proof.
  exact (checkpoint_per_epoch_then_quantize_once toy_stack toy_shuffle
           toy_causal_mask toy_decode_text toy_metric toy_load_dataset
           toy_cache toy_split toy_dataset toy_format toy_vocab toy_writable
           toy_build toy_build toy_gradient toy_adam toy_weights_file_path
           toy_latest toy_02d toy_quantize 3 toy_config toy_world
           toy_world_after toy_run).
Defined.

Lemma student_half_width_from_scratch_witness :
  exists st w0 seed_t seed_s student_d_model,
    toy_setup toy_config_resume toy_world_resumed = Ok (st, w0)
    /\ (2 * student_d_model <= d_model toy_config_resume
        < 2 * student_d_model + 2)%Z
    /\ net (teacher_model st)
       = snd (toy_build (get_vocab_size (tokenizer_src st))
                (get_vocab_size (tokenizer_tgt st)) 3 3 4 seed_t)
    /\ net (student_model st)
       = snd (toy_build (get_vocab_size (tokenizer_src st))
                (get_vocab_size (tokenizer_tgt st)) 3 3 student_d_model seed_s)
    /\ state_dict (student_model st) (params w0)
       = fst (toy_build (get_vocab_size (tokenizer_src st))
                (get_vocab_size (tokenizer_tgt st)) 3 3 student_d_model seed_s).
Proof.
  destruct toy_resume_ok as (st & w0 & E & _).
  exists st, w0.
  pose proof E as E'. unfold toy_setup in E'.
  apply student_half_width_from_scratch in E'
    as (seed_t & seed_s & student_d_model & H).
  exists seed_t, seed_s, student_d_model. split; [exact E|]. exact H.
Defined.

Lemma teacher_preloaded_and_inference_only_witness :
  (exists st0 w0 c,
     toy_setup toy_config_resume toy_world_resumed = Ok (st0, w0)
     /\ truthy (model_filename st0) = true
     /\ torch_load (toy_latest toy_config_resume (fs w0)) (fs w0) = Ok c
     /\ Forall (fun nl => exists t,
                  assoc (fst nl) (ck_model_state_dict c) = Some t
                  /\ params w0 !! snd nl = Some t)
          (named_parameters (teacher_model st0))
     /\ (forall st batch w1,
           (st, batch, w1) ∈ toy_training_steps 3 toy_config_resume
                               toy_world_resumed ->
           training (teacher_model st) = false
           /\ state_dict (teacher_model st) (params w1)
              = state_dict (teacher_model st0) (params w0)))
  /\ (exists st0 w0 seed,
        toy_setup toy_config toy_world = Ok (st0, w0)
        /\ truthy (model_filename st0) = false
        /\ state_dict (teacher_model st0) (params w0)
           = fst (toy_build (get_vocab_size (tokenizer_src st0))
                    (get_vocab_size (tokenizer_tgt st0)) 3 3 4 seed)).
Proof.
  split.
  - destruct toy_resume_ok as (st0 & w0 & E & Ht).
    destruct (teacher_preloaded_and_inference_only toy_stack toy_shuffle
                toy_causal_mask toy_decode_text toy_metric toy_load_dataset
                toy_cache toy_split toy_dataset toy_format toy_vocab
                toy_writable toy_build toy_build toy_gradient toy_adam
                toy_weights_file_path toy_latest toy_02d 3 toy_config_resume
                toy_world_resumed st0 w0 E) as (Hload & _ & Hsteps).
    destruct (Hload Ht) as (c & Hc & Hteacher).
    exists st0, w0, c. split; [exact E|]. auto.
  - destruct toy_setup_scratch as (st0 & w0 & E & Hf).
    destruct (teacher_preloaded_and_inference_only toy_stack toy_shuffle
                toy_causal_mask toy_decode_text toy_metric toy_load_dataset
                toy_cache toy_split toy_dataset toy_format toy_vocab
                toy_writable toy_build toy_build toy_gradient toy_adam
                toy_weights_file_path toy_latest toy_02d 3 toy_config
                toy_world st0 w0 E) as (_ & Hbuilt & _).
    destruct (Hbuilt Hf) as (seed & Hsd).
    exists st0, w0, seed. split; [exact E|]. auto.
Defined.

Lemma validation_assertion_never_fails_witness :
  exists tdl vdl tsrc ttgt w1,
    toy_get_ds toy_config toy_world = Ok (tdl, vdl, tsrc, ttgt, w1)
    /\ dl_batch_size vdl = 1%nat
    /\ (forall seed,
          Forall (fun batch => length (encoder_input batch) = 1%nat)
            (iter_batches toy_stack toy_shuffle vdl seed))
    /\ toy_train_model 3 toy_config toy_world <> Raise AssertionError.
Proof.
  destruct (toy_get_ds toy_config toy_world)
    as [[[[[tdl vdl] tsrc] ttgt] w1]| |] eqn:E;
    [|vm_compute in E; discriminate..].
  destruct (validation_assertion_never_fails toy_stack toy_shuffle
              toy_causal_mask toy_decode_text toy_metric toy_load_dataset toy_cache toy_split
              toy_dataset toy_format toy_vocab toy_writable toy_build toy_build
              toy_gradient toy_adam toy_weights_file_path toy_latest toy_02d
              toy_quantize 3 toy_config toy_world) as [Hds Hrun].
  destruct (Hds tdl vdl tsrc ttgt w1 E) as (Hone & Hall & _).
  exists tdl, vdl, tsrc, ttgt, w1. split; [reflexivity|]. auto.
Defined.

Lemma training_loss_counts_padding_witness :
  exists st' w' loss,
    train_step toy_gradient toy_adam toy_state4 toy_batch4 toy_world
    = Ok (st', w')
    /\ summary w' = [("train loss", loss, 0%Z)]
    /\ loss = kd_loss_spec 2 4 toy_rows4 toy_rows4 [0; 1]%Z 2 (7 / 10)
    /\ token_to_id (tokenizer_src toy_state4) "[PAD]" = Some 1%Z
    /\ (0 < - ln (prob 4 (entry toy_rows4 1) (Z.to_nat 1)))%R.
Proof.
  destruct toy_step4_ok as (st' & w' & E).
  destruct (training_loss_counts_padding toy_gradient toy_adam toy_state4
              toy_batch4 toy_world st' w' E)
    as ((loss & Hloss & Hsum) & _ & _ & Hval).
  destruct (Hval ∅ toy_rows4 toy_rows4) as (Hobj & Hpos).
  - vm_compute. reflexivity.
  - vm_compute. reflexivity.
  - reflexivity.
  - reflexivity.
  - repeat constructor; vm_compute; congruence.
  - simpl. lia.
  - simpl. lra.
  - vm_compute. congruence.
  - exists st', w', loss. split; [exact E|]. split; [exact Hsum|].
    split; [|split; [reflexivity|exact (Hpos 1%nat ltac:(simpl; lia))]].
    pose proof (eq_trans (eq_sym Hobj) Hloss) as Heq.
    injection Heq as <-. reflexivity.
Defined.

(** *** Further properties at the instance *)

Lemma toy_get_ds_ok :
  exists tdl vdl tsrc ttgt w1,
    toy_get_ds toy_config toy_world = Ok (tdl, vdl, tsrc, ttgt, w1).
Proof. do 5 eexists. vm_compute. reflexivity. Qed.

Lemma toy_get_ds_fixed_ok :
  exists tdl vdl tsrc ttgt w1,
    get_ds toy_load_dataset toy_cache toy_split toy_dataset toy_format_fixed
      toy_vocab_first toy_writable toy_config toy_world
    = Ok (tdl, vdl, tsrc, ttgt, w1).
Proof. do 5 eexists. vm_compute. reflexivity. Qed.

Lemma toy_tokenizer_built :
  exists t fs',
    get_or_build_tokenizer toy_format toy_vocab toy_writable toy_config [toy_raw] "en" ∅
    = Ok (t, fs').
Proof. do 2 eexists. vm_compute. reflexivity. Qed.

Lemma toy_validation_ok :
  exists model' texts w',
    run_validation toy_stack toy_shuffle toy_causal_mask toy_decode_text toy_metric 3
      toy_model1 toy_loader1 toy_tokenizer toy_tokenizer 3 2 7 true toy_world
    = Ok (model', texts, w').
Proof. do 3 eexists. vm_compute. reflexivity. Qed.

Lemma toy_first_step_ok :
  exists st batch w1 rest st' w',
    toy_training_steps 3 toy_config toy_world = (st, batch, w1) :: rest
    /\ train_step toy_gradient toy_adam st batch w1 = Ok (st', w').
Proof. do 6 eexists. split; vm_compute; reflexivity. Qed.

Lemma toy_epoch_ok :
  exists st0 w0 st' w',
    toy_setup toy_config toy_world = Ok (st0, w0)
    /\ toy_train_epoch 3 toy_config st0 0 w0 = Ok (st', w').
Proof. do 4 eexists. split; vm_compute; reflexivity. Qed.

Lemma toy_setup_no_epoch_ok :
  exists st w0, toy_setup toy_config_no_epoch toy_world = Ok (st, w0).
Proof. do 2 eexists. vm_compute. reflexivity. Qed.

Lemma toy_setup_latest_without_file :
  exists st w0,
    toy_setup toy_config_resume toy_world = Ok (st, w0)
    /\ toy_latest toy_config_resume (fs w0) = None.
Proof. do 2 eexists. split; vm_compute; reflexivity. Qed.

Lemma greedy_decode_never_returns_witness :
  greedy_decode toy_causal_mask 50 toy_transformer [[5%Z]] tt toy_tokenizer
    toy_tokenizer 0 = Diverge.
Proof.
  apply (greedy_decode_never_returns toy_causal_mask toy_transformer [[5%Z]] tt
           toy_tokenizer toy_tokenizer 0 2).
  - lia.
  - reflexivity.
  - intros prefix Hne. exists 0%Z. split; [apply toy_next_word, Hne|].
    vm_compute. reflexivity.
Defined.

Lemma greedy_decode_full_length_without_eos_witness :
  exists out,
    (forall fuel, (Z.to_nat 3 <= fuel)%nat ->
       greedy_decode toy_causal_mask fuel toy_transformer [[5%Z]] tt
         toy_tokenizer toy_tokenizer 3 = Ok out)
    /\ Z.of_nat (length out) = 3%Z.
Proof.
  apply (greedy_decode_full_length_without_eos toy_causal_mask toy_transformer
           [[5%Z]] tt toy_tokenizer toy_tokenizer 3 2).
  - lia.
  - reflexivity.
  - intros prefix Hne. exists 0%Z. split; [apply toy_next_word, Hne|].
    vm_compute. reflexivity.
Defined.

Lemma get_or_build_tokenizer_cached_witness :
  exists t fs',
    get_or_build_tokenizer toy_format toy_vocab toy_writable toy_config [toy_raw] "en" ∅
    = Ok (t, fs')
    /\ get_or_build_tokenizer toy_format toy_vocab toy_writable toy_config [] "en" fs'
       = Ok (t, fs').
Proof.
  destruct toy_tokenizer_built as (t & fs' & E).
  exists t, fs'. split; [exact E|].
  exact (get_or_build_tokenizer_cached toy_format toy_vocab toy_writable toy_config
           [toy_raw] [] "en" ∅ fs' t E).
Defined.

Lemma get_or_build_tokenizer_writes_one_file_witness :
  exists t fs',
    get_or_build_tokenizer toy_format toy_vocab toy_writable toy_config [toy_raw] "en" ∅
    = Ok (t, fs')
    /\ fs' !! toy_format (tokenizer_file toy_config) "en" = Some (TokenizerFile t)
    /\ (forall p, p <> toy_format (tokenizer_file toy_config) "en" ->
          fs' !! p = (∅ : FileSystem) !! p).
Proof.
  destruct toy_tokenizer_built as (t & fs' & E).
  exists t, fs'. split; [exact E|].
  destruct (get_or_build_tokenizer_writes_one_file toy_format toy_vocab toy_writable
              toy_config [toy_raw] "en" ∅ fs' t E) as (H1 & H2 & _).
  split; [exact H1|exact H2].
Defined.

Lemma iter_batches_cover_witness :
  let order := toy_shuffle 0 (dl_dataset toy_loader2) in
  let batches := iter_batches toy_stack toy_shuffle toy_loader2 0 in
  concat (map encoder_input batches) = map it_encoder_input order
  /\ concat (map decoder_input batches) = map it_decoder_input order
  /\ concat (map label batches) = map it_label order
  /\ Forall (fun batch => (1 <= length (encoder_input batch) <= 2)%nat) batches
  /\ length batches = ((length order + 2 - 1) / 2)%nat.
Proof.
  apply (iter_batches_cover toy_stack toy_shuffle toy_loader2 0).
  simpl. lia.
Defined.

Lemma run_validation_decodes_and_logs_witness :
  exists model' texts w',
    run_validation toy_stack toy_shuffle toy_causal_mask toy_decode_text
      toy_metric 3 toy_model1 toy_loader1 toy_tokenizer toy_tokenizer 3 2 7
      true toy_world
    = Ok (model', texts, w')
    /\ Forall2 (decoded toy_causal_mask toy_decode_text 3
                  (bound (eval_mode toy_model1) ∅ 1) toy_tokenizer
                  toy_tokenizer 3)
         (take 2 (iter_batches toy_stack toy_shuffle toy_loader1 0)) texts
    /\ training model' = false
    /\ params w' = params toy_world
    /\ summary w'
       = [("validation cer",
           toy_metric CharErrorRate (map snd texts)
             (map (fun r => snd (fst r)) texts), 7%Z);
          ("validation wer",
           toy_metric WordErrorRate (map snd texts)
             (map (fun r => snd (fst r)) texts), 7%Z);
          ("validation BLEU",
           toy_metric BLEUScore (map snd texts)
             (map (fun r => snd (fst r)) texts), 7%Z)].
Proof.
  destruct toy_validation_ok as (model' & texts & w' & E).
  exists model', texts, w'. split; [exact E|].
  destruct (run_validation_decodes_and_logs toy_stack toy_shuffle
              toy_causal_mask toy_decode_text toy_metric 3 toy_model1
              toy_loader1 toy_tokenizer toy_tokenizer 3 2 7 true toy_world
              model' texts w' E)
    as (Hdec & Htr & _ & Hp & _ & Hsum).
  split; [exact Hdec|]. split; [exact Htr|]. split; [exact Hp|exact Hsum].
Defined.

Lemma run_validation_rejects_larger_batches_witness :
  run_validation toy_stack toy_shuffle toy_causal_mask toy_decode_text
    toy_metric 3 toy_model1 toy_loader2 toy_tokenizer toy_tokenizer 3 2 7 true
    toy_world
  = Raise AssertionError.
Proof.
  apply run_validation_rejects_larger_batches.
  - intros n l. reflexivity.
  - simpl. lia.
  - simpl. lia.
Defined.

Lemma get_ds_writes_only_tokenizer_files_witness :
  exists tdl vdl tsrc ttgt w1,
    toy_get_ds toy_config toy_world = Ok (tdl, vdl, tsrc, ttgt, w1)
    /\ fs w1 !! "tokenizer_en" = Some (TokenizerFile tsrc)
    /\ fs w1 !! "tokenizer_it" = Some (TokenizerFile ttgt)
    /\ (forall p, p <> "tokenizer_en" -> p <> "tokenizer_it" ->
          fs w1 !! p = fs toy_world !! p)
    /\ params w1 = params toy_world.
Proof.
  destruct toy_get_ds_ok as (tdl & vdl & tsrc & ttgt & w1 & E).
  exists tdl, vdl, tsrc, ttgt, w1. split; [exact E|].
  destruct (get_ds_writes_only_tokenizer_files toy_load_dataset toy_cache toy_split
              toy_dataset toy_format toy_vocab toy_writable toy_config toy_world
              tdl vdl tsrc ttgt w1 E) as (H1 & H2 & H3 & H4 & _).
  split; [exact H1|]. split; [exact H2|]. split; [exact H3|exact H4].
Defined.

Lemma get_ds_same_file_same_tokenizer_witness :
  exists tdl vdl tsrc ttgt w1,
    get_ds toy_load_dataset toy_cache toy_split toy_dataset toy_format_fixed
      toy_vocab_first toy_writable toy_config toy_world
    = Ok (tdl, vdl, tsrc, ttgt, w1)
    /\ ttgt = tsrc.
Proof.
  destruct toy_get_ds_fixed_ok as (tdl & vdl & tsrc & ttgt & w1 & E).
  exists tdl, vdl, tsrc, ttgt, w1. split; [exact E|].
  apply (get_ds_same_file_same_tokenizer toy_load_dataset toy_cache toy_split
           toy_dataset toy_format_fixed toy_vocab_first toy_writable toy_config toy_world
           tdl vdl tsrc ttgt w1); [reflexivity|exact E].
Defined.

Lemma get_ds_split_and_loaders_witness :
  exists tdl vdl tsrc ttgt w1 n_train n_val train_raw val_raw,
    toy_get_ds toy_config toy_world = Ok (tdl, vdl, tsrc, ttgt, w1)
    /\ toy_split (rng toy_world) (toy_load_dataset "corpus" "en-it")
         n_train n_val = (train_raw, val_raw)
    /\ (n_train + n_val)%nat = 2%nat
    /\ (10 * n_train <= 9 * 2 < 10 * n_train + 10)%nat
    /\ dl_dataset vdl = toy_dataset val_raw tsrc ttgt "en" "it" 3
    /\ dl_batch_size tdl = 1%nat.
Proof.
  destruct toy_get_ds_ok as (tdl & vdl & tsrc & ttgt & w1 & E).
  exists tdl, vdl, tsrc, ttgt, w1.
  destruct (get_ds_split_and_loaders toy_load_dataset toy_cache toy_split toy_dataset
              toy_format toy_vocab toy_writable toy_config toy_world tdl vdl tsrc ttgt w1 E)
    as (ds_raw & n_train & n_val & train_raw & val_raw & -> & H1 & H2 & H3 & _
        & _ & H6 & _ & H8 & _).
  exists n_train, n_val, train_raw, val_raw.
  split; [exact E|]. split; [exact H1|]. split; [exact H2|].
  split; [exact H3|]. split; [exact H6|exact H8].
Defined.

Lemma teacher_and_student_share_no_tensor_witness :
  exists teacher w2 student w3,
    get_model toy_build toy_config 1 1 toy_world = (teacher, w2)
    /\ get_model_distillation toy_build toy_config 1 1 w2 = (student, w3)
    /\ (forall l, l ∈ parameters teacher -> l ∉ parameters student)
    /\ NoDup (parameters teacher ++ parameters student)%list.
Proof.
  destruct (get_model toy_build toy_config 1 1 toy_world)
    as [teacher w2] eqn:E1.
  destruct (get_model_distillation toy_build toy_config 1 1 w2)
    as [student w3] eqn:E2.
  destruct (teacher_and_student_share_no_tensor toy_build toy_build toy_config
              1 1 toy_world w2 w3 teacher student E1 E2) as (H1 & H2 & _).
  exists teacher, w2, student, w3. auto.
Defined.

Lemma student_trains_in_training_mode_witness :
  exists st batch w1 rest,
    toy_training_steps 3 toy_config toy_world = (st, batch, w1) :: rest
    /\ training (student_model st) = true.
Proof.
  destruct toy_first_step as (st & batch & w1 & rest & E).
  exists st, batch, w1, rest. split; [exact E|].
  apply (proj1 (student_trains_in_training_mode toy_stack toy_shuffle
                  toy_causal_mask toy_decode_text toy_metric toy_load_dataset toy_cache toy_split
                  toy_dataset toy_format toy_vocab toy_writable toy_build toy_build
                  toy_gradient toy_adam toy_weights_file_path toy_latest
                  toy_02d 3 toy_config) toy_world st batch w1).
  unfold toy_training_steps in E. rewrite E. left.
Defined.

Lemma training_step_clears_gradients_witness :
  exists st batch w1 rest st' w',
    toy_training_steps 3 toy_config toy_world = (st, batch, w1) :: rest
    /\ train_step toy_gradient toy_adam st batch w1 = Ok (st', w')
    /\ (forall l, l ∈ parameters (student_model st) -> grads w' !! l = None)
    /\ global_step st' = (global_step st + 1)%Z.
Proof.
  destruct toy_first_step_ok as (st & batch & w1 & rest & st' & w' & E & Hstep).
  exists st, batch, w1, rest, st', w'. split; [exact E|]. split; [exact Hstep|].
  apply (training_step_clears_gradients toy_stack toy_shuffle
           toy_causal_mask toy_decode_text toy_metric toy_load_dataset toy_cache toy_split
           toy_dataset toy_format toy_vocab toy_writable toy_build toy_build
           toy_gradient toy_adam toy_weights_file_path toy_latest
           toy_02d 3 toy_config toy_world st batch w1 st' w'); [|exact Hstep].
  unfold toy_training_steps in E. rewrite E. left.
Defined.

Lemma epoch_counts_its_batches_witness :
  exists st0 w0 st' w' c,
    toy_setup toy_config toy_world = Ok (st0, w0)
    /\ toy_train_epoch 3 toy_config st0 0 w0 = Ok (st', w')
    /\ global_step st'
       = (global_step st0
          + Z.of_nat (length (iter_batches toy_stack toy_shuffle
                                (train_dataloader st0) (rng w0))))%Z
    /\ fs w' !! toy_weights_file_path toy_config (toy_02d 0)
       = Some (CheckpointFile c)
    /\ ck_global_step c = global_step st'.
Proof.
  destruct toy_epoch_ok as (st0 & w0 & st' & w' & E0 & E).
  destruct (epoch_counts_its_batches toy_stack toy_shuffle toy_causal_mask
              toy_decode_text toy_metric toy_writable toy_gradient toy_adam toy_weights_file_path
              toy_02d 3 toy_config st0 0 w0 st' w' E) as (Hgs & c & Hc & Hck).
  exists st0, w0, st', w', c. split; [exact E0|]. split; [exact E|].
  split; [exact Hgs|]. split; [exact Hc|]. rewrite Hgs. exact Hck.
Defined.

Lemma no_epoch_and_no_preload_raises_witness :
  toy_train_model 3 toy_config_no_epoch toy_world = Raise TypeError
  /\ toy_training_steps 3 toy_config_no_epoch toy_world = [].
Proof.
  destruct toy_setup_no_epoch_ok as (st & w0 & E).
  apply (no_epoch_and_no_preload_raises toy_stack toy_shuffle toy_causal_mask
           toy_decode_text toy_metric toy_load_dataset toy_cache toy_split toy_dataset toy_format
           toy_vocab toy_writable toy_build toy_build toy_gradient toy_adam
           toy_weights_file_path toy_latest toy_02d toy_quantize 3
           toy_config_no_epoch toy_world st w0).
  - reflexivity.
  - simpl. lia.
  - exact E.
Defined.

Lemma setup_starts_from_scratch_witness :
  exists st w0,
    toy_setup toy_config_resume toy_world = Ok (st, w0)
    /\ initial_epoch st = 0%Z /\ global_step st = 0%Z
    /\ opt_state (optimizer st) = ∅
    /\ model_filename st = None.
Proof.
  destruct toy_setup_latest_without_file as (st & w0 & E & Hlatest).
  exists st, w0. split; [exact E|].
  destruct (setup_starts_from_scratch toy_load_dataset toy_cache toy_split toy_dataset
              toy_format toy_vocab toy_writable toy_build toy_build toy_weights_file_path
              toy_latest toy_config_resume toy_world st w0)
    as (seed_t & seed_s & H1 & H2 & H3 & _ & H5 & _).
  - right. right. split; [reflexivity|exact Hlatest].
  - exact E.
  - auto.
Defined.

(** *** Where the code departs from the specification *)

(** With no preload configured and no checkpoint file anywhere, training
    steps are run, the teacher holding the initial tensors of its builder:
    they were not loaded from a checkpoint. *)
Lemma teacher_not_loaded_without_preload :
  preload toy_config = None
  /\ exists st batch w1 rest,
       toy_training_steps 3 toy_config toy_world = (st, batch, w1) :: rest
       /\ (forall path c, fs w1 !! path <> Some (CheckpointFile c))
       /\ state_dict (teacher_model st) (params w1)
          = fst (toy_build 1 1 3 3 4 0).
Proof.
  split; [reflexivity|].
  do 4 eexists. split; [vm_compute; reflexivity|]. split.
  - intros path c. apply no_checkpoint_file_lookup. vm_compute. reflexivity.
  - vm_compute. reflexivity.
Qed.

(** C4.  A run with [preload = 'latest'] that follows a run of two epochs.
    With tensors whose shape follows [d_model], the checkpoint holds the
    half-width tensors of the student, and their strict load into the
    full-width teacher raises: nothing is resumed.  With tensors of one shape
    for both models the set-up goes through, and the saved student weights
    are in the teacher while the student holds the initial tensors of its
    builder; the epoch and the global step are the saved ones. *)
Theorem resume_loads_student_checkpoint_into_teacher :
  (toy_train_model_wide 3 toy_config toy_world = Ok toy_world_after_wide
   /\ toy_setup_wide toy_config_resume (restart toy_world_after_wide)
      = Raise RuntimeError
   /\ toy_train_model_wide 3 toy_config_resume (restart toy_world_after_wide)
      = Raise RuntimeError)
  /\ exists c st w0,
       toy_train_model 3 toy_config toy_world = Ok toy_world_after
       /\ torch_load (toy_latest toy_config_resume (fs toy_world_after))
            (fs toy_world_after) = Ok c
       /\ toy_setup toy_config_resume (restart toy_world_after) = Ok (st, w0)
       /\ state_dict (teacher_model st) (params w0) = ck_model_state_dict c
       /\ state_dict (student_model st) (params w0) <> ck_model_state_dict c
       /\ state_dict (student_model st) (params w0) = fst (toy_build 1 1 3 3 2 1)
       /\ initial_epoch st = (ck_epoch c + 1)%Z
       /\ global_step st = ck_global_step c.
Proof.
  split.
  - split; [vm_compute; reflexivity|]. split; vm_compute; reflexivity.
  - do 3 eexists. split; [exact toy_run|].
    split; [vm_compute; reflexivity|].
    split; [vm_compute; reflexivity|].
    split; [vm_compute; reflexivity|].
    split; [vm_compute; intros H; injection H as H; lra|].
    split; [vm_compute; reflexivity|].
    split; vm_compute; reflexivity.
Qed.

End Example.
